(** * Migration queue processor: copy engine, cleanup engine, queue
      processor, queue observer and the chaos policy gate.

    Shallow embedding of [src/app/services/migrator/service.py] and
    [src/app/services/policy/chaos.py].

    The storage client, the security policy, the clock and the random
    token source are collaborators that live outside the two modules; they
    are an interface here ([Env]), and every theorem about the engines
    holds for every implementation of it.  An in-memory implementation
    ([Mem]) with scripted faults is given at the end of the definitions and
    is used to evaluate the engines on concrete inputs.

    Every storage call may raise; the engines' [try]/[except] blocks are
    modelled as written.  Database sessions, the metric and alert sinks,
    the policy reads and the resolution of an endpoint name do not raise
    here.  Each run keeps a trace of its storage calls, sleeps and clock
    readings, so that what a run did, and did not do, can be stated. *)

From Stdlib Require Import ZArith Lia Sorting.Sorted.
From stdpp Require Import base option list sorting gmap strings pretty.

Open Scope string_scope.
Open Scope list_scope.
Open Scope Z_scope.

(** ** Exceptions and results *)

(** [botocore.exceptions.ClientError] carries
    [e.response["Error"]["Code"]], which may be missing; every other
    Python [Exception] is [OtherError].  [exn_str] is [str(e)]. *)
Inductive exn : Type :=
| ClientError (code : option string) (msg : string)
| OtherError (msg : string).

Definition exn_str (e : exn) : string :=
  match e with
  | ClientError _ msg => msg
  | OtherError msg => msg
  end.

Inductive res (A : Type) : Type :=
| Ok (a : A)
| Exc (e : exn).
Arguments Ok {A} a.
Arguments Exc {A} e.

(** ** Data *)

(** What [head_object] answers; botocore leaves a key out when the
    endpoint did not send it.  Times are microseconds on one time line. *)
Record head_resp : Type := HeadResp {
  ETag : option string;
  ContentLength : option Z;
  LastModified : option Z
}.

(** The dict built by [_head_meta]: it has the two keys [etag] and
    [size], nothing else. *)
Record object_meta : Type := ObjectMeta {
  etag : string;
  size : Z
}.

(** The dict returned by [_ensure_and_copy_once] and [_cleanup_once],
    by its ["status"]. *)
Inductive outcome : Type :=
| Copied (sz : Z) (version_token : string)
| Noop
| MissingSource
| Skipped (reason : string)
| Blocked (reason : string)
| Failed (error : string)
| Deleted.

Inductive duration : Type :=
| Sec (n : Z)        (* time.sleep(n) *)
| MilliSec (n : Z).  (* time.sleep(n / 1000.0) *)

(** The storage calls, sleeps and clock readings of a run, in order, each
    storage call with what it answered. *)
Inductive event : Type :=
| EvEnsure (ep : string) (r : res unit)
| EvHead (ep key : string) (r : res head_resp)
| EvGet (ep key : string) (r : res string)
| EvPut (ep key body : string) (r : res unit)
| EvDelete (ep key : string) (r : res unit)
| EvSleep (d : duration)
| EvNow (t : Z).

Definition is_put (ev : event) : bool :=
  match ev with EvPut _ _ _ _ => true | _ => false end.

Definition is_get (ev : event) : bool :=
  match ev with EvGet _ _ _ => true | _ => false end.

Definition is_head (ev : event) : bool :=
  match ev with EvHead _ _ _ => true | _ => false end.

Definition is_now (ev : event) : bool :=
  match ev with EvNow _ => true | _ => false end.

(** The sleeps of the retry loop, in whole seconds. *)
Definition is_backoff (ev : event) : bool :=
  match ev with EvSleep (Sec _) => true | _ => false end.

(** ** The collaborators *)

(** [client_for(name)] and [get_bucket(name)] resolve an endpoint name
    from configuration; the calls below are addressed by that name.
    [get_object] stands for [get_object(...)] followed by
    [obj["Body"].read()].  [latency_sleep_error lat] is the exception
    that [time.sleep(lat / 1000.0)] raises for a latency of [lat]
    milliseconds that it cannot take, an [OverflowError] beyond the range
    of the platform's clock, if there is one; the sleeps of the retry
    loop, of 1, 2 and 4 seconds, are within every range. *)
Class Env (W : Type) : Type := {
  is_encryption_enforced : W -> bool;
  endpoint_is_encrypted : string -> W -> bool;
  settings : W -> gmap string string;
  time_sleep : duration -> W -> W;
  latency_sleep_error : Z -> option exn;
  datetime_now : W -> Z;
  uuid4_hex : W -> string * W;
  ensure_bucket : string -> W -> res unit * W;
  head_object : string -> string -> W -> res head_resp * W;
  get_object : string -> string -> W -> res string * W;
  put_object : string -> string -> string -> W -> res unit * W;
  delete_object : string -> string -> W -> res unit * W
}.

(** ** A state and exception monad with an I/O trace *)

Definition M (W A : Type) : Type := W * list event -> res A * (W * list event).

Definition ret {W A} (a : A) : M W A := fun s => (Ok a, s).

Definition raise {W A} (e : exn) : M W A := fun s => (Exc e, s).

Definition bind {W A B} (m : M W A) (k : A -> M W B) : M W B :=
  fun s =>
    match m s with
    | (Ok a, s') => k a s'
    | (Exc e, s') => (Exc e, s')
    end.

(** [try: m / except: h]; the handler decides which exceptions it takes
    by re-raising the others. *)
Definition try_except {W A} (m : M W A) (h : exn -> M W A) : M W A :=
  fun s =>
    match m s with
    | (Ok a, s') => (Ok a, s')
    | (Exc e, s') => h e s'
    end.

Declare Scope prog_scope.
Delimit Scope prog_scope with prog.
Notation "x <- m ;; k" := (bind m (fun x => k))
  (at level 100, m at next level, right associativity) : prog_scope.
Notation "m ;;; k" := (bind m (fun _ => k))
  (at level 100, right associativity) : prog_scope.
Open Scope prog_scope.

(** A run from a world with an empty trace. *)
Definition run {W A} (m : M W A) (w : W) : res A * (W * list event) := m (w, []).

Section Calls.
Context {W : Type} {env : Env W}.

Definition read {A} (f : W -> A) : M W A := fun s => (Ok (f (fst s)), s).

Definition call {A} (f : W -> res A * W) (ev : res A -> event) : M W A :=
  fun s =>
    let '(r, w') := f (fst s) in (r, (w', snd s ++ [ev r])).

Definition do_sleep (d : duration) : M W unit :=
  fun s => (Ok tt, (time_sleep d (fst s), snd s ++ [EvSleep d])).

(** [time.sleep(lat / 1000.0)], line 57: for a latency it cannot
    take the call raises, and nothing has happened. *)
Definition do_latency_sleep (lat : Z) : M W unit :=
  fun s =>
    match latency_sleep_error lat with
    | Some e => (Exc e, s)
    | None => (Ok tt, (time_sleep (MilliSec lat) (fst s), snd s ++ [EvSleep (MilliSec lat)]))
    end.

Definition do_now : M W Z :=
  fun s => let t := datetime_now (fst s) in (Ok t, (fst s, snd s ++ [EvNow t])).

Definition do_uuid4 : M W string :=
  fun s => let '(t, w') := uuid4_hex (fst s) in (Ok t, (w', snd s)).

Definition do_ensure (ep : string) : M W unit :=
  call (ensure_bucket ep) (EvEnsure ep).
Definition do_head (ep key : string) : M W head_resp :=
  call (head_object ep key) (EvHead ep key).
Definition do_get (ep key : string) : M W string :=
  call (get_object ep key) (EvGet ep key).
Definition do_put (ep key body : string) : M W unit :=
  call (put_object ep key body) (EvPut ep key body).
Definition do_delete (ep key : string) : M W unit :=
  call (delete_object ep key) (EvDelete ep key).
End Calls.

(** ** Strings *)

Definition quote_char : Ascii.ascii := Ascii.ascii_of_nat 34.

Fixpoint lstrip_quote (s : string) : string :=
  match s with
  | String c s' => if Ascii.eqb c quote_char then lstrip_quote s' else s
  | EmptyString => EmptyString
  end.

Fixpoint rstrip_quote (s : string) : string :=
  match s with
  | EmptyString => EmptyString
  | String c s' =>
      match rstrip_quote s' with
      | EmptyString => if Ascii.eqb c quote_char then EmptyString else String c EmptyString
      | r => String c r
      end
  end.

(** [s.strip(q)] for the one-character string [q] holding a double
    quote: every leading and every trailing quote goes. *)
Definition strip_quote (s : string) : string := rstrip_quote (lstrip_quote s).

Fixpoint quotes (n : nat) : string :=
  match n with
  | O => EmptyString
  | S n' => String quote_char (quotes n')
  end.

Definition starts_with_quote (s : string) : bool :=
  match s with
  | String c _ => Ascii.eqb c quote_char
  | EmptyString => false
  end.

Fixpoint ends_with_quote (s : string) : bool :=
  match s with
  | EmptyString => false
  | String c EmptyString => Ascii.eqb c quote_char
  | String _ s' => ends_with_quote s'
  end.

(** [sep.join(l)] *)
Fixpoint join (sep : string) (l : list string) : string :=
  match l with
  | [] => ""
  | [x] => x
  | x :: rest => x +:+ sep +:+ join sep rest
  end.

Definition code_in (codes : list string) (code : option string) : bool :=
  match code with
  | Some c => bool_decide (c ∈ codes)
  | None => false
  end.

Definition not_found_codes : list string := ["404"; "NoSuchKey"; "NotFound"].
Definition throttling_codes : list string :=
  ["429"; "503"; "Throttling"; "TooManyRequests"; "SlowDown"].

Definition is_throttling (e : exn) : bool :=
  match e with
  | ClientError code _ => code_in throttling_codes code
  | OtherError _ => false
  end.

(** A GET or PUT event of a try that was throttled: no PUT went through,
    and whatever was raised carried a throttling code. *)
Definition try_throttled (ev : event) : bool :=
  match ev with
  | EvGet _ _ (Exc e) | EvPut _ _ _ (Exc e) => is_throttling e
  | EvPut _ _ _ (Ok _) => false
  | _ => true
  end.

Definition is_copied (r : res outcome) : bool :=
  match r with Ok (Copied _ _) => true | _ => false end.

(** The events the retry loop adds to a trace. *)
Definition loop_event (ev : event) : bool :=
  match ev with
  | EvGet _ _ _ | EvPut _ _ _ _ | EvSleep (Sec _) => true
  | _ => false
  end.

(** ** Policy gate: chaos settings ([policy/chaos.py]) *)

(** The settings store is key-value with string values; [set_setting]
    writes a key.  How [settings.get_list] and [settings.get_int] read a
    stored string back is the settings module's business. *)
Class SettingsReader : Type := {
  get_list : gmap string string -> string -> list string;
  get_int : gmap string string -> string -> option Z
}.

Definition set_setting (k v : string) (st : gmap string string) : gmap string string :=
  <[k := v]> st.

(** [sorted(current)] for a set of strings.  Python compares [str] by
    code point; on UTF-8 bytes that is the byte-wise order [String.le]. *)
Definition sorted (current : gset string) : list string :=
  merge_sort String.le (elements current).

Module chaos.
Section chaos.
Context {sr : SettingsReader}.

Definition FAIL_KEY : string := "chaos_fail_endpoints".

Definition get_failed_endpoints (st : gmap string string) : list string :=
  get_list st FAIL_KEY.

Definition fail_endpoint (name : string) (st : gmap string string)
  : list string * gmap string string :=
  let current : gset string := list_to_set (get_failed_endpoints st) in
  let current := current ∪ {[name]} in
  let st := set_setting FAIL_KEY (join "," (sorted current)) st in
  (sorted current, st).

Definition recover_endpoint (name : string) (st : gmap string string)
  : list string * gmap string string :=
  let current : gset string := list_to_set (get_failed_endpoints st) in
  let current := if bool_decide (name ∈ current) then current ∖ {[name]} else current in
  let st := set_setting FAIL_KEY (join "," (sorted current)) st in
  (sorted current, st).

Definition clear_failures (st : gmap string string)
  : list string * gmap string string :=
  ([], set_setting FAIL_KEY "" st).

Definition LATENCY_KEY : string := "chaos_latency_ms".

(** [settings.get_int(LATENCY_KEY) or 0]: [None] and [0] are falsy. *)
Definition get_latency (st : gmap string string) : Z :=
  match get_int st LATENCY_KEY with
  | Some n => if n =? 0 then 0 else n
  | None => 0
  end.

Definition set_latency (ms : Z) (st : gmap string string)
  : Z * gmap string string :=
  (ms, set_setting LATENCY_KEY (pretty ms) st).
End chaos.
End chaos.

(** ** Metadata probe, copy engine, cleanup engine *)

Definition MAX_ATTEMPTS : Z := 5.

(** Line 36: the dict built from a HEAD answer [r], with
    [r.get("ETag", "")] and [int(r.get("ContentLength", 0))]. *)
Definition meta_of_resp (r : head_resp) : object_meta :=
  {| etag := strip_quote (default "" (ETag r));
     size := default 0 (ContentLength r) |}.

Section Engines.
Context {W : Type} {env : Env W} {sr : SettingsReader}.

(** [_head_meta], lines 33-41.  Only [ClientError] is caught. *)
Definition _head_meta (ep key : string) : M W (option object_meta) :=
  try_except
    (r <- do_head ep key ;;
     ret (Some (meta_of_resp r)))
    (fun e =>
       match e with
       | ClientError code _ =>
           if code_in not_found_codes code then ret None else raise e
       | OtherError _ => raise e
       end).

(** What [_head_meta] makes of the answer of its [head_object] call. *)
Definition probe_result (r : res head_resp) : res (option object_meta) :=
  match r with
  | Ok resp => Ok (Some (meta_of_resp resp))
  | Exc (ClientError code msg) =>
      if code_in not_found_codes code then Ok None
      else Exc (ClientError code msg)
  | Exc e => Exc e
  end.

(** Lines 89-99: the second HEAD of the source.  [Some o] is the early
    [return o]; [None] falls through to the retry loop.  [except
    Exception: pass] takes every exception.  [total_seconds()] has
    microsecond resolution, so [(now - last_modified).total_seconds() < 5]
    compares the difference in microseconds with five million. *)
Definition growing_file_check (src key : string) : M W (option outcome) :=
  try_except
    (head <- do_head src key ;;
     match LastModified head with
     | Some last_modified =>
         now <- do_now ;;
         if now - last_modified <? 5 * 1000000
         then ret (Some (Skipped "file_growing"))
         else ret None
     | None => ret None
     end)
    (fun _ => ret None).

Definition max_retries : Z := 3.

(** Lines 104-119: [for attempt in range(max_retries + 1)], with the
    loop variable [backoff].  The list is what is left of the range. *)
Fixpoint copy_retry_loop (src dst key : string) (sm : object_meta)
    (rng : list Z) (backoff : Z) : M W outcome :=
  match rng with
  | [] => ret (Failed "max_retries_exceeded")
  | attempt :: rng' =>
      try_except
        (body <- do_get src key ;;
         do_put dst key body ;;;
         tok <- do_uuid4 ;;
         ret (Copied (size sm) tok))
        (fun e =>
           match e with
           | ClientError code _ =>
               if code_in throttling_codes code && (attempt <? max_retries)
               then
                 do_sleep (Sec backoff) ;;;
                 copy_retry_loop src dst key sm rng' (backoff * 2)
               else raise e
           | OtherError _ => raise e
           end)
  end.

Definition range4 : list Z := [0; 1; 2; 3].

Definition meta_equal (sm dm : option object_meta) : bool :=
  match sm, dm with
  | Some a, Some b => bool_decide (etag a = etag b) && (size a =? size b)
  | _, _ => false
  end.

(** [_ensure_and_copy_once], lines 45-119. *)
Definition _ensure_and_copy_once (key src dst : string) : M W outcome :=
  enforced <- read is_encryption_enforced ;;
  encrypted <- read (endpoint_is_encrypted dst) ;;
  if enforced && negb encrypted
  then ret (Blocked "destination_not_encrypted")
  else
    lat <- read (fun w => chaos.get_latency (settings w)) ;;
    (if 0 <? lat then do_latency_sleep lat else ret tt) ;;;
    do_ensure src ;;;
    do_ensure dst ;;;
    sm <- _head_meta src key ;;
    dm <- _head_meta dst key ;;
    if meta_equal sm dm then ret Noop
    else
      match sm with
      | None =>
          match dm with
          | Some _ => ret Noop
          | None => ret MissingSource
          end
      | Some m =>
          if size m =? 0 then ret (Skipped "empty_source")
          else
            g <- growing_file_check src key ;;
            match g with
            | Some o => ret o
            | None => copy_retry_loop src dst key m range4 1
            end
      end.

(** [n] calls of [_ensure_and_copy_once] one after the other, each
    from the world the one before left; the outcome and the trace of
    each. *)
Fixpoint copy_runs (n : nat) (key src dst : string) (w : W)
  : list (res outcome * list event) :=
  match n with
  | O => []
  | S n' =>
      let '(r, (w', tr)) := run (_ensure_and_copy_once key src dst) w in
      (r, tr) :: copy_runs n' key src dst w'
  end.

(** [_cleanup_once], lines 121-131. *)
Definition _cleanup_once (key src : string) : M W outcome :=
  r <- try_except
         (do_delete src key ;;; ret None)
         (fun e =>
            match e with
            | ClientError code _ =>
                if code_in not_found_codes code then ret (Some Noop) else raise e
            | OtherError _ => raise e
            end) ;;
  match r with
  | Some o => ret o
  | None => ret Deleted
  end.
End Engines.

(** The first two HEADs of a trace are the source's and the
    destination's, both answered, with the same [(etag, size)]. *)
Definition heads_agree (src dst key : string) (tr : list event) : bool :=
  match List.filter is_head tr with
  | EvHead e1 k1 (Ok rs) :: EvHead e2 k2 (Ok rd) :: _ =>
      bool_decide (e1 = src /\ k1 = key /\ e2 = dst /\ k2 = key) &&
      bool_decide (etag (meta_of_resp rs) = etag (meta_of_resp rd)) &&
      (size (meta_of_resp rs) =? size (meta_of_resp rd))
  | _ => false
  end.

(** ** Task store, metrics and alerts *)

Inductive status : Type := StQueued | StRunning | StDone | StFailed | StCleanup.

#[global] Instance status_eq_dec : EqDecision status.
Proof. solve_decision. Defined.

Definition status_label (s : status) : string :=
  match s with
  | StQueued => "queued"
  | StRunning => "running"
  | StDone => "done"
  | StFailed => "failed"
  | StCleanup => "cleanup"
  end.

Definition _QUEUE_STATUSES : list status :=
  [StQueued; StRunning; StDone; StFailed; StCleanup].

(** A [MigrationTask] row; [attempts] is a nullable column. *)
Record MigrationTask : Type := Task {
  t_id : Z;
  t_key : string;
  t_src : string;
  t_dst : string;
  t_status : status;
  t_attempts : option Z;
  t_error : string;
  t_created_at : Z
}.

Definition set_status (st : status) (t : MigrationTask) : MigrationTask :=
  Task (t_id t) (t_key t) (t_src t) (t_dst t) st (t_attempts t) (t_error t)
       (t_created_at t).

Definition set_error (e : string) (t : MigrationTask) : MigrationTask :=
  Task (t_id t) (t_key t) (t_src t) (t_dst t) (t_status t) (t_attempts t) e
       (t_created_at t).

Definition set_attempts (n : Z) (t : MigrationTask) : MigrationTask :=
  Task (t_id t) (t_key t) (t_src t) (t_dst t) (t_status t) (Some n) (t_error t)
       (t_created_at t).

(** The session's view of the database: the task rows in storage order
    and the [FileMeta] rows as key -> version_token. *)
Record db : Type := Db {
  tasks : list MigrationTask;
  file_meta : gmap string string
}.

Record alert : Type := Alert {
  a_name : string;
  a_severity : string;
  a_message : string;
  a_metadata : list (string * Z)
}.

Record metrics : Type := Metrics {
  migration_jobs_total : gmap string Z;
  migration_queue_gauge : gmap string Z;
  alerts : list alert
}.

Definition inc_counter (label : string) (m : metrics) : metrics :=
  Metrics (<[label := default 0 (migration_jobs_total m !! label) + 1]>
             (migration_jobs_total m))
          (migration_queue_gauge m) (alerts m).

Definition counter (label : string) (m : metrics) : Z :=
  default 0 (migration_jobs_total m !! label).

Definition count_status (s : status) (ts : list MigrationTask) : Z :=
  Z.of_nat (length (filter (fun t => t_status t = s) ts)).

(** The [group_by(MigrationTask.status)] query with [func.count()]: one
    row per status that occurs. *)
Definition group_by_status (ts : list MigrationTask) : list (string * Z) :=
  omap (fun s => let n := count_status s ts in
                 if 0 <? n then Some (status_label s, n) else None)
       _QUEUE_STATUSES.

(** The alert of lines 26-31 for [n] queued rows. *)
Definition backlog_alert (n : Z) : alert :=
  Alert "migration_backlog" "warning"
        (pretty n +:+ " migration tasks queued") [("queued", n)].

(** [_update_queue_metrics], lines 13-31. *)
Definition _update_queue_metrics (ts : list MigrationTask) (m : metrics) : metrics :=
  let counts : gmap string Z :=
    list_to_map ((fun s => (status_label s, 0)) <$> _QUEUE_STATUSES) in
  let rows := group_by_status ts in
  let counts := foldl (fun c row => <[row.1 := row.2]> c) counts rows in
  let gauge :=
    foldl (fun g kv => <[kv.1 := kv.2]> g) (migration_queue_gauge m)
          (map_to_list counts) in
  let queued := default 0 (counts !! "queued") in
  let al :=
    if 20 <? queued
    then alerts m ++ [backlog_alert queued]
    else alerts m in
  Metrics (migration_jobs_total m) gauge al.

(** ** Queue processor *)

Definition outcome_status (r : outcome) : string :=
  match r with
  | Copied _ _ => "copied"
  | Noop => "noop"
  | MissingSource => "missing_source"
  | Skipped _ => "skipped"
  | Blocked _ => "blocked"
  | Failed _ => "failed"
  | Deleted => "deleted"
  end.

Definition py_quote (s : string) : string := "'" +:+ s +:+ "'".

(** [str(r)] of the outcome dict, keys in insertion order. *)
Definition str_outcome (r : outcome) : string :=
  match r with
  | Copied sz tok =>
      "{'status': 'copied', 'size': " +:+ pretty sz +:+ ", 'version_token': "
        +:+ py_quote tok +:+ "}"
  | Noop => "{'status': 'noop'}"
  | MissingSource => "{'status': 'missing_source'}"
  | Skipped reason => "{'status': 'skipped', 'reason': " +:+ py_quote reason +:+ "}"
  | Blocked reason => "{'status': 'blocked', 'reason': " +:+ py_quote reason +:+ "}"
  | Failed err => "{'status': 'failed', 'error': " +:+ py_quote err +:+ "}"
  | Deleted => "{'status': 'deleted'}"
  end.

Definition ready (t : MigrationTask) : bool :=
  bool_decide (t_status t ∈ [StQueued; StCleanup; StFailed]).

(** The query of lines 135-140, [order_by(created_at.asc()).first()]:
    a ready row with the least [created_at].  The query has no second
    sort key and leaves the choice among rows of the same [created_at]
    to the database; the model takes the first of them in storage
    order.  The result carries the row's position. *)
Fixpoint first_ready (i : nat) (ts : list MigrationTask)
  : option (nat * MigrationTask) :=
  match ts with
  | [] => None
  | t :: rest =>
      let r := first_ready (S i) rest in
      if ready t then
        match r with
        | Some (j, b) =>
            if t_created_at b <? t_created_at t then Some (j, b) else Some (i, t)
        | None => Some (i, t)
        end
      else r
  end.

(** Lines 169-174 and 187-192: the decision taken once the phase has
    set the row's status; [requeue] is ["queued"] in the copy phase and
    ["cleanup"] in the cleanup phase.  Ends with the [s.commit()]. *)
Definition settle (requeue : status) (i : nat) (t : MigrationTask)
    (ts : list MigrationTask) : list MigrationTask :=
  if bool_decide (t_status t = StFailed) then
    let t := set_attempts (default 0 (t_attempts t) + 1) t in
    if MAX_ATTEMPTS <=? default 0 (t_attempts t)
    then delete i ts
    else <[i := set_status requeue t]> ts
  else <[i := t]> ts.

Section Processor.
Context {W : Type} {env : Env W} {sr : SettingsReader}.

(** Lines 148-168: the copy phase on the claimed row. *)
Definition copy_phase (t : MigrationTask) (fm : gmap string string)
    (m : metrics) (s : W * list event)
  : MigrationTask * gmap string string * metrics * (W * list event) :=
  match _ensure_and_copy_once (t_key t) (t_src t) (t_dst t) s with
  | (Ok r, s') =>
      match r with
      | Copied _ tok =>
          (set_error "" (set_status StDone t),
           match fm !! t_key t with
           | Some _ => <[t_key t := tok]> fm
           | None => fm
           end,
           inc_counter (outcome_status r) m, s')
      | Noop =>
          (set_error "" (set_status StDone t), fm,
           inc_counter (outcome_status r) m, s')
      | MissingSource =>
          (set_error "missing_source" (set_status StFailed t), fm,
           inc_counter "missing_source" m, s')
      | Blocked reason =>
          (set_error reason (set_status StFailed t), fm,
           inc_counter "blocked" m, s')
      | _ =>
          (set_error (str_outcome r) (set_status StFailed t), fm, m, s')
      end
  | (Exc e, s') =>
      (set_error (exn_str e) (set_status StFailed t), fm,
       inc_counter "error" m, s')
  end.

(** Lines 180-186: the cleanup phase on the claimed row. *)
Definition cleanup_phase (t : MigrationTask) (m : metrics) (s : W * list event)
  : MigrationTask * metrics * (W * list event) :=
  match _cleanup_once (t_key t) (t_src t) s with
  | (Ok r, s') =>
      (set_error "" (set_status StDone t), inc_counter (outcome_status r) m, s')
  | (Exc e, s') =>
      (set_error (exn_str e) (set_status StFailed t),
       inc_counter "cleanup_error" m, s')
  end.

(** [process_queue_once], lines 133-197. *)
Definition process_queue_once (d : db) (m : metrics) (s : W * list event)
  : bool * db * metrics * (W * list event) :=
  match first_ready 0 (tasks d) with
  | None => (false, d, _update_queue_metrics (tasks d) m, s)
  | Some (i, t) =>
      if bool_decide (t_status t ∈ [StQueued; StFailed]) then
        let t := set_status StRunning t in
        let '(t, fm, m, s) := copy_phase t (file_meta d) m s in
        let ts := settle StQueued i t (tasks d) in
        (true, Db ts fm, _update_queue_metrics ts m, s)
      else if bool_decide (t_status t = StCleanup) then
        let '(t, m, s) := cleanup_phase t m s in
        let ts := settle StCleanup i t (tasks d) in
        (true, Db ts (file_meta d), _update_queue_metrics ts m, s)
      else (false, d, m, s)
  end.
End Processor.

(** ** An in-memory implementation of the collaborators *)

Module Mem.

Record stored : Type := Stored {
  o_body : string;
  o_etag : string;
  o_last_modified : Z
}.

(** [faults] is a script: each bucket, HEAD, GET, PUT or DELETE call
    takes its first entry, and raises it when it is [Some e]; an empty
    script means no faults.  [PUT] stamps the object with a
    content-derived ETag ([digest]) and the current time. *)
Record world : Type := World {
  objects : gmap (string * string) stored;
  enforced : bool;
  encrypted : list string;
  setting_store : gmap string string;
  clock : Z;
  faults : list (option exn);
  minted : N
}.

Definition digest (body : string) : string := "md5:" +:+ body.

Definition micros (d : duration) : Z :=
  match d with
  | Sec n => n * 1000000
  | MilliSec n => n * 1000
  end.

Definition with_objects (o : gmap (string * string) stored) (w : world) : world :=
  World o (enforced w) (encrypted w) (setting_store w) (clock w) (faults w) (minted w).

Definition next_fault (w : world) : option exn * world :=
  match faults w with
  | [] => (None, w)
  | f :: rest =>
      (f, World (objects w) (enforced w) (encrypted w) (setting_store w)
                (clock w) rest (minted w))
  end.

Definition faulty {A} (op : world -> res A * world) (w : world) : res A * world :=
  match next_fault w with
  | (Some e, w') => (Exc e, w')
  | (None, w') => op w'
  end.

Definition no_such_key : exn := ClientError (Some "NoSuchKey") "NoSuchKey".
Definition not_found : exn := ClientError (Some "404") "Not Found".

(** The HEAD answer for a stored object: the ETag comes in quotes. *)
Definition head_of (o : stored) : head_resp :=
  HeadResp (Some (String quote_char (o_etag o) +:+ String quote_char ""))
           (Some (Z.of_nat (String.length (o_body o))))
           (Some (o_last_modified o)).

Definition mem_head (ep key : string) : world -> res head_resp * world :=
  faulty (fun w =>
    match objects w !! (ep, key) with
    | Some o => (Ok (head_of o), w)
    | None => (Exc not_found, w)
    end).

Definition mem_get (ep key : string) : world -> res string * world :=
  faulty (fun w =>
    match objects w !! (ep, key) with
    | Some o => (Ok (o_body o), w)
    | None => (Exc no_such_key, w)
    end).

Definition mem_put (ep key body : string) : world -> res unit * world :=
  faulty (fun w =>
    (Ok tt, with_objects (<[(ep, key) := Stored body (digest body) (clock w)]> (objects w)) w)).

Definition mem_delete (ep key : string) : world -> res unit * world :=
  faulty (fun w =>
    match objects w !! (ep, key) with
    | Some _ => (Ok tt, with_objects (delete (ep, key) (objects w)) w)
    | None => (Exc no_such_key, w)
    end).

Definition mem_ensure (ep : string) : world -> res unit * world :=
  faulty (fun w => (Ok tt, w)).

Definition mem_sleep (d : duration) (w : world) : world :=
  World (objects w) (enforced w) (encrypted w) (setting_store w)
        (clock w + micros d) (faults w) (minted w).

Definition mem_uuid4 (w : world) : string * world :=
  ("token-" +:+ pretty (minted w),
   World (objects w) (enforced w) (encrypted w) (setting_store w)
         (clock w) (faults w) (minted w + 1)).

(** The clock of this store counts nanoseconds in 63 bits: a
    latency of more than 9223372036854 ms is beyond it. *)
Definition sleep_overflow (lat : Z) : option exn :=
  if 9223372036854 <? lat
  then Some (OtherError "timestamp too large to convert to C _PyTime_t")
  else None.

#[global] Instance mem_env : Env world := {|
  is_encryption_enforced := enforced;
  endpoint_is_encrypted := fun ep w => bool_decide (ep ∈ encrypted w);
  settings := setting_store;
  time_sleep := mem_sleep;
  latency_sleep_error := sleep_overflow;
  datetime_now := clock;
  uuid4_hex := mem_uuid4;
  ensure_bucket := mem_ensure;
  head_object := mem_head;
  get_object := mem_get;
  put_object := mem_put;
  delete_object := mem_delete
|}.

Fixpoint digits_value (acc : Z) (s : string) : option Z :=
  match s with
  | EmptyString => Some acc
  | String c rest =>
      let n := Z.of_nat (Ascii.nat_of_ascii c) - 48 in
      if (0 <=? n) && (n <=? 9) then digits_value (10 * acc + n) rest else None
  end.

Definition parse_int (s : string) : option Z :=
  match s with
  | EmptyString => None
  | String c rest =>
      if Ascii.eqb c (Ascii.ascii_of_nat 45)
      then match rest with
           | EmptyString => None
           | _ => Z.opp <$> digits_value 0 rest
           end
      else digits_value 0 s
  end.

Fixpoint split_commas (cur : string) (s : string) : list string :=
  match s with
  | EmptyString => [cur]
  | String c rest =>
      if Ascii.eqb c (Ascii.ascii_of_nat 44)
      then cur :: split_commas "" rest
      else split_commas (cur +:+ String c "") rest
  end.

(** Modelled from the spec: the settings module ([common/settings.py])
    with [get_list] and [get_int], which the sources do not include.  The
    spec has the failed-endpoint set stored as a comma-joined string
    and has getters answer a safe default for an unset key; here an
    unset key reads as the empty list and as no integer. *)
#[global] Instance mem_settings : SettingsReader := {|
  get_list := fun st k =>
    match st !! k with
    | Some v => filter (fun x => x ≠ "") (split_commas "" v)
    | None => []
    end;
  get_int := fun st k => st !! k ≫= parse_int
|}.

Definition empty_world : world :=
  World ∅ false [] ∅ 1000000000 [] 0.

Definition with_faults (f : list (option exn)) (w : world) : world :=
  World (objects w) (enforced w) (encrypted w) (setting_store w) (clock w) f (minted w).

Definition with_enforced (b : bool) (w : world) : world :=
  World (objects w) b (encrypted w) (setting_store w) (clock w) (faults w) (minted w).

Definition store_object (ep key body : string) (lm : Z) (w : world) : world :=
  with_objects (<[(ep, key) := Stored body (digest body) lm]> (objects w)) w.

Definition throttled (code : string) : exn := ClientError (Some code) "throttled".

(** Scenario worlds: a five-byte object under key [a/b] on endpoint
    [s1], written long before the clock's time; [s2] is empty. *)
Definition hello_world : world := store_object "s1" "a/b" "hello" 0 empty_world.

(** The same, with every GET throttled: the first five storage calls
    (two bucket checks, three HEADs) go through, the next four raise
    [SlowDown]. *)
Definition throttled_world : world :=
  with_faults
    ([None; None; None; None; None] ++ replicate 4 (Some (throttled "SlowDown")))
    hello_world.


(** The configured chaos latency, where there is one, is within the
    clock's range. *)
Definition latency_ok (w : world) : Prop :=
  let lat := chaos.get_latency (setting_store w) in
  0 < lat -> sleep_overflow lat = None.

(** Source and destination hold the same bytes under the ETag a PUT
    gives, the encryption gate lets the destination through, the
    latency sleep goes through, and no fault is scheduled. *)
Definition synced (src dst key : string) (w : world) : Prop :=
  faults w = [] /\
  enforced w && negb (bool_decide (dst ∈ encrypted w)) = false /\
  latency_ok w /\
  exists b lm lm',
    objects w !! (src, key) = Some (Stored b (digest b) lm) /\
    objects w !! (dst, key) = Some (Stored b (digest b) lm').

(** A source object whose ETag is not the digest a PUT would give, as
    a multipart upload leaves it. *)
Definition multipart_world : world :=
  with_objects (<[("s1", "a/b") := Stored "hello" "9b2c-2" 0]> ∅) empty_world.

(** The object of [hello_world] on both sides (scenario 2 of the
    specification). *)
Definition both_world : world := store_object "s2" "a/b" "hello" 7 hello_world.

(** An empty object on both sides. *)
Definition empty_pair_world : world :=
  store_object "s2" "a/b" "" 0 (store_object "s1" "a/b" "" 0 empty_world).

(** A source object written one second before the clock's time. *)
Definition fresh_world : world :=
  store_object "s1" "a/b" "hello" (clock empty_world - 1000000) empty_world.

(** Scenario rows and metrics. *)
Definition queued_task : MigrationTask :=
  Task 1 "a/b" "s1" "s2" StQueued None "" 100.

Definition cleanup_task : MigrationTask :=
  Task 2 "gone" "s1" "s2" StCleanup (Some 3) "" 50.

Definition no_metrics : metrics := Metrics ∅ ∅ [].

End Mem.


(** ** Further vocabulary for traces and stores *)

Definition is_ensure (ev : event) : bool :=
  match ev with EvEnsure _ _ => true | _ => false end.

Definition is_delete (ev : event) : bool :=
  match ev with EvDelete _ _ _ => true | _ => false end.

(** The chaos-latency sleep of line 57. *)
Definition is_latency_sleep (ev : event) : bool :=
  match ev with EvSleep (MilliSec _) => true | _ => false end.

(** The exception a storage call raised, if it raised. *)
Definition raised (ev : event) : option exn :=
  match ev with
  | EvEnsure _ (Exc e) | EvHead _ _ (Exc e) | EvGet _ _ (Exc e)
  | EvPut _ _ _ (Exc e) | EvDelete _ _ (Exc e) => Some e
  | _ => None
  end.

(** A GET or PUT that raised something other than a throttling error. *)
Definition fatal (ev : event) : bool :=
  match ev with
  | EvGet _ _ (Exc e) | EvPut _ _ _ (Exc e) => negb (is_throttling e)
  | _ => false
  end.

(** The calls a copy of [key] from [src] to [dst] may make: bucket
    checks and HEADs on either endpoint, GETs on the source, PUTs on the
    destination, always under [key]; no DELETE. *)
Definition addressed (src dst key : string) (ev : event) : bool :=
  match ev with
  | EvEnsure ep _ => bool_decide (ep = src \/ ep = dst)
  | EvHead ep k _ => bool_decide ((ep = src \/ ep = dst) /\ k = key)
  | EvGet ep k _ => bool_decide (ep = src /\ k = key)
  | EvPut ep k _ _ => bool_decide (ep = dst /\ k = key)
  | EvDelete _ _ _ => false
  | EvSleep _ | EvNow _ => true
  end.

(** [n] backoff sleeps starting at [b] seconds, each twice the one
    before. *)
Fixpoint backoffs (b : Z) (n : nat) : list event :=
  match n with
  | O => []
  | S n' => EvSleep (Sec b) :: backoffs (b * 2) n'
  end.

(** The events of one try of the retry loop that ended in exception
    [e]: the GET raised it, or the GET answered and the PUT raised it. *)
Definition failed_try (src dst key : string) (e : exn) (evs : list event) : Prop :=
  evs = [EvGet src key (Exc e)] \/
  exists body, evs = [EvGet src key (Ok body); EvPut dst key body (Exc e)].

(** A row the processor has no unfinished business with inside a tick:
    it is not [running] and not [failed], and its attempts are below
    [MAX_ATTEMPTS] and not negative. *)
Definition settled (t : MigrationTask) : Prop :=
  t_status t ∈ [StQueued; StDone; StCleanup] /\
  0 <= default 0 (t_attempts t) < MAX_ATTEMPTS.

(** How many more times a row can be claimed: none when it is not ready,
    and otherwise once per attempt left, at least once. *)
Definition claims_left (t : MigrationTask) : nat :=
  if ready t
  then Z.to_nat (Z.max 1 (MAX_ATTEMPTS - default 0 (t_attempts t)))
  else O.

Definition total_claims_left (ts : list MigrationTask) : nat :=
  sum_list (claims_left <$> ts).

Section Worker.
Context {W : Type} {env : Env W} {sr : SettingsReader}.

(** [n] calls of [process_queue_once] one after the other, as a worker
    makes them: the results of the calls, and the database, metrics and
    world the last one left. *)
Fixpoint ticks (n : nat) (d : db) (m : metrics) (s : W * list event)
  : list bool * db * metrics * (W * list event) :=
  match n with
  | O => ([], d, m, s)
  | S n' =>
      let '(b, d1, m1, s1) := process_queue_once d m s in
      let '(bs, d2, m2, s2) := ticks n' d1 m1 s1 in
      (b :: bs, d2, m2, s2)
  end.
End Worker.

(** ** Feature columns of the tier model ([ml/serve_tiers.py]) *)

(** [_choose_cols], lines 29-39; [n] is
    [getattr(_model, "n_features_in_", None)]. *)
Definition _choose_cols (n : option Z) : list string :=
  if bool_decide (n = Some 6) then
    ["access_1h"; "access_24h"; "size_bytes"; "recency_s"; "hour_of_day";
     "day_of_week"]
  else if bool_decide (n = Some 5) then
    ["access_1h"; "access_24h"; "recency_s"; "hour_of_day"; "day_of_week"]
  else if bool_decide (n = Some 7) then
    ["access_1h"; "access_24h"; "size_bytes"; "recency_s"; "hour_of_day";
     "day_of_week"; "partial_upload"]
  else if bool_decide (n = Some 6) then
    ["access_1h"; "access_24h"; "recency_s"; "hour_of_day"; "day_of_week";
     "partial_upload"]
  else
    ["access_1h"; "access_24h"; "size_bytes"; "recency_s"; "hour_of_day";
     "day_of_week"].

(** ** Further scenario worlds *)

(** The object of [Mem.hello_world] with a chaos latency of 250 ms set. *)
Definition latency_world : Mem.world :=
  Mem.World (Mem.objects Mem.hello_world) false [] (<[chaos.LATENCY_KEY := "250"]> ∅)
            1000000000 [] 0.

(** The same with a latency of ten thousand million seconds, which is
    beyond the clock of the store. *)
Definition overflow_world : Mem.world :=
  Mem.World (Mem.objects Mem.hello_world) false []
            (<[chaos.LATENCY_KEY := "10000000000000"]> ∅) 1000000000 [] 0.

(** The object of [Mem.hello_world]; the two bucket checks, the three
    HEADs and the GET go through, the PUT raises a server error. *)
Definition server_error_world : Mem.world :=
  Mem.with_faults
    (replicate 6 None ++ [Some (ClientError (Some "500") "InternalError")])
    Mem.hello_world.

(** One throttled GET, then the copy goes through. *)
Definition hiccup_world : Mem.world :=
  Mem.with_faults (replicate 5 None ++ [Some (Mem.throttled "SlowDown")])
    Mem.hello_world.

(** Stored settings with the failure list [c,a]. *)
Definition failed_settings : gmap string string := <[chaos.FAIL_KEY := "c,a"]> ∅.

(** ** The tier model server ([ml/serve_tiers.py]) *)

(** What the server uses of the file system and of a loaded model:
    [os.path.exists], [joblib.load], the model's attribute
    [n_features_in_] (a model need not carry it) and column 1 of the
    model's [predict_proba] on one feature row.  [F] stands for the
    floats, of which the server uses [0.0] only. *)
Class Joblib (M F : Type) : Type := {
  path_exists : string -> bool;
  joblib_load : string -> res M;
  n_features_in_ : M -> option Z;
  model_predict_proba : M -> list F -> res F;
  zero : F
}.

Module serve_tiers.
Section serve_tiers.
Context {M F : Type}.

(** The module globals [_model] and [_model_path]; [loads] is the
    history of the paths handed to [joblib.load]. *)
Record server : Type := Server {
  _model : option M;
  _model_path : string;
  loads : list string
}.

Context {jl : Joblib M F}.

(** [set_model_path], lines 6-9. *)
Definition set_model_path (path : string) (st : server) : server :=
  Server None path (loads st).

(** [load], lines 11-15; [if path:] takes [None] and the empty string
    as false.  The path is assigned before [joblib.load] is called. *)
Definition load (path : option string) (st : server) : res bool * server :=
  let p := match path with
           | Some p => if bool_decide (p = "") then _model_path st else p
           | None => _model_path st
           end in
  match joblib_load p with
  | Ok m => (Ok true, Server (Some m) p (loads st ++ [p]))
  | Exc e => (Exc e, Server (_model st) p (loads st ++ [p]))
  end.

Definition alt : string := "/app/models/hotness.joblib".

Definition not_found_message (p : string) : string :=
  "model not found at '" +:+ p +:+ "' or '" +:+ alt +:+ "'".

(** [_model = joblib.load(p)] inside [_lazy_load]. *)
Definition load_into (p : string) (st : server) : res unit * server :=
  match joblib_load p with
  | Ok m => (Ok tt, Server (Some m) (_model_path st) (loads st ++ [p]))
  | Exc e => (Exc e, Server (_model st) (_model_path st) (loads st ++ [p]))
  end.

(** [_lazy_load], lines 17-27. *)
Definition _lazy_load (st : server) : res unit * server :=
  match _model st with
  | Some _ => (Ok tt, st)
  | None =>
      if path_exists (_model_path st) then load_into (_model_path st) st
      else if path_exists alt then load_into alt st
      else (Exc (OtherError (not_found_message (_model_path st))), st)
  end.

(** [_choose_cols()] on the global: [getattr(_model, "n_features_in_",
    None)] is [None] for no model and for a model without the
    attribute. *)
Definition choose_cols (st : server) : list string :=
  _choose_cols (_model st ≫= n_features_in_).

(** The row [[feat.get(c, 0.0) for c in cols]]. *)
Definition feature_row (feat : gmap string F) (cols : list string) : list F :=
  (fun c => default zero (feat !! c)) <$> cols.

(** [predict_proba], lines 41-46.  With no model after [_lazy_load]
    the attribute access on [None] would raise. *)
Definition predict_proba (feat : gmap string F) (st : server) : res F * server :=
  match _lazy_load st with
  | (Exc e, st') => (Exc e, st')
  | (Ok _, st') =>
      match _model st' with
      | Some m => (model_predict_proba m (feature_row feat (choose_cols st')), st')
      | None => (Exc (OtherError "'NoneType' object has no attribute 'predict_proba'"), st')
      end
  end.
End serve_tiers.
End serve_tiers.

(** A model store for the scenarios: one file, holding a model of seven
    features that answers the sum of its row; models are their feature
    counts and integers stand for the floats. *)
Definition toy_joblib : Joblib (option Z) Z := {|
  path_exists := fun p => bool_decide (p = "/m/seven.bin");
  joblib_load := fun p =>
    if bool_decide (p = "/m/seven.bin") then Ok (Some 7)
    else Exc (OtherError "no such file");
  n_features_in_ := fun m => m;
  model_predict_proba := fun _ row => Ok (foldr Z.add 0 row);
  zero := 0
|}.

(** The same store after the file has been removed. *)
Definition empty_joblib : Joblib (option Z) Z := {|
  path_exists := fun _ => false;
  joblib_load := fun _ => Exc (OtherError "no such file");
  n_features_in_ := fun m => m;
  model_predict_proba := fun _ row => Ok (foldr Z.add 0 row);
  zero := 0
|}.

(** * Theorems *)

(** ** Stripping quotes *)

Lemma append_cons (c : Ascii.ascii) (a b : string) :
  String c a +:+ b = String c (a +:+ b).
Proof. reflexivity. Qed.

Lemma append_nil (b : string) : "" +:+ b = b.
Proof. reflexivity. Qed.

Lemma lstrip_quote_spec (s : string) :
  (exists n, s = quotes n +:+ lstrip_quote s) /\
  starts_with_quote (lstrip_quote s) = false.
Proof.
  induction s as [|c s [[n IHn] IHs]]; simpl.
  - split; [exists O; reflexivity | reflexivity].
  - destruct (Ascii.eqb c quote_char) eqn:E.
    + apply Ascii.eqb_eq in E. subst c. split; [|exact IHs].
      exists (S n). simpl. rewrite append_cons. f_equal. exact IHn.
    + split; [exists O; reflexivity | simpl; exact E].
Qed.

Lemma rstrip_quote_spec (s : string) :
  (exists m, s = rstrip_quote s +:+ quotes m) /\
  ends_with_quote (rstrip_quote s) = false.
Proof.
  induction s as [|c s [[m IHm] IHs]]; simpl.
  - split; [exists O; reflexivity | reflexivity].
  - destruct (rstrip_quote s) as [|c' r] eqn:R.
    + destruct (Ascii.eqb c quote_char) eqn:E.
      * apply Ascii.eqb_eq in E. subst c. split; [|reflexivity].
        exists (S m). rewrite append_nil. simpl. f_equal. exact IHm.
      * split; [|simpl; exact E].
        exists m. rewrite append_cons, append_nil. f_equal. exact IHm.
    + split; [|exact IHs].
      exists m. rewrite append_cons. f_equal. exact IHm.
Qed.

Lemma rstrip_quote_keeps_start (s : string) :
  starts_with_quote s = false -> starts_with_quote (rstrip_quote s) = false.
Proof.
  destruct s as [|c s]; simpl; [done|].
  intros E. destruct (rstrip_quote s); rewrite ?E; simpl; done.
Qed.

Lemma append_assoc (a b c : string) : (a +:+ b) +:+ c = a +:+ (b +:+ c).
Proof.
  induction a as [|x a IH]; [done|].
  rewrite !append_cons. by rewrite IH.
Qed.

(** [strip_quote] takes a run of quotes off each end and leaves a string
    with no quote at either end. *)
Lemma strip_quote_spec (s : string) :
  (exists n m, s = quotes n +:+ strip_quote s +:+ quotes m) /\
  starts_with_quote (strip_quote s) = false /\
  ends_with_quote (strip_quote s) = false.
Proof.
  unfold strip_quote.
  destruct (lstrip_quote_spec s) as [[n Hn] Hs].
  destruct (rstrip_quote_spec (lstrip_quote s)) as [[m Hm] He].
  split; [|split; [by apply rstrip_quote_keeps_start | exact He]].
  exists n, m. rewrite <- Hm. exact Hn.
Qed.

(** ** Running the monad *)

Section RunLemmas.
Context {W : Type} {env : Env W}.

Lemma call_ok {A} (f : W -> res A * W) (ev : res A -> event) s r w' :
  f (fst s) = (r, w') -> call f ev s = (r, (w', snd s ++ [ev r])).
Proof. intros E. unfold call. by rewrite E. Qed.
End RunLemmas.

(** Unfold the engines down to the collaborators' calls; the retry loop
    stays folded. *)
Ltac unfold_engine :=
  unfold run, _ensure_and_copy_once, _cleanup_once, _head_meta,
    growing_file_check,
    bind, try_except, ret, raise, read, do_now, do_sleep, do_latency_sleep,
    do_uuid4,
    do_ensure, do_head, do_get, do_put, do_delete, call;
  cbn [fst snd].

Ltac unfold_engine_in H :=
  unfold run, _ensure_and_copy_once, _cleanup_once, _head_meta,
    growing_file_check,
    bind, try_except, ret, raise, read, do_now, do_sleep, do_latency_sleep,
    do_uuid4,
    do_ensure, do_head, do_get, do_put, do_delete, call in H;
  cbn [fst snd] in H.

(** Case analysis on the innermost scrutinee of a run. *)
Ltac break_step H :=
  match type of H with
  | context [match ?x with _ => _ end] =>
      lazymatch x with
      | context [match _ with _ => _ end] => fail
      | _ => let E := fresh "E" in destruct x eqn:E; cbn [fst snd] in H
      end
  end.

Ltac break_run H := repeat break_step H.

(** ** Metadata probe *)

Lemma code_in_true (codes : list string) (code : option string) :
  code_in codes code = true <-> exists c, code = Some c /\ c ∈ codes.
Proof.
  unfold code_in. destruct code as [c|].
  - rewrite bool_decide_eq_true. split; [eauto|].
    intros (c' & E & Hc). by simplify_eq.
  - split; [done|]. by intros (c' & E & _).
Qed.

Lemma code_in_false (codes : list string) (code : option string) :
  code_in codes code = false <-> forall c, code = Some c -> c ∉ codes.
Proof.
  unfold code_in. destruct code as [c|].
  - rewrite bool_decide_eq_false. split; [by intros ? ? [= <-]|].
    intros Hc. by apply Hc.
  - split; [by intros _ ? ?|done].
Qed.

Section Probe.
Context {W : Type} {env : Env W} {sr : SettingsReader}.

Lemma head_meta_present ep key s r w' :
  head_object ep key (fst s) = (Ok r, w') ->
  _head_meta ep key s
  = (Ok (Some (meta_of_resp r)), (w', snd s ++ [EvHead ep key (Ok r)])).
Proof. intros E. unfold_engine. by rewrite E. Qed.

Lemma head_meta_absent ep key s code msg w' :
  head_object ep key (fst s) = (Exc (ClientError code msg), w') ->
  code_in not_found_codes code = true ->
  _head_meta ep key s
  = (Ok None, (w', snd s ++ [EvHead ep key (Exc (ClientError code msg))])).
Proof. intros E C. unfold_engine. by rewrite E, C. Qed.

Lemma head_meta_raises ep key s e w' :
  head_object ep key (fst s) = (Exc e, w') ->
  (forall code msg, e = ClientError code msg ->
                    code_in not_found_codes code = false) ->
  _head_meta ep key s = (Exc e, (w', snd s ++ [EvHead ep key (Exc e)])).
Proof.
  intros E C. unfold_engine. rewrite E.
  destruct e as [code msg|msg]; [|done].
  by rewrite (C code msg eq_refl).
Qed.
End Probe.

(** ** The retry loop *)

Section Loop.
Context {W : Type} {env : Env W} {sr : SettingsReader}.

(** The loop only adds GET, PUT and backoff-sleep events to the trace,
    and a non-empty range starts with a GET of the source. *)
Lemma copy_retry_loop_trace src dst key sm rng :
  forall backoff s r s',
    copy_retry_loop src dst key sm rng backoff s = (r, s') ->
    exists post,
      snd s' = snd s ++ post /\
      forallb loop_event post = true /\
      (rng <> [] -> exists g rest, post = EvGet src key g :: rest).
Proof.
  induction rng as [|attempt rng IH]; intros backoff s r s' Hl.
  - simpl in Hl. unfold ret in Hl. simplify_eq.
    exists []. rewrite app_nil_r. done.
  - simpl in Hl. unfold_engine_in Hl.
    break_run Hl; simplify_eq; cbn [fst snd];
      try (eexists; split; [rewrite <- ?app_assoc; reflexivity|];
           split; [reflexivity | intros _; eauto]).
    all: apply IH in Hl as (post & -> & Hp & _); cbn [fst snd];
      eexists; (split; [rewrite <- ?app_assoc; reflexivity|]);
      (split; [simpl; exact Hp | intros _; simpl; eauto]).
Qed.

(** Each element of the range costs at most one GET and one PUT. *)
Lemma copy_retry_loop_bound src dst key sm rng :
  forall backoff s r s' post,
    copy_retry_loop src dst key sm rng backoff s = (r, s') ->
    snd s' = snd s ++ post ->
    (length (List.filter is_get post) <= length rng)%nat /\
    (length (List.filter is_put post) <= length rng)%nat.
Proof.
  induction rng as [|attempt rng IH]; intros backoff s r s' post Hl Htr.
  - simpl in Hl. unfold ret in Hl. simplify_eq.
    rewrite <- (app_nil_r (snd s')) in Htr at 1.
    apply app_inv_head in Htr. by subst post.
  - simpl in Hl. unfold_engine_in Hl.
    break_run Hl; simplify_eq; cbn [fst snd] in *.
    all: try (rewrite <- ?app_assoc in Htr; apply app_inv_head in Htr;
              subst post; simpl; lia).
    all: destruct (copy_retry_loop_trace _ _ _ _ _ _ _ _ _ Hl)
           as (post' & Htr' & _ & _); cbn [fst snd] in Htr';
      specialize (IH _ _ _ _ _ Hl Htr');
      rewrite Htr' in Htr; rewrite <- ?app_assoc in Htr;
      apply app_inv_head in Htr; subst post; simpl in *; lia.
Qed.

(** A range that ends on an attempt number not below [max_retries]
    never runs out: the loop ends in a copy, or in the exception of
    its last GET or PUT. *)
Lemma copy_retry_loop_result src dst key sm rng :
  forall backoff s r s' a,
    last rng = Some a -> max_retries <= a ->
    copy_retry_loop src dst key sm rng backoff s = (r, s') ->
    (exists tok body, r = Ok (Copied (size sm) tok) /\
                      last (snd s') = Some (EvPut dst key body (Ok tt))) \/
    (exists e, r = Exc e /\
               (last (snd s') = Some (EvGet src key (Exc e)) \/
                exists body, last (snd s') = Some (EvPut dst key body (Exc e)))).
Proof.
  induction rng as [|attempt rng IH]; intros backoff s r s' a Hlast Hge Hl;
    [done|].
  simpl in Hl. unfold_engine_in Hl.
  break_run Hl; simplify_eq; cbn [fst snd].
  all: repeat match goal with u : unit |- _ => destruct u end.
  all: try (left; eexists _, _; split; [reflexivity|];
            by rewrite last_snoc).
  all: try (right; eexists; split; [reflexivity|];
            rewrite last_snoc; eauto; fail).
  all: match goal with
       | E : _ && (_ <? _) = true |- _ => apply andb_true_iff in E as [_ Hlt]
       end;
    apply Z.ltb_lt in Hlt;
    (destruct rng as [|b rng]; [simpl in Hlast; simplify_eq; lia|]);
    eapply IH; [exact Hlast | exact Hge | exact Hl].
Qed.

(** Every try of the four is throttled: three backoff sleeps of 1, 2
    and 4 seconds, four GETs, and the fourth try's exception comes out
    of the loop. *)
Lemma copy_retry_loop_all_throttled src dst key sm s r s' post :
  copy_retry_loop src dst key sm range4 1 s = (r, s') ->
  snd s' = snd s ++ post ->
  forallb try_throttled post = true ->
  (exists e, r = Exc e /\ is_throttling e = true) /\
  List.filter is_backoff post = [EvSleep (Sec 1); EvSleep (Sec 2); EvSleep (Sec 4)] /\
  length (List.filter is_get post) = 4%nat.
Proof.
  intros Hl Htr Hth. unfold range4 in Hl. simpl in Hl.
  unfold_engine_in Hl. unfold max_retries in Hl.
  break_run Hl; simplify_eq; cbn [fst snd] in *.
  all: rewrite <- ?app_assoc in Htr; apply app_inv_head in Htr; subst post.
  all: cbn in Hth; unfold is_throttling in Hth.
  all: repeat match goal with
              | E : context [?a <? ?b] |- _ =>
                  let v := eval vm_compute in (a <? b) in
                  change (a <? b) with v in E;
                  rewrite ?andb_true_r, ?andb_false_r in E
              end.
  all: rewrite ?andb_true_iff in Hth; destruct_and?; try congruence.
  all: split; [eexists; split; [reflexivity | done] | by vm_compute].
Qed.
End Loop.

(** ** The copy engine, path by path *)

Section CopyPaths.
Context {W : Type} {env : Env W} {sr : SettingsReader}.

Lemma meta_equal_true sm dm :
  meta_equal sm dm = true <->
  exists a b, sm = Some a /\ dm = Some b /\ etag a = etag b /\ size a = size b.
Proof.
  unfold meta_equal. destruct sm as [a|], dm as [b|];
    try (split; [done | by intros (? & ? & ? & ? & _)]).
  rewrite andb_true_iff, bool_decide_eq_true, Z.eqb_eq.
  split.
  - intros [? ?]. by exists a, b.
  - intros (? & ? & ? & ? & ? & ?). by simplify_eq.
Qed.

(** Turn a finished run into its result, final world and trace. *)
Ltac leaf H :=
  first
    [ apply copy_retry_loop_trace in H as (?post & ?Htr & ?Hpost & ?Hget);
      cbn [fst snd] in *; simplify_eq
    | simplify_eq ].

Lemma copy_once_equal_meta_noop key src dst w r w' tr rs rd rest :
  run (_ensure_and_copy_once key src dst) w = (r, (w', tr)) ->
  List.filter is_head tr
  = EvHead src key (Ok rs) :: EvHead dst key (Ok rd) :: rest ->
  etag (meta_of_resp rs) = etag (meta_of_resp rd) ->
  size (meta_of_resp rs) = size (meta_of_resp rd) ->
  r = Ok Noop /\ rest = [] /\
  List.filter is_put tr = [] /\ List.filter is_get tr = [].
Proof.
  intros Hrun Hheads Het Hsz.
  unfold_engine_in Hrun. break_run Hrun.
  all: leaf Hrun.
  all: cbn in Hheads; simplify_eq.
  all: try done.
  all: try (exfalso;
    match goal with
    | E : meta_equal _ _ = false |- _ =>
        apply not_true_iff_false in E; apply E, meta_equal_true; eauto 10
    end).
Qed.

Lemma loop_events_no_probe (post : list event) :
  forallb loop_event post = true ->
  List.filter is_head post = [] /\ List.filter is_now post = [].
Proof.
  induction post as [|ev post IH]; [done|]. simpl.
  intros [Hev Hp]%andb_true_iff. destruct (IH Hp) as [-> ->].
  by destruct ev.
Qed.

Ltac loop_leaf H :=
  apply copy_retry_loop_trace in H as (?post & ?Htr & ?Hpost & ?Hget);
  cbn [fst snd] in *; simplify_eq;
  match goal with
  | Hp : forallb loop_event ?p = true |- _ =>
      destruct (loop_events_no_probe p Hp) as [?Hnh ?Hnn]
  end.

Ltac size_contra :=
  match goal with
  | E : (?x =? 0) = false, Hs : ?x = 0 |- _ => rewrite Hs in E; discriminate
  end.

(** Rewrite with what the run's tests evaluated to. *)
Ltac use_tests :=
  repeat match goal with
         | E : code_in _ _ = _ |- _ => rewrite E
         | E : meta_equal _ _ = _ |- _ => rewrite E
         end.

(** The encryption gate answers before anything else happens: the
    world and the trace are as they were. *)
Lemma copy_once_blocked key src dst s :
  is_encryption_enforced (fst s) = true ->
  endpoint_is_encrypted dst (fst s) = false ->
  _ensure_and_copy_once key src dst s
  = (Ok (Blocked "destination_not_encrypted"), s).
Proof. intros E1 E2. unfold_engine. by rewrite E1, E2. Qed.

(** A source whose HEAD reports size 0 is never read or written. *)
Lemma copy_once_empty_source key src dst w r w' tr rs rest :
  run (_ensure_and_copy_once key src dst) w = (r, (w', tr)) ->
  List.filter is_head tr = EvHead src key (Ok rs) :: rest ->
  size (meta_of_resp rs) = 0 ->
  (forall sz tok, r <> Ok (Copied sz tok)) /\
  List.filter is_put tr = [] /\ List.filter is_get tr = [] /\
  List.filter is_now tr = [] /\
  (forall rd, rest = [EvHead dst key rd] ->
     match probe_result rd with
     | Ok dm =>
         r = if meta_equal (Some (meta_of_resp rs)) dm
             then Ok Noop else Ok (Skipped "empty_source")
     | Exc e => r = Exc e
     end).
Proof.
  intros Hrun Hheads Hsz.
  unfold_engine_in Hrun. break_run Hrun.
  all: first [loop_leaf Hrun | simplify_eq].
  all: cbn in Hheads; simplify_eq.
  all: try size_contra.
  all: repeat split; try done.
  all: intros rd' [= <-]; cbn [probe_result]; use_tests; done.
Qed.

(** The second HEAD of the source reports a modification less than
    five seconds before the clock reading that follows it. *)
Lemma copy_once_file_growing key src dst w r w' tr h1 h2 r3 now lm :
  run (_ensure_and_copy_once key src dst) w = (r, (w', tr)) ->
  List.filter is_head tr = [h1; h2; EvHead src key (Ok r3)] ->
  List.filter is_now tr = [EvNow now] ->
  LastModified r3 = Some lm ->
  now - lm < 5 * 1000000 ->
  r = Ok (Skipped "file_growing") /\
  List.filter is_put tr = [] /\ List.filter is_get tr = [].
Proof.
  intros Hrun Hheads Hnow Hlm Hlt.
  unfold_engine_in Hrun. break_run Hrun.
  all: first [loop_leaf Hrun | simplify_eq].
  all: cbn in Hheads; try rewrite Hnh in Hheads; simplify_eq.
  all: cbn in Hnow; try rewrite Hnn in Hnow; simplify_eq.
  all: try done.
  all: match goal with
       | E : (_ <? _) = false |- _ => apply Z.ltb_ge in E; lia
       end.
Qed.

(** The second HEAD of the source raises: the run goes on into the
    retry loop from the state the failed HEAD left. *)
Lemma copy_once_probe_error key src dst w r w' tr r1 h2 e :
  run (_ensure_and_copy_once key src dst) w = (r, (w', tr)) ->
  List.filter is_head tr
  = [EvHead src key (Ok r1); h2; EvHead src key (Exc e)] ->
  exists w0 tr0,
    copy_retry_loop src dst key (meta_of_resp r1) range4 1
      (w0, tr0 ++ [EvHead src key (Exc e)]) = (r, (w', tr)) /\
    List.filter is_now tr0 = [].
Proof.
  intros Hrun Hheads.
  unfold_engine_in Hrun. break_run Hrun.
  all: try (simplify_eq; cbn in Hheads; simplify_eq; fail).
  all: pose proof Hrun as Hloop; loop_leaf Hrun.
  all: cbn in Hheads; try rewrite Hnh in Hheads; simplify_eq.
  all: eexists _, _; split; [exact Hloop | reflexivity].
Qed.
End CopyPaths.

(** ** Task store *)

Lemma first_ready_lookup (ts : list MigrationTask) :
  forall i0 i t,
    first_ready i0 ts = Some (i, t) ->
    exists k, i = (i0 + k)%nat /\ ts !! k = Some t /\ ready t = true.
Proof.
  induction ts as [|t0 ts IH]; intros i0 i t Hf; [done|].
  simpl in Hf.
  destruct (ready t0) eqn:Hr.
  - destruct (first_ready (S i0) ts) as [[j b]|] eqn:Hrest.
    + destruct (t_created_at b <? t_created_at t0); simplify_eq.
      * destruct (IH _ _ _ Hrest) as (k & -> & Hk & Hrd).
        exists (S k). split; [lia | done].
      * exists O. split; [lia | done].
    + simplify_eq. exists O. split; [lia | done].
  - destruct (IH _ _ _ Hf) as (k & -> & Hk & Hrd).
    exists (S k). split; [lia | done].
Qed.

Lemma first_ready_0 (ts : list MigrationTask) i t :
  first_ready 0 ts = Some (i, t) -> ts !! i = Some t /\ ready t = true.
Proof.
  intros Hf. destruct (first_ready_lookup _ _ _ _ Hf) as (k & -> & Hk & Hr).
  done.
Qed.

(** No ready row, no claim. *)
Lemma first_ready_none (ts : list MigrationTask) :
  forall i0, first_ready i0 ts = None -> Forall (fun t => ready t = false) ts.
Proof.
  induction ts as [|t0 ts IH]; intros i0 Hf; [constructor|].
  simpl in Hf. destruct (ready t0) eqn:Hr.
  - destruct (first_ready (S i0) ts) as [[j b]|]; [|done].
    by destruct (t_created_at b <? t_created_at t0).
  - constructor; [done | by eapply IH].
Qed.

Lemma ready_status (t : MigrationTask) :
  ready t = true ->
  t_status t = StQueued \/ t_status t = StFailed \/ t_status t = StCleanup.
Proof.
  unfold ready. rewrite bool_decide_eq_true.
  rewrite !elem_of_cons, elem_of_nil. tauto.
Qed.

Lemma settle_failed requeue i t ts :
  t_status t = StFailed ->
  settle requeue i t ts
  = if MAX_ATTEMPTS <=? default 0 (t_attempts t) + 1
    then delete i ts
    else <[i := set_status requeue (set_attempts (default 0 (t_attempts t) + 1) t)]> ts.
Proof. intros Hs. unfold settle. by rewrite bool_decide_eq_true_2. Qed.

Lemma settle_other requeue i t ts :
  t_status t <> StFailed -> settle requeue i t ts = <[i := t]> ts.
Proof. intros Hs. unfold settle. by rewrite bool_decide_eq_false_2. Qed.

(** A row that is deleted, or rewritten under its own id, leaves no other
    row with that id behind. *)
Lemma delete_row_gone (ts : list MigrationTask) i t t' :
  NoDup (t_id <$> ts) -> ts !! i = Some t ->
  t' ∈ delete i ts -> t_id t' <> t_id t.
Proof.
  intros Hnd Hi [j Hj]%list_elem_of_lookup Hid.
  assert (forall a b x y, ts !! a = Some x -> ts !! b = Some y ->
                          t_id x = t_id y -> a = b) as Hinj.
  { intros a b x y Ha Hb Hxy.
    eapply (NoDup_lookup _ a b (t_id x)); [exact Hnd| |];
      rewrite list_lookup_fmap; [by rewrite Ha | by rewrite Hb, Hxy]. }
  destruct (decide (j < i)%nat) as [Hlt|Hge].
  - rewrite list_lookup_delete_lt in Hj by done.
    specialize (Hinj _ _ _ _ Hj Hi Hid). lia.
  - rewrite list_lookup_delete_ge in Hj by lia.
    specialize (Hinj _ _ _ _ Hj Hi Hid). lia.
Qed.

Lemma insert_row_only (ts : list MigrationTask) i t t2 t' :
  NoDup (t_id <$> ts) -> ts !! i = Some t ->
  t' ∈ <[i := t2]> ts -> t_id t' = t_id t -> t' = t2.
Proof.
  intros Hnd Hi [j Hj]%list_elem_of_lookup Hid.
  destruct (decide (i = j)) as [->|Hne].
  - rewrite list_lookup_insert_eq in Hj by (by eapply lookup_lt_Some).
    by simplify_eq.
  - rewrite list_lookup_insert_ne in Hj by done.
    exfalso. apply Hne. symmetry.
    eapply (NoDup_lookup _ j i (t_id t')); [exact Hnd| |];
      rewrite list_lookup_fmap; [by rewrite Hj | by rewrite Hi, Hid].
Qed.

(** ** Queue observer *)

Lemma foldl_insert_lookup (l : list (string * Z)) :
  forall (g : gmap string Z) (k : string),
    NoDup l.*1 ->
    foldl (fun g kv => <[kv.1 := kv.2]> g) g l !! k
    = match (list_to_map l : gmap string Z) !! k with
      | Some v => Some v
      | None => g !! k
      end.
Proof.
  induction l as [|[k0 v0] l IH]; intros g k Hnd; simpl.
  - by rewrite lookup_empty.
  - apply NoDup_cons in Hnd as [Hk0 Hnd]. rewrite IH by done.
    destruct (decide (k0 = k)) as [->|Hne].
    + rewrite !lookup_insert_eq.
      by rewrite (not_elem_of_list_to_map_1 _ _ Hk0).
    + by rewrite !lookup_insert_ne.
Qed.

Lemma count_status_nonneg s ts : 0 <= count_status s ts.
Proof. unfold count_status. lia. Qed.

(** The zero-filled counts hold, for each of the five statuses, the
    number of rows in that status. *)
Lemma counts_lookup (ts : list MigrationTask) (s : status) :
  foldl (fun c row => <[row.1 := row.2]> c)
        (list_to_map ((fun s => (status_label s, 0)) <$> _QUEUE_STATUSES)
           : gmap string Z)
        (group_by_status ts) !! status_label s
  = Some (count_status s ts).
Proof.
  unfold group_by_status, _QUEUE_STATUSES. cbn [omap list_omap fmap list_fmap].
  pose proof (count_status_nonneg StQueued ts).
  pose proof (count_status_nonneg StRunning ts).
  pose proof (count_status_nonneg StDone ts).
  pose proof (count_status_nonneg StFailed ts).
  pose proof (count_status_nonneg StCleanup ts).
  destruct (0 <? count_status StQueued ts) eqn:E1;
    destruct (0 <? count_status StRunning ts) eqn:E2;
    destruct (0 <? count_status StDone ts) eqn:E3;
    destruct (0 <? count_status StFailed ts) eqn:E4;
    destruct (0 <? count_status StCleanup ts) eqn:E5.
  all: rewrite ?Z.ltb_ge in *.
  all: destruct s; cbn [foldl list_to_map foldr status_label fst snd uncurry];
    simplify_map_eq; f_equal; lia.
Qed.

Lemma update_queue_metrics_spec (ts : list MigrationTask) (m : metrics) :
  let m' := _update_queue_metrics ts m in
  let n := count_status StQueued ts in
  (forall s, migration_queue_gauge m' !! status_label s
             = Some (count_status s ts)) /\
  alerts m' = alerts m ++ (if bool_decide (20 < n) then [backlog_alert n] else []) /\
  migration_jobs_total m' = migration_jobs_total m.
Proof.
  cbn zeta. unfold _update_queue_metrics. cbn [migration_queue_gauge alerts
    migration_jobs_total].
  split; [|split; [|done]].
  - intros s. rewrite foldl_insert_lookup by apply NoDup_fst_map_to_list.
    rewrite list_to_map_to_list. by rewrite counts_lookup.
  - change "queued" with (status_label StQueued). rewrite counts_lookup.
    cbn [default from_option id].
    case_bool_decide as Hn;
      destruct (Z.ltb_spec 20 (count_status StQueued ts)); try lia;
      [done | by rewrite app_nil_r].
Qed.

(** ** One tick of the queue processor *)

Section Tick.
Context {W : Type} {env : Env W} {sr : SettingsReader}.

(** The copy phase rewrites the status and the error of the claimed
    row and nothing else of it, and it leaves gauges and alerts alone. *)
Lemma copy_phase_row t fm m s t1 fm1 m1 s1 :
  copy_phase t fm m s = (t1, fm1, m1, s1) ->
  (exists st err, t1 = set_error err (set_status st t) /\
                  (st = StDone \/ st = StFailed)) /\
  alerts m1 = alerts m /\
  migration_queue_gauge m1 = migration_queue_gauge m.
Proof.
  unfold copy_phase. intros Hc.
  destruct (_ensure_and_copy_once _ _ _ s) as [[r|e] s2].
  - destruct r; simplify_eq; (split; [eauto 6 | done]).
  - simplify_eq. split; [eauto 6 | done].
Qed.

Lemma cleanup_phase_row t m s t1 m1 s1 :
  cleanup_phase t m s = (t1, m1, s1) ->
  (exists st err, t1 = set_error err (set_status st t) /\
                  (st = StDone \/ st = StFailed)) /\
  alerts m1 = alerts m /\
  migration_queue_gauge m1 = migration_queue_gauge m.
Proof.
  unfold cleanup_phase. intros Hc.
  destruct (_cleanup_once _ _ s) as [[r|e] s2]; simplify_eq;
    (split; [eauto 6 | done]).
Qed.

Lemma process_idle d m s :
  first_ready 0 (tasks d) = None ->
  process_queue_once d m s
  = (false, d, _update_queue_metrics (tasks d) m, s).
Proof. intros Hf. unfold process_queue_once. by rewrite Hf. Qed.

Lemma process_copy_tick d m s i t t1 fm1 m1 s1 :
  first_ready 0 (tasks d) = Some (i, t) ->
  t_status t = StQueued \/ t_status t = StFailed ->
  copy_phase (set_status StRunning t) (file_meta d) m s = (t1, fm1, m1, s1) ->
  process_queue_once d m s
  = (true, Db (settle StQueued i t1 (tasks d)) fm1,
     _update_queue_metrics (settle StQueued i t1 (tasks d)) m1, s1).
Proof.
  intros Hf Hst Hc. unfold process_queue_once. rewrite Hf.
  rewrite bool_decide_eq_true_2, Hc; [done|].
  rewrite !elem_of_cons. tauto.
Qed.

Lemma process_cleanup_tick d m s i t t1 m1 s1 :
  first_ready 0 (tasks d) = Some (i, t) ->
  t_status t = StCleanup ->
  cleanup_phase t m s = (t1, m1, s1) ->
  process_queue_once d m s
  = (true, Db (settle StCleanup i t1 (tasks d)) (file_meta d),
     _update_queue_metrics (settle StCleanup i t1 (tasks d)) m1, s1).
Proof.
  intros Hf Hst Hc. unfold process_queue_once. rewrite Hf.
  rewrite bool_decide_eq_false_2.
  - by rewrite bool_decide_eq_true_2, Hc.
  - rewrite Hst, !elem_of_cons, elem_of_nil. intros [?|[?|[]]]; done.
Qed.

(** What is left of a row that went through the failed path. *)
Lemma settle_failed_rows requeue ts i t t1 t' :
  NoDup (t_id <$> ts) -> ts !! i = Some t ->
  t_id t1 = t_id t -> t_attempts t1 = t_attempts t ->
  t_status t1 = StFailed ->
  t' ∈ settle requeue i t1 ts -> t_id t' = t_id t ->
  t' = set_status requeue (set_attempts (default 0 (t_attempts t) + 1) t1) /\
  default 0 (t_attempts t) + 1 < MAX_ATTEMPTS.
Proof.
  intros Hnd Hi Hid Hat Hst Hin Hid'.
  rewrite settle_failed in Hin by done. rewrite Hat in Hin.
  destruct (Z.leb_spec MAX_ATTEMPTS (default 0 (t_attempts t) + 1)).
  - by destruct (delete_row_gone _ _ _ _ Hnd Hi Hin).
  - split; [|done]. by eapply insert_row_only.
Qed.
End Tick.

(** ** Policy gate *)

Lemma sorted_elem_of (X : gset string) (x : string) : x ∈ sorted X <-> x ∈ X.
Proof. unfold sorted. by rewrite merge_sort_Permutation, elem_of_elements. Qed.

Lemma sorted_NoDup (X : gset string) : NoDup (sorted X).
Proof. unfold sorted. rewrite merge_sort_Permutation. apply NoDup_elements. Qed.

Lemma sorted_StronglySorted (X : gset string) :
  StronglySorted String.le (sorted X).
Proof. unfold sorted. apply StronglySorted_merge_sort; apply _. Qed.

Section ChaosFacts.
Context {sr : SettingsReader}.

Lemma fail_endpoint_spec (name : string) (st : gmap string string) :
  let l := (chaos.fail_endpoint name st).1 in
  let st' := (chaos.fail_endpoint name st).2 in
  st' !! chaos.FAIL_KEY = Some (join "," l) /\
  StronglySorted String.le l /\ NoDup l /\
  (forall x, x ∈ l <-> x = name \/ x ∈ chaos.get_failed_endpoints st).
Proof.
  cbn zeta. unfold chaos.fail_endpoint, set_setting. cbn [fst snd].
  split; [by rewrite lookup_insert_eq|].
  split; [apply sorted_StronglySorted|].
  split; [apply sorted_NoDup|].
  intros x. rewrite sorted_elem_of, elem_of_union, elem_of_singleton,
    elem_of_list_to_set. tauto.
Qed.

Lemma recover_endpoint_spec (name : string) (st : gmap string string) :
  let l := (chaos.recover_endpoint name st).1 in
  let st' := (chaos.recover_endpoint name st).2 in
  st' !! chaos.FAIL_KEY = Some (join "," l) /\
  StronglySorted String.le l /\ NoDup l /\
  (name ∉ l) /\
  (forall x, x ∈ l <-> x <> name /\ x ∈ chaos.get_failed_endpoints st).
Proof.
  cbn zeta. unfold chaos.recover_endpoint, set_setting. cbn [fst snd].
  split; [by rewrite lookup_insert_eq|].
  split; [apply sorted_StronglySorted|].
  split; [apply sorted_NoDup|].
  assert (forall x,
    x ∈ sorted (if bool_decide (name ∈ (list_to_set (chaos.get_failed_endpoints st) : gset string))
                then list_to_set (chaos.get_failed_endpoints st) ∖ {[name]}
                else list_to_set (chaos.get_failed_endpoints st))
    <-> x <> name /\ x ∈ chaos.get_failed_endpoints st) as Hl.
  { intros x. rewrite sorted_elem_of. case_bool_decide as Hin.
    - rewrite elem_of_difference, elem_of_singleton, elem_of_list_to_set. tauto.
    - rewrite elem_of_list_to_set in *. split; [|tauto].
      intros Hx. split; [|done]. by intros ->. }
  split; [|exact Hl].
  intros Hin%Hl. by destruct Hin.
Qed.

Lemma get_latency_falsy (st : gmap string string) :
  get_int st chaos.LATENCY_KEY = None \/ get_int st chaos.LATENCY_KEY = Some 0 ->
  chaos.get_latency st = 0.
Proof. unfold chaos.get_latency. by intros [-> | ->]. Qed.

(** Otherwise the stored integer comes back as it is. *)
Lemma get_latency_value (st : gmap string string) (n : Z) :
  get_int st chaos.LATENCY_KEY = Some n -> chaos.get_latency st = n.
Proof.
  unfold chaos.get_latency. intros ->.
  destruct (Z.eqb_spec n 0); by subst.
Qed.
End ChaosFacts.

(** * The properties of the specification *)

(** ** C1: throttled tries *)

Section Throttling.
Context {W : Type} {env : Env W} {sr : SettingsReader}.

(** No run of the copy engine returns [{failed, ...}]: the [return] of
    line 119 is never reached. *)
Lemma copy_once_never_failed key src dst w r w' tr err :
  run (_ensure_and_copy_once key src dst) w = (r, (w', tr)) ->
  r <> Ok (Failed err).
Proof.
  intros Hrun. unfold_engine_in Hrun. break_run Hrun.
  all: try (simplify_eq; done).
  all: assert (last range4 = Some 3) as Hlast by reflexivity.
  all: assert (max_retries <= 3) as Hge by (unfold max_retries; lia).
  all: destruct (copy_retry_loop_result _ _ _ _ _ _ _ _ _ _ Hlast Hge Hrun)
         as [(tok & body & -> & _) | (e' & -> & _)]; done.
Qed.

(** A run that gets as far as a GET and has every try throttled makes
    four GETs, sleeps 1, 2 and 4 seconds, and raises a throttling
    error. *)
Lemma copy_once_all_throttled key src dst w r w' tr :
  run (_ensure_and_copy_once key src dst) w = (r, (w', tr)) ->
  List.filter is_get tr <> [] ->
  forallb try_throttled tr = true ->
  (exists e, r = Exc e /\ is_throttling e = true) /\
  List.filter is_backoff tr = [EvSleep (Sec 1); EvSleep (Sec 2); EvSleep (Sec 4)] /\
  length (List.filter is_get tr) = 4%nat.
Proof.
  intros Hrun Hget Hth. unfold_engine_in Hrun. break_run Hrun.
  all: try (simplify_eq; cbn in Hget; done).
  all: destruct (copy_retry_loop_trace _ _ _ _ _ _ _ _ _ Hrun)
         as (post & Htr & _ & _); cbn [fst snd] in Htr; subst tr.
  all: rewrite forallb_app in Hth; apply andb_true_iff in Hth as [_ Hth].
  all: destruct (copy_retry_loop_all_throttled _ _ _ _ _ _ _ _ Hrun eq_refl Hth)
         as (He & Hs & Hg).
  all: split; [exact He|]; rewrite !List.filter_app; cbn; by rewrite Hs, Hg.
Qed.
End Throttling.

(** C1, the code at a failing input.  The source holds a five-byte
    object, the destination is empty, and each of the four GETs raises
    [SlowDown].  The engine makes four tries and sleeps 1, 2 and 4
    seconds between them, as specified; then the fourth [SlowDown] comes
    out of [_ensure_and_copy_once] as an exception, where the
    specification has the outcome [{failed, max_retries_exceeded}]. *)
Theorem copy_once_throttled_raises :
  let '(r, (_, tr)) :=
    run (_ensure_and_copy_once "a/b" "s1" "s2") Mem.throttled_world in
  forallb try_throttled tr = true /\
  length (List.filter is_get tr) = 4%nat /\
  List.filter is_backoff tr = [EvSleep (Sec 1); EvSleep (Sec 2); EvSleep (Sec 4)] /\
  r = Exc (Mem.throttled "SlowDown") /\
  r <> Ok (Failed "max_retries_exceeded").
Proof. vm_compute. repeat split; done. Qed.

(** ** C2: idempotence *)

Lemma at_most_one {A : Type} (P : A -> bool) (l : list A) :
  (forall pre x post, l = pre ++ x :: post -> P x = true ->
                      Forall (fun y => P y = false) post) ->
  (length (List.filter P l) <= 1)%nat.
Proof.
  induction l as [|a l IH]; intros Hafter; [simpl; lia|].
  simpl. destruct (P a) eqn:Ha.
  - specialize (Hafter [] a l eq_refl Ha).
    assert (List.filter P l = []) as ->; [|simpl; lia].
    clear -Hafter. induction Hafter as [|y l Hy _ IH]; [done|].
    simpl. by rewrite Hy.
  - apply IH. intros pre x post -> Hx.
    by apply (Hafter (a :: pre) x post).
Qed.

Section Idempotence.
Context {W : Type} {env : Env W} {sr : SettingsReader}.

Lemma copy_runs_elem n key src dst :
  forall w x,
    x ∈ copy_runs n key src dst w ->
    exists w0 w1,
      run (_ensure_and_copy_once key src dst) w0 = (x.1, (w1, x.2)).
Proof.
  induction n as [|n IH]; intros w x Hx; simpl in Hx.
  - by apply elem_of_nil in Hx.
  - destruct (run (_ensure_and_copy_once key src dst) w) as [r [w' tr]] eqn:Hrun.
    apply elem_of_cons in Hx as [->|Hx]; [by exists w, w'|].
    by eapply IH.
Qed.

Lemma heads_agree_noop key src dst w r w' tr :
  run (_ensure_and_copy_once key src dst) w = (r, (w', tr)) ->
  heads_agree src dst key tr = true ->
  r = Ok Noop /\ List.filter is_put tr = [] /\ List.filter is_get tr = [].
Proof.
  intros Hrun Hag. unfold heads_agree in Hag.
  destruct (List.filter is_head tr) as [|[| e1 k1 [rs|] | | | | | ] [|[| e2 k2 [rd|] | | | | | ] rest]]
    eqn:Hheads; try done.
  apply andb_true_iff in Hag as [[Hn He]%andb_true_iff Hs].
  apply bool_decide_eq_true in Hn as (-> & -> & -> & ->).
  apply bool_decide_eq_true in He. apply Z.eqb_eq in Hs.
  destruct (copy_once_equal_meta_noop _ _ _ _ _ _ _ _ _ _ Hrun Hheads He Hs)
    as (? & _ & ? & ?).
  done.
Qed.

(** Over calls in a row: when every call after a [copied] one sees
    agreeing HEADs, there is at most one [copied] and what follows it is
    [noop] without a PUT. *)
Lemma copy_runs_noop_after_copied n key src dst w :
  let runs := copy_runs n key src dst w in
  (forall pre x post,
     runs = pre ++ x :: post -> is_copied x.1 = true ->
     Forall (fun y => heads_agree src dst key y.2 = true) post) ->
  (length (List.filter (fun x => is_copied x.1) runs) <= 1)%nat /\
  (forall pre x post,
     runs = pre ++ x :: post -> is_copied x.1 = true ->
     Forall (fun y => y.1 = Ok Noop /\ List.filter is_put y.2 = []) post).
Proof.
  intros runs Hag.
  assert (forall pre x post,
            runs = pre ++ x :: post -> is_copied x.1 = true ->
            Forall (fun y => y.1 = Ok Noop /\ List.filter is_put y.2 = []) post)
    as Hnoop.
  { intros pre x post Hruns Hx.
    specialize (Hag pre x post Hruns Hx).
    rewrite Forall_forall in Hag. apply Forall_forall. intros y Hy.
    assert (y ∈ copy_runs n key src dst w) as Hin.
    { fold runs. rewrite Hruns. rewrite elem_of_app, elem_of_cons. tauto. }
    destruct (copy_runs_elem _ _ _ _ _ _ Hin) as (w0 & w1 & Hrun).
    destruct (heads_agree_noop _ _ _ _ _ _ _ Hrun (Hag y Hy)) as (? & ? & _).
    done. }
  split; [|exact Hnoop].
  apply at_most_one. intros pre x post Hruns Hx.
  eapply Forall_impl; [exact (Hnoop pre x post Hruns Hx)|].
  intros y [-> _]. reflexivity.
Qed.
End Idempotence.

(** ** The in-memory store without faults *)

Lemma meta_equal_refl (m : object_meta) : meta_equal (Some m) (Some m) = true.
Proof.
  unfold meta_equal. rewrite bool_decide_eq_true_2 by done. by rewrite Z.eqb_refl.
Qed.

Section MemFaultFree.
Import Mem.

Lemma mem_ensure_ff ep w :
  faults w = [] -> ensure_bucket ep w = (Ok tt, w).
Proof.
  intros Hf. cbn. unfold mem_ensure, faulty, next_fault. by rewrite Hf.
Qed.

Lemma mem_head_ff ep key w :
  faults w = [] ->
  head_object ep key w
  = (match objects w !! (ep, key) with
     | Some o => Ok (head_of o)
     | None => Exc not_found
     end, w).
Proof.
  intros Hf. cbn. unfold mem_head, faulty, next_fault. rewrite Hf.
  by destruct (objects w !! (ep, key)).
Qed.

Lemma mem_get_ff ep key w :
  faults w = [] ->
  get_object ep key w
  = (match objects w !! (ep, key) with
     | Some o => Ok (o_body o)
     | None => Exc no_such_key
     end, w).
Proof.
  intros Hf. cbn. unfold mem_get, faulty, next_fault. rewrite Hf.
  by destruct (objects w !! (ep, key)).
Qed.

Lemma mem_put_ff ep key body w :
  faults w = [] ->
  put_object ep key body w
  = (Ok tt, with_objects (<[(ep, key) := Stored body (digest body) (clock w)]> (objects w)) w).
Proof.
  intros Hf. cbn. unfold mem_put, faulty, next_fault. by rewrite Hf.
Qed.

(** Without faults the first try of the loop copies. *)
Lemma mem_loop_ff src dst key sm attempt rng backoff w tr o :
  faults w = [] ->
  objects w !! (src, key) = Some o ->
  exists w',
    copy_retry_loop src dst key sm (attempt :: rng) backoff (w, tr)
    = (Ok (Copied (size sm) ("token-" +:+ pretty (minted w))),
       (w', (tr ++ [EvGet src key (Ok (o_body o))])
            ++ [EvPut dst key (o_body o) (Ok tt)])) /\
    faults w' = [] /\ enforced w' = enforced w /\ encrypted w' = encrypted w /\
    setting_store w' = setting_store w /\
    objects w'
    = <[(dst, key) := Stored (o_body o) (digest (o_body o)) (clock w)]> (objects w).
Proof.
  intros Hf Ho. eexists. split.
  - simpl. unfold_engine.
    rewrite (mem_get_ff _ _ _ Hf), Ho.
    rewrite (mem_put_ff _ _ _ _ Hf). cbn [fst snd].
    reflexivity.
  - cbn. by rewrite Hf.
Qed.

Ltac mem_run H :=
  unfold_engine_in H;
  repeat first
    [ rewrite mem_ensure_ff in H by reflexivity
    | rewrite mem_head_ff in H by reflexivity
    | break_step H ];
  cbn [fst snd objects enforced encrypted faults clock setting_store minted
       settings time_sleep mem_env mem_sleep is_encryption_enforced
       endpoint_is_encrypted datetime_now] in *.

Lemma mem_copy_once_spec key src dst objs enf enc st clk mint r w' tr :
  run (_ensure_and_copy_once key src dst) (World objs enf enc st clk [] mint)
  = (r, (w', tr)) ->
  faults w' = [] /\ enforced w' = enf /\ encrypted w' = enc /\
  setting_store w' = st /\
  if is_copied r
  then enf && negb (bool_decide (dst ∈ enc)) = false /\
       (0 < chaos.get_latency st -> sleep_overflow (chaos.get_latency st) = None) /\
       (src, key) <> (dst, key) /\
       exists o clk',
         objs !! (src, key) = Some o /\
         objects w' = <[(dst, key) := Stored (o_body o) (digest (o_body o)) clk']> objs
  else objects w' = objs.
Proof.
  intros Hrun. mem_run Hrun.
  all: try (simplify_eq; done).
  all: match type of Hrun with
       | copy_retry_loop ?s ?d ?k ?sm _ _ (?w, ?tr) = _ =>
           match goal with
           | Ho : _ !! (s, k) = Some ?o |- _ =>
               destruct (mem_loop_ff s d k sm 0 [1; 2; 3] 1 w tr o eq_refl Ho)
                 as (w1 & Hl & Hf1 & He1 & Hc1 & Hs1 & Ho1)
           end
       end.
  all: unfold range4 in Hrun; rewrite Hl in Hrun; simplify_eq.
  all: cbn [is_copied]; cbn in He1, Hc1, Hs1, Ho1.
  all: repeat split; try done.
  all: try (intros Hpos;
            match goal with
            | E : (0 <? _) = false |- _ => apply Z.ltb_ge in E; lia
            end).
  all: try (intros Heq; rewrite Heq in *; simplify_eq;
            match goal with
            | E : meta_equal _ _ = false |- _ => by rewrite meta_equal_refl in E
            end).
  all: eauto.
Qed.

Lemma mem_meta_equal b e lm lm' :
  meta_equal (Some (meta_of_resp (head_of (Stored b e lm))))
             (Some (meta_of_resp (head_of (Stored b e lm')))) = true.
Proof.
  unfold meta_equal. apply andb_true_iff. split.
  - apply bool_decide_eq_true. reflexivity.
  - apply Z.eqb_eq. reflexivity.
Qed.

(** On a synced world the call is a no-op that sees agreeing HEADs and
    leaves the world synced. *)
Lemma mem_copy_once_synced key src dst w r w' tr :
  synced src dst key w ->
  run (_ensure_and_copy_once key src dst) w = (r, (w', tr)) ->
  r = Ok Noop /\ heads_agree src dst key tr = true /\ synced src dst key w'.
Proof.
  intros (Hf & Hgate & Hlat & b & lm & lm' & Hs & Hd) Hrun.
  destruct w as [objs enf enc st clk fl mint].
  unfold latency_ok in Hlat. cbn in Hf, Hgate, Hlat, Hs, Hd. subst fl.
  pose proof (mem_meta_equal b (digest b) lm lm') as Hm.
  unfold_engine_in Hrun.
  cbn [is_encryption_enforced endpoint_is_encrypted mem_env enforced encrypted]
    in Hrun.
  rewrite Hgate in Hrun.
  repeat first
    [ rewrite mem_ensure_ff in Hrun by reflexivity
    | rewrite mem_head_ff in Hrun by reflexivity;
      cbn [time_sleep mem_env fst snd] in Hrun; unfold mem_sleep in Hrun;
      cbn [objects fst snd] in Hrun;
      rewrite ?Hs, ?Hd in Hrun; cbn [fst snd] in Hrun
    | rewrite Hm in Hrun
    | break_step Hrun ].
  all: try (exfalso;
            cbn [fst settings latency_sleep_error mem_env setting_store] in *;
            match goal with
            | E : (0 <? _) = true, E0 : sleep_overflow _ = Some _ |- _ =>
                apply Z.ltb_lt in E; rewrite (Hlat E) in E0; discriminate E0
            end).
  all: injection Hrun as <- <- <-.
  all: split; [reflexivity|]; split.
  all: lazymatch goal with
       | |- synced _ _ _ _ =>
           unfold synced; cbn [time_sleep mem_env]; unfold mem_sleep;
           cbn [faults enforced encrypted objects fst snd];
           split; [reflexivity|]; split; [exact Hgate|];
           split; [unfold latency_ok; cbn [setting_store]; exact Hlat|];
           exists b, lm, lm'; split; assumption
       | |- heads_agree _ _ _ _ = true =>
           unfold heads_agree; cbn [List.filter is_head app];
           rewrite bool_decide_eq_true_2 by (repeat split; reflexivity);
           cbn [andb]; unfold meta_equal in Hm; exact Hm
       end.
Qed.

Lemma mem_copy_runs_synced n key src dst :
  forall w,
    synced src dst key w ->
    Forall (fun y => heads_agree src dst key y.2 = true)
           (copy_runs n key src dst w).
Proof.
  induction n as [|n IH]; intros w Hw; simpl; [constructor|].
  destruct (run (_ensure_and_copy_once key src dst) w) as [r [w' tr]] eqn:Hrun.
  destruct (mem_copy_once_synced _ _ _ _ _ _ _ Hw Hrun) as (_ & Hag & Hw').
  constructor; [exact Hag | by apply IH].
Qed.

(** Without faults, and with a source whose ETag is the digest a PUT
    gives, every call after a [copied] one sees agreeing HEADs. *)
Lemma mem_copy_runs_agree n key src dst :
  forall w,
    faults w = [] ->
    (forall o, objects w !! (src, key) = Some o -> o_etag o = digest (o_body o)) ->
    forall pre x post,
      copy_runs n key src dst w = pre ++ x :: post ->
      is_copied x.1 = true ->
      Forall (fun y => heads_agree src dst key y.2 = true) post.
Proof.
  induction n as [|n IH]; intros w Hf Hwf pre x post Hruns Hx; simpl in Hruns.
  - by destruct pre.
  - destruct (run (_ensure_and_copy_once key src dst) w) as [r [w' tr]] eqn:Hrun.
    destruct w as [objs enf enc st clk fl mint]. cbn in Hf, Hwf. subst fl.
    destruct (mem_copy_once_spec _ _ _ _ _ _ _ _ _ _ _ _ Hrun)
      as (Hf' & Henf & Henc & Hst & Hobj).
    destruct pre as [|p pre]; cbn in Hruns; injection Hruns as Hp Hruns; subst.
    + cbn in Hx. rewrite Hx in Hobj.
      destruct Hobj as (Hgate & Hlat & Hne & o & clk' & Ho & Hobjs).
      apply mem_copy_runs_synced.
      split; [done|]. split; [exact Hgate|].
      split; [exact Hlat|].
      destruct o as [b e lm]. pose proof (Hwf _ Ho) as He. cbn in He. subst e.
      exists b, lm, clk'. rewrite Hobjs. cbn [o_body].
      split; [by rewrite lookup_insert_ne | by rewrite lookup_insert_eq].
    + eapply (IH w'); [done| |exact Hruns|done].
      intros o Ho. apply Hwf.
      destruct (is_copied r).
      * destruct Hobj as (_ & _ & Hne & o' & clk' & _ & Hobjs).
        rewrite Hobjs in Ho. by rewrite lookup_insert_ne in Ho.
      * by rewrite <- Hobj.
Qed.
End MemFaultFree.

(** On the in-memory store, whose PUT stamps a content-derived ETag: when
    no fault is scheduled and the source object carries that ETag too,
    [n] calls in a row give at most one [copied], and every call after it
    is a [noop] without a PUT. *)
Lemma mem_copy_runs_idempotent n key src dst (w : Mem.world) :
  Mem.faults w = [] ->
  (forall o, Mem.objects w !! (src, key) = Some o ->
             Mem.o_etag o = Mem.digest (Mem.o_body o)) ->
  let runs := copy_runs n key src dst w in
  (length (List.filter (fun x => is_copied x.1) runs) <= 1)%nat /\
  (forall pre x post,
     runs = pre ++ x :: post -> is_copied x.1 = true ->
     Forall (fun y => y.1 = Ok Noop /\ List.filter is_put y.2 = []) post).
Proof.
  intros Hf Hwf. apply copy_runs_noop_after_copied.
  by apply mem_copy_runs_agree.
Qed.

(** C2, as the code has it.  When both HEADs of a call answer with
    metadata of the same etag and size, the call returns [{noop}] and makes
    no PUT and no GET.  And on the in-memory store, whose PUT stamps a
    content-derived ETag: when no fault is scheduled and the source
    object carries that ETag too, [n] calls in a row give at most one
    [copied], and every call after it returns [{noop}] without a PUT; it
    is the PUT of the copying call that makes the HEADs of the later
    calls agree. *)
Theorem copy_once_idempotent {W : Type} {env : Env W} {sr : SettingsReader}
    (key src dst : string) :
  (forall w r w' tr rs rd rest,
     run (_ensure_and_copy_once key src dst) w = (r, (w', tr)) ->
     List.filter is_head tr
     = EvHead src key (Ok rs) :: EvHead dst key (Ok rd) :: rest ->
     etag (meta_of_resp rs) = etag (meta_of_resp rd) ->
     size (meta_of_resp rs) = size (meta_of_resp rd) ->
     r = Ok Noop /\ List.filter is_put tr = []) /\
  (forall n (w : Mem.world),
     Mem.faults w = [] ->
     (forall o, Mem.objects w !! (src, key) = Some o ->
                Mem.o_etag o = Mem.digest (Mem.o_body o)) ->
     let runs := copy_runs (env:=Mem.mem_env) (sr:=Mem.mem_settings)
                   n key src dst w in
     (length (List.filter (fun x => is_copied x.1) runs) <= 1)%nat /\
     (forall pre x post,
        runs = pre ++ x :: post -> is_copied x.1 = true ->
        Forall (fun y => y.1 = Ok Noop /\ List.filter is_put y.2 = []) post)).
Proof.
  split.
  - intros w r w' tr rs rd rest Hrun Hheads He Hs.
    destruct (copy_once_equal_meta_noop _ _ _ _ _ _ _ _ _ _ Hrun Hheads He Hs)
      as (? & _ & ? & _).
    done.
  - intros n w Hf Hwf. by apply mem_copy_runs_idempotent.
Qed.

(** Three calls in a row on the in-memory store, whose PUT stamps the
    content-derived ETag the source has too: copied, then twice noop. *)
Lemma copy_once_idempotent_witness :
  let runs := copy_runs 3 "a/b" "s1" "s2" Mem.hello_world in
  runs.*1 = [Ok (Copied 5 "token-0"); Ok Noop; Ok Noop] /\
  (length (List.filter (fun x => is_copied x.1) runs) <= 1)%nat /\
  exists w' tr,
    run (_ensure_and_copy_once "a/b" "s1" "s2") Mem.both_world = (Ok Noop, (w', tr)) /\
    List.filter is_put tr = [].
Proof.
  cbn zeta. split; [vm_compute; reflexivity|]. split.
  - apply (proj2 (copy_once_idempotent (env:=Mem.mem_env) (sr:=Mem.mem_settings)
                    "a/b" "s1" "s2") 3%nat Mem.hello_world eq_refl).
    intros o Ho. vm_compute in Ho. injection Ho as <-. reflexivity.
  - destruct (run (_ensure_and_copy_once "a/b" "s1" "s2") Mem.both_world)
      as [r [w' tr]] eqn:Hrun.
    set (resp t := HeadResp (Some (String quote_char "md5:hello" +:+ String quote_char ""))
                            (Some 5) (Some t)).
    assert (List.filter is_head tr
            = [EvHead "s1" "a/b" (Ok (resp 0)); EvHead "s2" "a/b" (Ok (resp 7))])
      as Hheads by (vm_compute in Hrun; injection Hrun as _ _ <-; reflexivity).
    destruct (proj1 (copy_once_idempotent "a/b" "s1" "s2") _ _ _ _ _ _ _
                Hrun Hheads eq_refl eq_refl) as [-> Hput].
    exists w', tr. split; [reflexivity | exact Hput].
Defined.

(** C2, as the specification states it, fails in its second half: the source
    object carries an ETag that a PUT of the same bytes does not
    reproduce at the destination (as after a multipart upload), so the
    second call finds the etags different and copies again. *)
Lemma copy_once_copies_again :
  let outs := (copy_runs 2 "a/b" "s1" "s2" Mem.multipart_world).*1 in
  outs = [Ok (Copied 5 "token-0"); Ok (Copied 5 "token-1")] /\
  ~ (length (List.filter is_copied outs) <= 1)%nat /\
  outs !! 1%nat <> Some (Ok Noop).
Proof.
  cbn zeta.
  assert ((copy_runs 2 "a/b" "s1" "s2" Mem.multipart_world).*1
          = [Ok (Copied 5 "token-0"); Ok (Copied 5 "token-1")]) as ->
    by (vm_compute; reflexivity).
  split; [reflexivity|]. split; [simpl; lia | done].
Qed.

(** ** C3: the failed path *)

Section FailedPath.
Context {W : Type} {env : Env W} {sr : SettingsReader}.

(** The copy phase leaves the row done on [copied] and [noop] and
    failed on everything else, exceptions included. *)
Lemma copy_phase_status t fm m s r s1 :
  _ensure_and_copy_once (t_key t) (t_src t) (t_dst t) s = (r, s1) ->
  t_status (copy_phase t fm m s).1.1.1
  = match r with
    | Ok (Copied _ _) | Ok Noop => StDone
    | _ => StFailed
    end.
Proof.
  intros Hc. unfold copy_phase. rewrite Hc.
  destruct r as [[]|]; reflexivity.
Qed.

(** The cleanup phase leaves the row failed exactly when
    [_cleanup_once] raised. *)
Lemma cleanup_phase_status t m s r s1 :
  _cleanup_once (t_key t) (t_src t) s = (r, s1) ->
  t_status (cleanup_phase t m s).1.1
  = match r with Ok _ => StDone | Exc _ => StFailed end.
Proof.
  intros Hc. unfold cleanup_phase. rewrite Hc. by destruct r.
Qed.

(** The row after the failed path, for either phase. *)
Lemma failed_path_rows requeue (ts : list MigrationTask) i t t1 :
  ts !! i = Some t ->
  (exists st err, t1 = set_error err (set_status st t)) ->
  t_status t1 = StFailed ->
  let n := default 0 (t_attempts t) + 1 in
  let ts' := if bool_decide (MAX_ATTEMPTS <= n) then delete i ts
             else <[i := Task (t_id t) (t_key t) (t_src t) (t_dst t) requeue
                              (Some n) (t_error t1) (t_created_at t)]> ts in
  settle requeue i t1 ts = ts' /\
  (NoDup (t_id <$> ts) ->
   forall t', t' ∈ ts' -> t_id t' = t_id t ->
              t_attempts t' = Some n /\ n < MAX_ATTEMPTS /\
              t_status t' = requeue).
Proof.
  intros Hi (st & err & ->) Hst n ts'.
  assert (settle requeue i (set_error err (set_status st t)) ts = ts') as Hs.
  { rewrite settle_failed by done. subst ts' n.
    cbn [set_error set_status set_attempts t_id t_key t_src t_dst t_status
         t_attempts t_error t_created_at].
    destruct (Z.leb_spec MAX_ATTEMPTS (default 0 (t_attempts t) + 1));
      case_bool_decide; try lia; reflexivity. }
  split; [exact Hs|].
  intros Hnd t' Hin Hid. rewrite <- Hs in Hin.
  destruct (settle_failed_rows requeue ts i t (set_error err (set_status st t))
              t' Hnd Hi eq_refl eq_refl Hst Hin Hid) as [-> Hlt].
  done.
Qed.
End FailedPath.

(** C3.  Let the tick claim row [t] at position [i].  When the phase it
    runs (copy for a queued or failed row, cleanup for a cleanup row)
    leaves the row failed, the tick counts one more attempt, [n =
    attempts + 1] with a null count read as 0, and decides on [n]: from
    [n >= MAX_ATTEMPTS = 5] the row is deleted, below it the row is
    written back with attempts [n], the phase's error and status [queued]
    after the copy phase, [cleanup] after the cleanup phase.  So with
    unique row ids, a row with the claimed id that is still in the store
    after the tick has attempts [n < MAX_ATTEMPTS]. *)
Theorem failed_tick_attempts {W : Type} {env : Env W} {sr : SettingsReader}
    (d : db) (m : metrics) (s : W * list event) (i : nat) (t : MigrationTask) :
  first_ready 0 (tasks d) = Some (i, t) ->
  let n := default 0 (t_attempts t) + 1 in
  let rows requeue err :=
    if bool_decide (MAX_ATTEMPTS <= n) then delete i (tasks d)
    else <[i := Task (t_id t) (t_key t) (t_src t) (t_dst t) requeue (Some n)
                     err (t_created_at t)]> (tasks d) in
  let survivors requeue ts' :=
    NoDup (t_id <$> tasks d) ->
    forall t', t' ∈ ts' -> t_id t' = t_id t ->
               t_attempts t' = Some n /\ n < MAX_ATTEMPTS /\ t_status t' = requeue in
  (forall t1 fm1 m1 s1,
     t_status t = StQueued \/ t_status t = StFailed ->
     copy_phase (set_status StRunning t) (file_meta d) m s = (t1, fm1, m1, s1) ->
     t_status t1 = StFailed ->
     process_queue_once d m s
     = (true, Db (rows StQueued (t_error t1)) fm1,
        _update_queue_metrics (rows StQueued (t_error t1)) m1, s1) /\
     survivors StQueued (rows StQueued (t_error t1))) /\
  (forall t1 m1 s1,
     t_status t = StCleanup ->
     cleanup_phase t m s = (t1, m1, s1) ->
     t_status t1 = StFailed ->
     process_queue_once d m s
     = (true, Db (rows StCleanup (t_error t1)) (file_meta d),
        _update_queue_metrics (rows StCleanup (t_error t1)) m1, s1) /\
     survivors StCleanup (rows StCleanup (t_error t1))).
Proof.
  intros Hf n rows survivors.
  destruct (first_ready_0 _ _ _ Hf) as [Hi _].
  split.
  - intros t1 fm1 m1 s1 Hst Hc Hfail.
    destruct (copy_phase_row _ _ _ _ _ _ _ _ Hc) as ((st & err & Ht1 & _) & _).
    assert (exists st' err', t1 = set_error err' (set_status st' t)) as Hrow
      by (exists st, err; by rewrite Ht1).
    destruct (failed_path_rows StQueued (tasks d) i t t1 Hi Hrow Hfail)
      as [Hs Hsurv].
    rewrite (process_copy_tick _ _ _ _ _ _ _ _ _ Hf Hst Hc), Hs.
    split; [reflexivity | exact Hsurv].
  - intros t1 m1 s1 Hst Hc Hfail.
    destruct (cleanup_phase_row _ _ _ _ _ _ Hc) as ((st & err & Ht1 & _) & _).
    assert (exists st' err', t1 = set_error err' (set_status st' t)) as Hrow
      by eauto.
    destruct (failed_path_rows StCleanup (tasks d) i t t1 Hi Hrow Hfail)
      as [Hs Hsurv].
    rewrite (process_cleanup_tick _ _ _ _ _ _ _ _ Hf Hst Hc), Hs.
    split; [reflexivity | exact Hsurv].
Qed.

(** A queued row on its fifth failure (the source and the destination
    are both absent) is deleted; on its first it is queued again with
    attempts 1; a cleanup row whose DELETE fails with a server error goes
    back to cleanup with one more attempt. *)
Lemma failed_tick_attempts_witness :
  (exists m' s',
     process_queue_once (Db [Task 1 "a/b" "s1" "s2" StQueued (Some 4) "" 100] ∅)
       Mem.no_metrics (Mem.empty_world, [])
     = (true, Db [] ∅, m', s')) /\
  (exists m' s',
     process_queue_once (Db [Mem.queued_task] ∅) Mem.no_metrics (Mem.empty_world, [])
     = (true, Db [Task 1 "a/b" "s1" "s2" StQueued (Some 1) "missing_source" 100] ∅,
        m', s')) /\
  (exists m' s',
     process_queue_once (Db [Mem.cleanup_task] ∅) Mem.no_metrics
       (Mem.with_faults [Some (ClientError (Some "500") "InternalError")]
          Mem.empty_world, [])
     = (true, Db [Task 2 "gone" "s1" "s2" StCleanup (Some 4) "InternalError" 50] ∅,
        m', s')).
Proof.
  split; [|split].
  3: {
    set (w := Mem.with_faults _ _).
    assert (first_ready 0 (tasks (Db [Mem.cleanup_task] ∅))
            = Some (0%nat, Mem.cleanup_task)) as Hf by reflexivity.
    destruct (cleanup_phase Mem.cleanup_task Mem.no_metrics (w, []))
      as [[t1 m1] s1] eqn:Hc.
    assert (t_status t1 = StFailed /\ t_error t1 = "InternalError")
      as (Hfail & Herr)
      by (vm_compute in Hc; by simplify_eq).
    destruct (proj2 (failed_tick_attempts _ _ _ _ _ Hf) t1 m1 s1
                eq_refl Hc Hfail) as [Hp _].
    eexists _, _. rewrite Hp, Herr. reflexivity. }
  - set (t := Task 1 "a/b" "s1" "s2" StQueued (Some 4) "" 100).
    assert (first_ready 0 (tasks (Db [t] ∅)) = Some (0%nat, t)) as Hf by reflexivity.
    destruct (copy_phase (set_status StRunning t) (file_meta (Db [t] ∅))
                Mem.no_metrics (Mem.empty_world, []))
      as [[[t1 fm1] m1] s1] eqn:Hc.
    assert (t_status t1 = StFailed /\ fm1 = ∅) as [Hfail ->]
      by (vm_compute in Hc; by simplify_eq).
    destruct (proj1 (failed_tick_attempts _ _ _ _ _ Hf) t1 ∅ m1 s1
                (or_introl eq_refl) Hc Hfail) as [Hp _].
    eexists _, _. rewrite Hp. reflexivity.
  - assert (first_ready 0 (tasks (Db [Mem.queued_task] ∅))
            = Some (0%nat, Mem.queued_task)) as Hf by reflexivity.
    destruct (copy_phase (set_status StRunning Mem.queued_task)
                (file_meta (Db [Mem.queued_task] ∅))
                Mem.no_metrics (Mem.empty_world, []))
      as [[[t1 fm1] m1] s1] eqn:Hc.
    assert (t_status t1 = StFailed /\ fm1 = ∅ /\ t_error t1 = "missing_source")
      as (Hfail & -> & Herr)
      by (vm_compute in Hc; by simplify_eq).
    destruct (proj1 (failed_tick_attempts _ _ _ _ _ Hf) t1 ∅ m1 s1
                (or_introl eq_refl) Hc Hfail) as [Hp _].
    eexists _, _. rewrite Hp, Herr. reflexivity.
Defined.

(** ** C4: metadata probe *)

(** C4, as the code has it.  When [head_object] answers, the probe
    returns the record [{etag, size}]: the answer's ETag without the
    quotes around it (a run of quotes is taken off each end, and what is
    left neither starts nor ends with a quote) and its content length;
    the record has no last-modified field.  On a [ClientError] whose code
    is 404, NoSuchKey or NotFound the probe returns absent without
    raising; every other exception propagates. *)
Theorem head_meta_probe {W : Type} {env : Env W}
    (ep key : string) (w : W) :
  (forall r w',
     head_object ep key w = (Ok r, w') ->
     run (_head_meta ep key) w
     = (Ok (Some {| etag := strip_quote (default "" (ETag r));
                    size := default 0 (ContentLength r) |}),
        (w', [EvHead ep key (Ok r)])) /\
     (exists n m, default "" (ETag r)
                  = quotes n +:+ strip_quote (default "" (ETag r)) +:+ quotes m) /\
     starts_with_quote (strip_quote (default "" (ETag r))) = false /\
     ends_with_quote (strip_quote (default "" (ETag r))) = false) /\
  (forall c msg w',
     head_object ep key w = (Exc (ClientError (Some c) msg), w') ->
     c ∈ ["404"; "NoSuchKey"; "NotFound"] ->
     run (_head_meta ep key) w
     = (Ok None, (w', [EvHead ep key (Exc (ClientError (Some c) msg))]))) /\
  (forall e w',
     head_object ep key w = (Exc e, w') ->
     (forall c msg, e = ClientError (Some c) msg ->
                    c ∉ ["404"; "NoSuchKey"; "NotFound"]) ->
     run (_head_meta ep key) w = (Exc e, (w', [EvHead ep key (Exc e)]))).
Proof.
  split; [|split].
  - intros r w' Hh. split.
    + unfold run. by rewrite (head_meta_present ep key (w, []) r w' Hh).
    + apply strip_quote_spec.
  - intros c msg w' Hh Hc. unfold run.
    rewrite (head_meta_absent ep key (w, []) (Some c) msg w' Hh); [done|].
    apply code_in_true. eauto.
  - intros e w' Hh Hc. unfold run.
    rewrite (head_meta_raises ep key (w, []) e w' Hh); [done|].
    intros code msg ->. apply code_in_false. intros c ->. by eapply Hc.
Qed.

Lemma head_meta_probe_witness :
  head_object "s1" "a/b" Mem.hello_world
  = (Ok (HeadResp (Some (String quote_char "md5:hello" +:+ String quote_char ""))
                  (Some 5) (Some 0)), Mem.hello_world) /\
  (run (_head_meta "s1" "a/b") Mem.hello_world).1
  = Ok (Some {| etag := "md5:hello"; size := 5 |}).
Proof.
  assert (head_object "s1" "a/b" Mem.hello_world
          = (Ok (HeadResp (Some (String quote_char "md5:hello" +:+ String quote_char ""))
                          (Some 5) (Some 0)), Mem.hello_world)) as Hh
    by (vm_compute; reflexivity).
  split; [exact Hh|].
  rewrite (proj1 (proj1 (head_meta_probe "s1" "a/b" Mem.hello_world) _ _ Hh)).
  reflexivity.
Defined.

(** C4, as the specification states it, fails: no last-modified time can be read
    off the record the probe returns.  Two objects that differ only in
    their modification time get the same record. *)
Lemma head_meta_has_no_last_modified :
  ~ exists last_modified : object_meta -> option Z,
      forall (w w' : Mem.world) (r : head_resp),
        head_object "s1" "a/b" w = (Ok r, w') ->
        exists m, (run (_head_meta "s1" "a/b") w).1 = Ok (Some m) /\
                  last_modified m = LastModified r.
Proof.
  intros [lm Hlm].
  set (resp t := HeadResp (Some (String quote_char "md5:hello" +:+ String quote_char ""))
                          (Some 5) (Some t)).
  set (wa := Mem.store_object "s1" "a/b" "hello" 10 Mem.empty_world).
  set (wb := Mem.store_object "s1" "a/b" "hello" 20 Mem.empty_world).
  assert (head_object "s1" "a/b" wa = (Ok (resp 10), wa)) as Ha
    by (vm_compute; reflexivity).
  assert (head_object "s1" "a/b" wb = (Ok (resp 20), wb)) as Hb
    by (vm_compute; reflexivity).
  destruct (Hlm _ _ _ Ha) as (m1 & Hm1 & Hl1).
  destruct (Hlm _ _ _ Hb) as (m2 & Hm2 & Hl2).
  vm_compute in Hm1, Hm2, Hl1, Hl2. congruence.
Qed.

(** ** C5: empty source and growing file *)

(** C5, as the code has it.  A call whose source HEAD reports size 0
    never returns [copied] and makes no PUT; when the destination HEAD
    was made too, the outcome is [{skipped, empty_source}] unless the
    destination reports the same etag and size (then [{noop}]) or its HEAD
    raised something other than not-found (then that exception).  A call
    whose second source HEAD reports a modification less than five
    seconds before the clock reading returns [{skipped, file_growing}]
    and makes no PUT.  On a [skipped] outcome the processor does not mark
    the row done: it takes the failed path, so the row is deleted or
    written back queued with one more attempt. *)
Theorem skip_guards {W : Type} {env : Env W} {sr : SettingsReader}
    (key src dst : string) :
  (forall w r w' tr rs rest,
     run (_ensure_and_copy_once key src dst) w = (r, (w', tr)) ->
     List.filter is_head tr = EvHead src key (Ok rs) :: rest ->
     size (meta_of_resp rs) = 0 ->
     (forall sz tok, r <> Ok (Copied sz tok)) /\
     List.filter is_put tr = [] /\
     (forall rd, rest = [EvHead dst key rd] ->
        match probe_result rd with
        | Ok dm =>
            r = if meta_equal (Some (meta_of_resp rs)) dm
                then Ok Noop else Ok (Skipped "empty_source")
        | Exc e => r = Exc e
        end)) /\
  (forall w r w' tr h1 h2 r3 now lm,
     run (_ensure_and_copy_once key src dst) w = (r, (w', tr)) ->
     List.filter is_head tr = [h1; h2; EvHead src key (Ok r3)] ->
     List.filter is_now tr = [EvNow now] ->
     LastModified r3 = Some lm ->
     now - lm < 5 * 1000000 ->
     r = Ok (Skipped "file_growing") /\ List.filter is_put tr = []) /\
  (forall d m s i t reason s1,
     first_ready 0 (tasks d) = Some (i, t) ->
     t_status t = StQueued \/ t_status t = StFailed ->
     t_key t = key -> t_src t = src -> t_dst t = dst ->
     _ensure_and_copy_once key src dst s = (Ok (Skipped reason), s1) ->
     let n := default 0 (t_attempts t) + 1 in
     let rows :=
       if bool_decide (MAX_ATTEMPTS <= n) then delete i (tasks d)
       else <[i := Task (t_id t) (t_key t) (t_src t) (t_dst t) StQueued (Some n)
                        (str_outcome (Skipped reason)) (t_created_at t)]> (tasks d) in
     process_queue_once d m s
     = (true, Db rows (file_meta d), _update_queue_metrics rows m, s1)).
Proof.
  split; [|split].
  - intros w r w' tr rs rest Hrun Hheads Hsz.
    destruct (copy_once_empty_source _ _ _ _ _ _ _ _ _ Hrun Hheads Hsz)
      as (? & ? & _ & _ & ?).
    done.
  - intros w r w' tr h1 h2 r3 now lm Hrun Hheads Hnow Hlm Hlt.
    destruct (copy_once_file_growing _ _ _ _ _ _ _ _ _ _ _ _ Hrun Hheads Hnow Hlm Hlt)
      as (? & ? & _).
    done.
  - intros d m s i t reason s1 Hf Hst Hk Hsrc Hdst Hcopy n rows.
    assert (copy_phase (set_status StRunning t) (file_meta d) m s
            = (set_error (str_outcome (Skipped reason))
                 (set_status StFailed (set_status StRunning t)),
               file_meta d, m, s1)) as Hc.
    { unfold copy_phase. cbn [set_status t_key t_src t_dst].
      by rewrite Hk, Hsrc, Hdst, Hcopy. }
    rewrite (process_copy_tick _ _ _ _ _ _ _ _ _ Hf Hst Hc).
    rewrite settle_failed by done.
    cbn [set_error set_status set_attempts t_id t_key t_src t_dst t_status
         t_attempts t_error t_created_at].
    fold n. subst rows.
    destruct (Z.leb_spec MAX_ATTEMPTS n); case_bool_decide; try lia; reflexivity.
Qed.

(** A source written one second ago is skipped as growing, with no PUT
    (scenario 3 of the specification, at the copy engine). *)
Lemma skip_guards_witness :
  exists w' tr,
    run (_ensure_and_copy_once "a/b" "s1" "s2") Mem.fresh_world
    = (Ok (Skipped "file_growing"), (w', tr)) /\
    List.filter is_put tr = [].
Proof.
  destruct (run (_ensure_and_copy_once "a/b" "s1" "s2") Mem.fresh_world)
    as [r [w' tr]] eqn:Hrun.
  set (resp := HeadResp (Some (String quote_char "md5:hello" +:+ String quote_char ""))
                        (Some 5) (Some 999000000)).
  assert (List.filter is_head tr
          = [EvHead "s1" "a/b" (Ok resp); EvHead "s2" "a/b" (Exc Mem.not_found);
             EvHead "s1" "a/b" (Ok resp)]) as Hheads
    by (vm_compute in Hrun; injection Hrun as _ _ <-; reflexivity).
  assert (List.filter is_now tr = [EvNow 1000000000]) as Hnow
    by (vm_compute in Hrun; injection Hrun as _ _ <-; reflexivity).
  destruct (proj1 (proj2 (skip_guards "a/b" "s1" "s2")) _ _ _ _ _ _ _ _ _
              Hrun Hheads Hnow eq_refl ltac:(lia)) as [-> Hput].
  exists w', tr. split; [reflexivity | exact Hput].
Defined.

(** C5, as the specification states it, fails: the source is empty (its HEAD
    reports size 0) and the destination holds an empty object with the
    same etag.  The copy engine answers [{noop}], not [{skipped,
    empty_source}], and the processor marks the row done. *)
Lemma empty_source_noop_done :
  let w := Mem.empty_pair_world in
  (ContentLength <$> (match (head_object "s1" "a/b" w).1 with
                      | Ok r => Some r | Exc _ => None end)) = Some (Some 0) /\
  (run (_ensure_and_copy_once "a/b" "s1" "s2") w).1 = Ok Noop /\
  (run (_ensure_and_copy_once "a/b" "s1" "s2") w).1 <> Ok (Skipped "empty_source") /\
  tasks (process_queue_once (Db [Mem.queued_task] ∅) Mem.no_metrics (w, [])).1.1.2
  = [Task 1 "a/b" "s1" "s2" StDone None "" 100].
Proof.
  cbn zeta.
  assert ((run (_ensure_and_copy_once "a/b" "s1" "s2") Mem.empty_pair_world).1
          = Ok Noop) as Hr by (vm_compute; reflexivity).
  split; [vm_compute; reflexivity|].
  split; [exact Hr|].
  split; [by rewrite Hr|].
  vm_compute. reflexivity.
Qed.

(** ** C6: queue observer *)

(** C6.  The observer sets the gauge of each of the five statuses to the
    number of rows in that status (zero when there is none), and it adds
    the alert [migration_backlog] / [warning] / [<n> migration tasks
    queued] / [{queued: n}] exactly when the number [n] of queued rows is
    above 20; it adds nothing otherwise.  Every tick of the processor,
    idle or not, ends with the observer run on the rows the tick left:
    the gauges after the tick are those counts, and the tick adds that one
    alert or none. *)
Theorem queue_observer {W : Type} {env : Env W} {sr : SettingsReader}
    (d : db) (m : metrics) (s : W * list event) :
  (forall ts m0,
     let n := count_status StQueued ts in
     (forall st, migration_queue_gauge (_update_queue_metrics ts m0) !! status_label st
                 = Some (count_status st ts)) /\
     alerts (_update_queue_metrics ts m0)
     = alerts m0 ++
       (if bool_decide (20 < n)
        then [Alert "migration_backlog" "warning"
                    (pretty n +:+ " migration tasks queued") [("queued", n)]]
        else [])) /\
  (forall b d' m' s',
     process_queue_once d m s = (b, d', m', s') ->
     let n := count_status StQueued (tasks d') in
     (forall st, migration_queue_gauge m' !! status_label st
                 = Some (count_status st (tasks d'))) /\
     alerts m'
     = alerts m ++
       (if bool_decide (20 < n)
        then [Alert "migration_backlog" "warning"
                    (pretty n +:+ " migration tasks queued") [("queued", n)]]
        else [])).
Proof.
  split.
  - intros ts m0 n.
    destruct (update_queue_metrics_spec ts m0) as (Hg & Ha & _). done.
  - intros b d' m' s' Hp n.
    destruct (first_ready 0 (tasks d)) as [[i t]|] eqn:Hf.
    + destruct (first_ready_0 _ _ _ Hf) as [_ Hr].
      destruct (ready_status _ Hr) as [Hst|[Hst|Hst]].
      1,2: destruct (copy_phase (set_status StRunning t) (file_meta d) m s)
             as [[[t1 fm1] m1] s1] eqn:Hc;
        rewrite (process_copy_tick _ _ _ _ _ _ _ _ _ Hf (ltac:(tauto)) Hc) in Hp;
        simplify_eq; cbn [tasks];
        destruct (copy_phase_row _ _ _ _ _ _ _ _ Hc) as (_ & <- & _);
        destruct (update_queue_metrics_spec (settle StQueued i t1 (tasks d)) m1)
          as (Hg & Ha & _); done.
      destruct (cleanup_phase t m s) as [[t1 m1] s1] eqn:Hc.
      rewrite (process_cleanup_tick _ _ _ _ _ _ _ _ Hf Hst Hc) in Hp.
      simplify_eq. cbn [tasks].
      destruct (cleanup_phase_row _ _ _ _ _ _ Hc) as (_ & <- & _).
      destruct (update_queue_metrics_spec (settle StCleanup i t1 (tasks d)) m1)
        as (Hg & Ha & _). done.
    + rewrite (process_idle _ _ _ Hf) in Hp. simplify_eq.
      destruct (update_queue_metrics_spec (tasks d') m) as (Hg & Ha & _). done.
Qed.

(** Scenario 6 of the specification at the observer: 21 queued rows give
    the alert with the text [21 migration tasks queued]; 20 give none. *)
Lemma queue_observer_witness :
  alerts (_update_queue_metrics (replicate 21 Mem.queued_task) Mem.no_metrics)
  = [Alert "migration_backlog" "warning" "21 migration tasks queued" [("queued", 21)]] /\
  alerts (_update_queue_metrics (replicate 20 Mem.queued_task) Mem.no_metrics) = [].
Proof.
  split.
  - rewrite (proj2 (proj1 (queue_observer (Db [] ∅) Mem.no_metrics
                             (Mem.empty_world, [])) _ _)).
    reflexivity.
  - rewrite (proj2 (proj1 (queue_observer (Db [] ∅) Mem.no_metrics
                             (Mem.empty_world, [])) _ _)).
    reflexivity.
Defined.

(** ** C7: encryption gate *)

Lemma counter_update_queue_metrics label ts m :
  counter label (_update_queue_metrics ts m) = counter label m.
Proof. reflexivity. Qed.

Lemma counter_inc label label' m :
  counter label' (inc_counter label m)
  = if bool_decide (label = label') then counter label' m + 1 else counter label' m.
Proof.
  unfold counter, inc_counter. cbn [migration_jobs_total].
  case_bool_decide as Hl.
  - subst. by rewrite lookup_insert_eq.
  - by rewrite lookup_insert_ne.
Qed.

(** C7.  With encryption enforcement on and a destination that is not
    encrypted, the copy engine answers [{blocked,
    destination_not_encrypted}] and leaves the world and the trace as they
    were: no bucket, HEAD, GET or PUT call and no sleep.  The processor,
    on a claimed row in the copy phase with that destination, then takes
    the failed path: the counter [result=blocked] goes up by one and no
    other counter moves, the row's attempts go up by one, and the row is
    deleted when that reaches [MAX_ATTEMPTS] and otherwise written back
    queued with error [destination_not_encrypted]. *)
Theorem encryption_gate_blocks {W : Type} {env : Env W} {sr : SettingsReader}
    (dst : string) (s : W * list event) :
  is_encryption_enforced (fst s) = true ->
  endpoint_is_encrypted dst (fst s) = false ->
  (forall key src,
     _ensure_and_copy_once key src dst s
     = (Ok (Blocked "destination_not_encrypted"), s)) /\
  (forall d m i t,
     first_ready 0 (tasks d) = Some (i, t) ->
     t_status t = StQueued \/ t_status t = StFailed ->
     t_dst t = dst ->
     let n := default 0 (t_attempts t) + 1 in
     exists m',
       process_queue_once d m s
       = (true,
          Db (if bool_decide (MAX_ATTEMPTS <= n) then delete i (tasks d)
              else <[i := Task (t_id t) (t_key t) (t_src t) (t_dst t) StQueued
                               (Some n) "destination_not_encrypted"
                               (t_created_at t)]> (tasks d))
             (file_meta d),
          m', s) /\
       counter "blocked" m' = counter "blocked" m + 1 /\
       (forall label, label <> "blocked" -> counter label m' = counter label m)).
Proof.
  intros Henf Henc. split.
  - intros key src. by apply copy_once_blocked.
  - intros d m i t Hf Hst Hdst n.
    assert (copy_phase (set_status StRunning t) (file_meta d) m s
            = (set_error "destination_not_encrypted"
                 (set_status StFailed (set_status StRunning t)),
               file_meta d, inc_counter "blocked" m, s)) as Hc.
    { unfold copy_phase. cbn [set_status t_key t_src t_dst]. rewrite Hdst.
      by rewrite copy_once_blocked. }
    exists (_update_queue_metrics
              (if bool_decide (MAX_ATTEMPTS <= n) then delete i (tasks d)
               else <[i := Task (t_id t) (t_key t) (t_src t) (t_dst t) StQueued
                                (Some n) "destination_not_encrypted"
                                (t_created_at t)]> (tasks d))
              (inc_counter "blocked" m)).
    split; [|split].
    + rewrite (process_copy_tick _ _ _ _ _ _ _ _ _ Hf Hst Hc).
      rewrite settle_failed by done.
      cbn [set_error set_status set_attempts t_id t_key t_src t_dst t_status
           t_attempts t_error t_created_at].
      fold n.
      destruct (Z.leb_spec MAX_ATTEMPTS n); case_bool_decide; try lia; reflexivity.
    + rewrite counter_update_queue_metrics, counter_inc. by case_bool_decide.
    + intros label Hl. rewrite counter_update_queue_metrics, counter_inc.
      by case_bool_decide.
Qed.

(** Scenario 5 of the specification: one tick on a queued row whose
    destination is not encrypted, with enforcement on. *)
Lemma encryption_gate_blocks_witness :
  let w := Mem.with_enforced true Mem.hello_world in
  run (_ensure_and_copy_once "a/b" "s1" "s2") w
  = (Ok (Blocked "destination_not_encrypted"), (w, [])) /\
  exists m',
    process_queue_once (Db [Mem.queued_task] ∅) Mem.no_metrics (w, [])
    = (true,
       Db [Task 1 "a/b" "s1" "s2" StQueued (Some 1) "destination_not_encrypted" 100] ∅,
       m', (w, [])) /\
    counter "blocked" m' = 1.
Proof.
  cbn zeta. set (w := Mem.with_enforced true Mem.hello_world).
  assert (is_encryption_enforced (fst (w, @nil event)) = true) as Henf
    by reflexivity.
  assert (endpoint_is_encrypted "s2" (fst (w, @nil event)) = false) as Henc
    by reflexivity.
  destruct (encryption_gate_blocks "s2" (w, []) Henf Henc) as [Hcopy Htick].
  split; [apply Hcopy|].
  assert (first_ready 0 (tasks (Db [Mem.queued_task] ∅)) = Some (0%nat, Mem.queued_task))
    as Hf by reflexivity.
  destruct (Htick (Db [Mem.queued_task] ∅) Mem.no_metrics _ _ Hf
              (or_introl eq_refl) eq_refl) as (m' & Hp & Hc & _).
  exists m'. split; [exact Hp | exact Hc].
Defined.

(** ** C8: cleanup engine *)

(** C8.  A DELETE that goes through gives [{deleted}]; a DELETE answered
    by a [ClientError] with code 404, NoSuchKey or NotFound (the object
    is not there any more) gives [{noop}]; every other exception
    propagates. *)
Theorem cleanup_once_idempotent {W : Type} {env : Env W}
    (key src : string) (w : W) :
  (forall w',
     delete_object src key w = (Ok tt, w') ->
     run (_cleanup_once key src) w
     = (Ok Deleted, (w', [EvDelete src key (Ok tt)]))) /\
  (forall c msg w',
     delete_object src key w = (Exc (ClientError (Some c) msg), w') ->
     c ∈ ["404"; "NoSuchKey"; "NotFound"] ->
     run (_cleanup_once key src) w
     = (Ok Noop, (w', [EvDelete src key (Exc (ClientError (Some c) msg))]))) /\
  (forall e w',
     delete_object src key w = (Exc e, w') ->
     (forall c msg, e = ClientError (Some c) msg ->
                    c ∉ ["404"; "NoSuchKey"; "NotFound"]) ->
     run (_cleanup_once key src) w = (Exc e, (w', [EvDelete src key (Exc e)]))).
Proof.
  split; [|split].
  - intros w' Hd. unfold_engine. by rewrite Hd.
  - intros c msg w' Hd Hc. unfold_engine. rewrite Hd.
    assert (code_in not_found_codes (Some c) = true) as ->; [|done].
    apply code_in_true. eauto.
  - intros e w' Hd Hc. unfold_engine. rewrite Hd.
    destruct e as [[c|] msg|msg]; [|done..].
    assert (code_in not_found_codes (Some c) = false) as ->; [|done].
    apply code_in_false. intros c' [= <-]. by eapply Hc.
Qed.

(** On the in-memory store: the first call deletes, the second finds the
    object gone. *)
Lemma cleanup_once_idempotent_witness :
  let '(r1, (w1, _)) := run (_cleanup_once "a/b" "s1") Mem.hello_world in
  let '(r2, _) := run (_cleanup_once "a/b" "s1") w1 in
  r1 = Ok Deleted /\ r2 = Ok Noop.
Proof.
  set (w1 := Mem.with_objects (delete ("s1", "a/b") (Mem.objects Mem.hello_world))
                               Mem.hello_world).
  assert (delete_object "s1" "a/b" Mem.hello_world = (Ok tt, w1)) as Hd1
    by (vm_compute; reflexivity).
  assert (delete_object "s1" "a/b" w1
          = (Exc (ClientError (Some "NoSuchKey") "NoSuchKey"), w1)) as Hd2
    by (vm_compute; reflexivity).
  rewrite (proj1 (cleanup_once_idempotent "a/b" "s1" Mem.hello_world) _ Hd1).
  rewrite (proj1 (proj2 (cleanup_once_idempotent "a/b" "s1" w1)) _ _ _ Hd2); [done|].
  rewrite !elem_of_cons. tauto.
Defined.

(** ** C9: failed-endpoint set and latency *)

(** C9.  [fail_endpoint name] stores, under [chaos_fail_endpoints], the
    comma-joined list it returns, and that list is sorted, without
    duplicates, and holds [name] and the names read from the setting
    before, nothing else.  [recover_endpoint name] stores and returns the
    sorted list of the names read before other than [name].
    [get_latency] is 0 when [get_int] has nothing, or 0, for
    [chaos_latency_ms], and [set_latency ms] returns [ms] and stores its
    decimal text. *)
Theorem chaos_settings {sr : SettingsReader}
    (name : string) (st : gmap string string) (ms : Z) :
  (let l := (chaos.fail_endpoint name st).1 in
   let st' := (chaos.fail_endpoint name st).2 in
   st' !! chaos.FAIL_KEY = Some (join "," l) /\
   StronglySorted String.le l /\ NoDup l /\
   (forall x, x ∈ l <-> x = name \/ x ∈ chaos.get_failed_endpoints st)) /\
  (let l := (chaos.recover_endpoint name st).1 in
   let st' := (chaos.recover_endpoint name st).2 in
   st' !! chaos.FAIL_KEY = Some (join "," l) /\
   StronglySorted String.le l /\ NoDup l /\
   (name ∉ l) /\
   (forall x, x ∈ l <-> x <> name /\ x ∈ chaos.get_failed_endpoints st)) /\
  (get_int st chaos.LATENCY_KEY = None \/ get_int st chaos.LATENCY_KEY = Some 0 ->
   chaos.get_latency st = 0) /\
  (chaos.set_latency ms st).1 = ms /\
  (chaos.set_latency ms st).2 !! chaos.LATENCY_KEY = Some (pretty ms).
Proof.
  split; [apply fail_endpoint_spec|].
  split; [apply recover_endpoint_spec|].
  split; [apply get_latency_falsy|].
  split; [reflexivity|].
  unfold chaos.set_latency, set_setting. cbn [snd]. by rewrite lookup_insert_eq.
Qed.

(** With the in-memory settings: failing [b] on top of the stored set
    [c,a] stores and returns [a,b,c]; an unset latency reads as 0. *)
Lemma chaos_settings_witness :
  let st : gmap string string := <[chaos.FAIL_KEY := "c,a"]> ∅ in
  (chaos.fail_endpoint "b" st).1 = ["a"; "b"; "c"] /\
  (chaos.fail_endpoint "b" st).2 !! chaos.FAIL_KEY = Some "a,b,c" /\
  (chaos.recover_endpoint "c" st).1 = ["a"] /\
  chaos.get_latency st = 0.
Proof.
  cbn zeta. set (st := <[chaos.FAIL_KEY := "c,a"]> ∅).
  pose proof (chaos_settings "b" st 0) as (Hfail & _ & Hlat & _).
  destruct Hfail as (Hstore & _).
  assert ((chaos.fail_endpoint "b" st).1 = ["a"; "b"; "c"]) as Hl
    by (vm_compute; reflexivity).
  split; [exact Hl|].
  split; [rewrite Hstore, Hl; reflexivity|].
  split; [vm_compute; reflexivity|].
  apply Hlat. left. vm_compute. reflexivity.
Defined.

(** ** C10: a failed growing-file probe *)

(** C10.  When the second HEAD of the source (the growing-file probe)
    raises, whatever the exception, the run is the retry loop started in
    the state the failed HEAD left: the loop's first GET of the source
    follows the failed HEAD in the trace, no clock reading was taken, the
    outcome is neither [{skipped, ...}] nor [{failed, ...}], and an
    exception that comes out is the one of the run's last GET or PUT, not
    the probe's. *)
Theorem growing_probe_error_swallowed {W : Type} {env : Env W} {sr : SettingsReader}
    (key src dst : string) (w w' : W) (r : res outcome) (tr : list event)
    (r1 : head_resp) (h2 : event) (e : exn) :
  run (_ensure_and_copy_once key src dst) w = (r, (w', tr)) ->
  List.filter is_head tr
  = [EvHead src key (Ok r1); h2; EvHead src key (Exc e)] ->
  (exists w0 tr0,
     copy_retry_loop src dst key (meta_of_resp r1) range4 1
       (w0, tr0 ++ [EvHead src key (Exc e)]) = (r, (w', tr)) /\
     exists g rest, tr = tr0 ++ EvHead src key (Exc e) :: EvGet src key g :: rest) /\
  List.filter is_now tr = [] /\
  (forall reason, r <> Ok (Skipped reason)) /\
  (forall err, r <> Ok (Failed err)) /\
  (forall e', r = Exc e' ->
     last tr = Some (EvGet src key (Exc e')) \/
     exists body, last tr = Some (EvPut dst key body (Exc e'))).
Proof.
  intros Hrun Hheads.
  destruct (copy_once_probe_error _ _ _ _ _ _ _ _ _ _ Hrun Hheads)
    as (w0 & tr0 & Hloop & Hnow0).
  destruct (copy_retry_loop_trace _ _ _ _ _ _ _ _ _ Hloop)
    as (post & Htr & Hpost & Hget). cbn [fst snd] in Htr.
  destruct Hget as (g & rest & ->); [done|].
  destruct (loop_events_no_probe _ Hpost) as [_ Hnn].
  assert (last range4 = Some 3) as Hlast by reflexivity.
  assert (max_retries <= 3) as Hge by (unfold max_retries; lia).
  destruct (copy_retry_loop_result _ _ _ _ _ _ _ _ _ _ Hlast Hge Hloop)
    as [(tok & body & -> & Hl) | (e' & -> & Hl)]; cbn [snd] in Hl.
  all: split; [exists w0, tr0; split; [exact Hloop|];
               exists g, rest; by rewrite Htr, <- app_assoc|].
  all: split; [rewrite Htr, !List.filter_app, Hnow0, Hnn; reflexivity|].
  all: split; [done|]; split; [done|].
  - intros e' [=].
  - intros e'' [= <-]. exact Hl.
Qed.

(** Scenario: the source is HEADed, the destination is absent, the
    second HEAD of the source fails with a server error; the copy goes
    ahead. *)
Lemma growing_probe_error_swallowed_witness :
  let w := Mem.with_faults [None; None; None; None;
                            Some (ClientError (Some "500") "InternalError")]
                           Mem.hello_world in
  exists w' tr, run (_ensure_and_copy_once "a/b" "s1" "s2") w
                = (Ok (Copied 5 "token-0"), (w', tr)) /\
                forall reason, Ok (Copied 5 "token-0") <> Ok (Skipped reason).
Proof.
  cbn zeta.
  set (w := Mem.with_faults _ _).
  destruct (run (_ensure_and_copy_once "a/b" "s1" "s2") w) as [r [w' tr]] eqn:Hrun.
  assert (r = Ok (Copied 5 "token-0")) as Hr by (vm_compute in Hrun; congruence).
  assert (List.filter is_head tr
          = [EvHead "s1" "a/b" (Ok (HeadResp
               (Some (String quote_char "md5:hello" +:+ String quote_char ""))
               (Some 5) (Some 0)));
             EvHead "s2" "a/b" (Exc Mem.not_found);
             EvHead "s1" "a/b" (Exc (ClientError (Some "500") "InternalError"))])
    as Hheads by (vm_compute in Hrun; injection Hrun as _ _ <-; reflexivity).
  destruct (growing_probe_error_swallowed _ _ _ _ _ _ _ _ _ _ Hrun Hheads)
    as (_ & _ & Hskip & _).
  exists w', tr. subst r. split; [reflexivity | exact Hskip].
Defined.

(** * Further properties of the engines *)

(** ** One try of the retry loop *)

Section LoopStep.
Context {W : Type} {env : Env W} {sr : SettingsReader}.

(** One round of the loop: the try copies; or it fails with a
    throttling error on an attempt below [max_retries], and the loop
    sleeps [backoff] and goes on with twice the backoff; or it fails
    otherwise, and the exception comes out. *)
Lemma copy_retry_loop_step src dst key sm attempt rng backoff s r s' :
  copy_retry_loop src dst key sm (attempt :: rng) backoff s = (r, s') ->
  (exists body tok,
     r = Ok (Copied (size sm) tok) /\
     snd s' = snd s ++ [EvGet src key (Ok body); EvPut dst key body (Ok tt)]) \/
  (exists e evs,
     failed_try src dst key e evs /\
     ((is_throttling e = true /\ attempt < max_retries /\
       exists w1,
         copy_retry_loop src dst key sm rng (backoff * 2)
           (w1, snd s ++ evs ++ [EvSleep (Sec backoff)]) = (r, s')) \/
      ((is_throttling e = false \/ max_retries <= attempt) /\
       r = Exc e /\ snd s' = snd s ++ evs))).
Proof.
  intros Hl. simpl in Hl. unfold_engine_in Hl.
  break_run Hl; simplify_eq; cbn [fst snd].
  all: repeat match goal with u : unit |- _ => destruct u end.
  all: try (left; eexists _, _; split; [reflexivity|];
            by rewrite <- app_assoc).
  all: right.
  all: match goal with
       | E : get_object _ _ _ = (Exc ?e, _) |- _ =>
           exists e, [EvGet src key (Exc e)]
       | E : get_object _ _ _ = (Ok ?b, _),
         E' : put_object _ _ _ _ = (Exc ?e, _) |- _ =>
           exists e, [EvGet src key (Ok b); EvPut dst key b (Exc e)]
       end.
  all: (split; [unfold failed_try; eauto|]).
  all: try match goal with
       | E : _ && (_ <? _) = true |- _ =>
           apply andb_true_iff in E as [Hth Hlt]; apply Z.ltb_lt in Hlt;
           left; split; [exact Hth|]; split; [exact Hlt|];
           eexists; rewrite <- Hl; f_equal; f_equal; by rewrite <- !app_assoc
       end.
  all: right; cbn [is_throttling]; rewrite <- ?app_assoc; cbn [app].
  all: split; [|done].
  all: try (left; reflexivity).
  all: match goal with
       | E : _ && (_ <? _) = false |- _ =>
           apply andb_false_iff in E as [Hth|Hlt];
           [left; exact Hth | right; by apply Z.ltb_ge in Hlt]
       end.
Qed.
End LoopStep.

(** ** What the retry loop adds to a trace *)

Section LoopFacts.
Context {W : Type} {env : Env W} {sr : SettingsReader}.

Lemma failed_try_facts src dst key e evs :
  failed_try src dst key e evs ->
  forallb (addressed src dst key) evs = true /\
  List.filter is_backoff evs = [] /\
  length (List.filter is_get evs) = 1%nat /\
  (length (List.filter is_put evs) <= 1)%nat /\
  List.filter fatal evs
  = (if is_throttling e then [] else [default (EvNow 0) (last evs)]) /\
  (exists ev, last evs = Some ev /\ raised ev = Some e) /\
  evs <> [].
Proof.
  intros [-> | [body ->]]; cbn.
  all: rewrite ?bool_decide_eq_true_2 by done; cbn.
  all: destruct (is_throttling e); cbn; repeat split; eauto; done.
Qed.

(** The full account of a loop over a range that ends on an attempt
    number not below [max_retries]. *)
Lemma copy_retry_loop_run src dst key sm rng :
  forall backoff s r s' a,
    last rng = Some a -> max_retries <= a ->
    copy_retry_loop src dst key sm rng backoff s = (r, s') ->
    exists post,
      snd s' = snd s ++ post /\
      forallb (addressed src dst key) post = true /\
      (1 <= length (List.filter is_get post) <= length rng)%nat /\
      (length (List.filter is_put post) <= length (List.filter is_get post))%nat /\
      List.filter is_backoff post
      = backoffs backoff (length (List.filter is_get post) - 1) /\
      ((List.filter fatal post = [] /\
        forall e, r = Exc e -> is_throttling e = true) \/
       (exists ev e, List.filter fatal post = [ev] /\ last post = Some ev /\
                     raised ev = Some e /\ r = Exc e)) /\
      (forall e, r = Exc e ->
                 exists ev, last post = Some ev /\ raised ev = Some e) /\
      (forall sz tok, r = Ok (Copied sz tok) ->
         sz = size sm /\
         exists body mid,
           post = mid ++ [EvGet src key (Ok body); EvPut dst key body (Ok tt)]) /\
      ((exists tok, r = Ok (Copied (size sm) tok)) \/ exists e, r = Exc e).
Proof.
  induction rng as [|attempt rng IH]; intros backoff s r s' a Hlast Hge Hl;
    [done|].
  destruct (copy_retry_loop_step _ _ _ _ _ _ _ _ _ _ Hl)
    as [(body & tok & -> & Htr) | (e & evs & Htry & Hcase)].
  - exists [EvGet src key (Ok body); EvPut dst key body (Ok tt)].
    split; [exact Htr|]. cbn.
    rewrite !bool_decide_eq_true_2 by done. cbn.
    split; [done|]. split; [lia|]. split; [lia|]. split; [done|].
    split; [left; split; [done | by intros e [=]]|].
    split; [by intros e [=]|].
    split; [|left; eauto].
    intros sz tok' [= <- <-]. split; [done|]. by exists body, [].
  - destruct (failed_try_facts _ _ _ _ _ Htry)
      as (Hadr & Hbk & Hget & Hput & Hfatal & (ev & Hev & Hraised) & Hne).
    destruct Hcase as [(Hth & Hlt & w1 & Hrec) | (Hwhy & -> & Htr)].
    + assert (last rng = Some a) as Hlast'.
      { destruct rng as [|b rng]; [simpl in Hlast; simplify_eq; lia | done]. }
      destruct (IH _ _ _ _ _ Hlast' Hge Hrec)
        as (post & Htr & Padr & Pget & Pput & Pbk & Pfatal & Pexc & Pcopied & Pres).
      cbn [snd] in Htr.
      exists (evs ++ [EvSleep (Sec backoff)] ++ post).
      split; [by rewrite Htr, <- !app_assoc|].
      rewrite !forallb_app, !List.filter_app, !length_app.
      rewrite Hadr, Padr, Hbk, Hget, Hth in *. cbn.
      rewrite Hfatal. cbn.
      assert (last (evs ++ EvSleep (Sec backoff) :: post) = last post) as Hl2.
      { destruct Pget as [Pget _].
        destruct post as [|p post]; [simpl in Pget; lia|].
        by rewrite last_app_cons, last_cons_cons. }
      rewrite Hl2.
      split; [done|]. split; [lia|]. split; [lia|].
      split.
      { rewrite Pbk. destruct Pget as [Pget _].
        destruct (length (List.filter is_get post)) as [|g]; [lia|].
        cbn. by rewrite Nat.sub_0_r. }
      split; [exact Pfatal|]. split; [exact Pexc|]. split; [|exact Pres].
      intros sz tok Hr. destruct (Pcopied sz tok Hr) as (-> & body & mid & ->).
      split; [done|].
      exists body, (evs ++ EvSleep (Sec backoff) :: mid).
      by rewrite <- !app_assoc.
    + exists evs. split; [exact Htr|].
      split; [exact Hadr|]. rewrite Hget, Hbk, Hfatal. cbn.
      split; [lia|]. split; [lia|]. split; [done|].
      split.
      { destruct (is_throttling e) eqn:Hth.
        - left. split; [done|]. by intros e' [= <-].
        - right. exists ev, e. rewrite Hev. done. }
      split; [intros e' [= <-]; eauto|].
      split; [done | eauto].
Qed.
End LoopFacts.

(** ** Whole runs of the copy engine *)

Lemma backoffs_take (n : nat) :
  (n <= 3)%nat ->
  backoffs 1 n = take n [EvSleep (Sec 1); EvSleep (Sec 2); EvSleep (Sec 4)].
Proof.
  intros Hn. destruct n as [|[|[|[|n]]]]; try lia; reflexivity.
Qed.

Lemma loop_events_only (post : list event) :
  forallb loop_event post = true ->
  List.filter is_head post = [] /\ List.filter is_ensure post = [] /\
  List.filter is_delete post = [] /\ List.filter is_now post = [] /\
  List.filter is_latency_sleep post = [].
Proof.
  induction post as [|ev post IH]; [done|]. simpl.
  intros [Hev Hp]%andb_true_iff. destruct (IH Hp) as (-> & -> & -> & -> & ->).
  by destruct ev as [| | | | |[]|].
Qed.

(** Split a run that reached the retry loop into what came before the
    loop and the loop's account. *)
Ltac loop_account H :=
  let Hlast := fresh "Hlast" in
  let Hge := fresh "Hge" in
  assert (last range4 = Some 3) as Hlast by reflexivity;
  assert (max_retries <= 3) as Hge by (unfold max_retries; lia);
  let Hev := fresh "Hev" in
  pose proof (copy_retry_loop_trace _ _ _ _ _ _ _ _ _ H) as Hev;
  destruct (copy_retry_loop_run _ _ _ _ _ _ _ _ _ _ Hlast Hge H)
    as (post & Htr & Padr & Pget & Pput & Pbk & Pfatal & Pexc & Pcopied & Pres);
  destruct Hev as (post' & Htr' & Hloop & _);
  rewrite Htr in Htr'; apply app_inv_head in Htr'; subst post';
  destruct (loop_events_only post Hloop) as (Lh & Le & Ld & Ln & Ll);
  cbn [fst snd] in Htr; simplify_eq;
  change (length range4) with 4%nat in Pget.

Ltac addr_true :=
  repeat (rewrite bool_decide_eq_true_2 by (intuition congruence)); cbn [andb].

Section CopyRuns.
Context {W : Type} {env : Env W} {sr : SettingsReader}.

(** X1.  The calls of a run.  Whatever the result, the copy engine
    addresses only the two endpoints and the key it was given: bucket
    checks and HEADs on either endpoint, GETs on the source, PUTs on the
    destination.  It never deletes, and it makes at most two bucket
    checks, three HEADs and four GETs, and never more PUTs than GETs. *)
Lemma copy_once_discipline key src dst w r w' tr :
  run (_ensure_and_copy_once key src dst) w = (r, (w', tr)) ->
  forallb (addressed src dst key) tr = true /\
  List.filter is_delete tr = [] /\
  (length (List.filter is_ensure tr) <= 2)%nat /\
  (length (List.filter is_head tr) <= 3)%nat /\
  (length (List.filter is_get tr) <= 4)%nat /\
  (length (List.filter is_put tr) <= length (List.filter is_get tr))%nat.
Proof.
  intros Hrun. unfold_engine_in Hrun. break_run Hrun.
  all: first
    [ loop_account Hrun;
      rewrite ?forallb_app, ?List.filter_app, ?length_app, ?Padr, ?Lh, ?Le, ?Ld;
      cbn; addr_true; repeat split; try done; lia
    | simplify_eq; cbn; addr_true; repeat split; try done; lia ].
Qed.

(** X2.  The backoff schedule.  In every run, whatever the errors, the
    sleeps between tries are the first [g - 1] of 1, 2 and 4 seconds,
    where [g] is the number of GETs of the run: one sleep before each try
    but the first, doubling from one second. *)
Lemma copy_once_backoff_schedule key src dst w r w' tr :
  run (_ensure_and_copy_once key src dst) w = (r, (w', tr)) ->
  List.filter is_backoff tr
  = take (length (List.filter is_get tr) - 1)
         [EvSleep (Sec 1); EvSleep (Sec 2); EvSleep (Sec 4)].
Proof.
  intros Hrun. unfold_engine_in Hrun. break_run Hrun.
  all: first
    [ loop_account Hrun;
      rewrite ?List.filter_app, ?length_app; cbn;
      rewrite Pbk; apply backoffs_take; lia
    | simplify_eq; reflexivity ].
Qed.

(** X3.  Where an exception comes from.  When a run ends with an exception,
    that exception is the one the last storage call of the run raised, or
    it is the error of the latency sleep, raised for a positive latency
    before any call, with the trace empty and the state as it was.  The
    engine raises nothing of its own and nothing from an earlier call. *)
Lemma copy_once_exception_source key src dst w w' tr e :
  run (_ensure_and_copy_once key src dst) w = (Exc e, (w', tr)) ->
  (exists ev, last tr = Some ev /\ raised ev = Some e) \/
  (tr = [] /\ w' = w /\
   0 < chaos.get_latency (settings w) /\
   latency_sleep_error (chaos.get_latency (settings w)) = Some e).
Proof.
  intros Hrun. unfold_engine_in Hrun. break_run Hrun.
  all: first
    [ left; loop_account Hrun;
      destruct (Pexc e eq_refl) as (ev & Hl & Hr);
      exists ev; (split; [|exact Hr]);
      (destruct post as [|p post]; [done|]);
      by rewrite last_app_cons
    | left; simplify_eq; eexists; (split; [by rewrite last_snoc | reflexivity])
    | right; cbn [fst] in *; simplify_eq;
      (split; [reflexivity|]); (split; [reflexivity|]);
      (split; [by apply Z.ltb_lt | first [assumption | reflexivity]]) ].
Qed.

(** X4.  Fatal errors end the run.  A GET or PUT error that is not a
    throttling error is never retried: a run has at most one such event,
    it is the last event of the run, and its exception is the result. *)
Lemma copy_once_fatal key src dst w r w' tr :
  run (_ensure_and_copy_once key src dst) w = (r, (w', tr)) ->
  List.filter fatal tr = [] \/
  exists ev e, List.filter fatal tr = [ev] /\ last tr = Some ev /\
               raised ev = Some e /\ r = Exc e.
Proof.
  intros Hrun. unfold_engine_in Hrun. break_run Hrun.
  all: first
    [ loop_account Hrun;
      rewrite !List.filter_app; cbn;
      (destruct Pfatal as [[-> _] | (ev & ex & -> & Hl & Hr & ->)];
       [by left | right; exists ev, ex; (split; [done|]); (split; [|done]);
                  (destruct post as [|p post]; [done|]);
                  first [exact Hl | by rewrite last_app_cons]])
    | simplify_eq; by left ].
Qed.

(** X5.  What copied means.  A run that answers copied has read the source
    with a successful GET and written the bytes of that GET to the
    destination with a successful PUT, these two being the last events of
    the run; the size in the answer is the one the first HEAD of the source
    reported, and it is not zero. *)
Lemma copy_once_copied key src dst w w' tr sz tok :
  run (_ensure_and_copy_once key src dst) w = (Ok (Copied sz tok), (w', tr)) ->
  exists rs rest body mid,
    List.filter is_head tr = EvHead src key (Ok rs) :: rest /\
    sz = size (meta_of_resp rs) /\ sz <> 0 /\
    tr = mid ++ [EvGet src key (Ok body); EvPut dst key body (Ok tt)].
Proof.
  intros Hrun. unfold_engine_in Hrun. break_run Hrun.
  all: try (simplify_eq; fail).
  all: loop_account Hrun.
  all: destruct (Pcopied _ _ eq_refl) as (-> & body & mid & ->).
  all: match goal with
       | E : (_ =? 0) = false |- _ => apply Z.eqb_neq in E
       end.
  all: eexists _, _, body, _.
  all: split; [rewrite !List.filter_app; cbn; reflexivity|].
  all: split; [reflexivity|]; split; [assumption|].
  all: apply app_assoc.
Qed.

(** X6.  The chaos latency.  In a run that passes the encryption gate, the
    latency sleep is the first thing the engine does, and it does it
    exactly when the configured latency, in milliseconds, is positive.
    Where the sleep raises, the run ends with that exception before
    any storage call, with the trace empty and the state as it was;
    otherwise the sleep is made once and the bucket check of the source
    follows it.  Without a positive latency the run starts with the
    bucket check of the source. *)
Lemma copy_once_latency key src dst w r w' tr :
  run (_ensure_and_copy_once key src dst) w = (r, (w', tr)) ->
  is_encryption_enforced w && negb (endpoint_is_encrypted dst w) = false ->
  let lat := chaos.get_latency (settings w) in
  (lat <= 0 ->
   List.filter is_latency_sleep tr = [] /\
   exists r0 rest, tr = EvEnsure src r0 :: rest) /\
  (0 < lat ->
   match latency_sleep_error lat with
   | Some e => r = Exc e /\ tr = [] /\ w' = w
   | None =>
       List.filter is_latency_sleep tr = [EvSleep (MilliSec lat)] /\
       exists r0 rest, tr = EvSleep (MilliSec lat) :: EvEnsure src r0 :: rest
   end).
Proof.
  intros Hrun Hgate lat. subst lat.
  unfold_engine_in Hrun. rewrite Hgate in Hrun. break_run Hrun.
  all: cbn [fst snd] in *.
  all: match goal with
       | E : (0 <? _) = true |- _ => apply Z.ltb_lt in E
       | E : (0 <? _) = false |- _ => apply Z.ltb_ge in E
       end.
  all: (split; [intros Hle | intros Hpos]); try lia.
  all: repeat match goal with
              | E : latency_sleep_error _ = _ |- _ => rewrite E; clear E
              end.
  all: first
    [ loop_account Hrun; rewrite !List.filter_app, Ll; cbn
    | simplify_eq; cbn ].
  all: first
    [ done
    | split; [reflexivity|]; eexists _, _; reflexivity ].
Qed.

(** X7.  An absent source.  When the HEAD of the source answers not found
    and the HEAD of the destination does not raise, the run stops after
    these two HEADs, with noop where the destination has the object and
    missing_source where it has not; nothing is read or written. *)
Lemma copy_once_source_absent key src dst w r w' tr h1 h2 rest dm :
  run (_ensure_and_copy_once key src dst) w = (r, (w', tr)) ->
  List.filter is_head tr = EvHead src key h1 :: EvHead dst key h2 :: rest ->
  probe_result h1 = Ok None ->
  probe_result h2 = Ok dm ->
  r = Ok (match dm with Some _ => Noop | None => MissingSource end) /\
  rest = [] /\ List.filter is_get tr = [] /\ List.filter is_put tr = [].
Proof.
  intros Hrun Hheads Hp1 Hp2.
  unfold_engine_in Hrun. break_run Hrun.
  all: first [loop_account Hrun | simplify_eq].
  all: cbn in Hheads; simplify_eq.
  all: cbn [probe_result] in Hp1, Hp2;
    repeat match goal with
           | E : code_in _ _ = _ |- _ => rewrite E in *
           end; simplify_eq.
  all: done.
Qed.

(** X8.  Each answer has its cause.  Blocked is answered only with
    enforcement on and an unencrypted destination, before any call; noop
    only after two HEADs where the destination has the object and the
    source is absent or has the same etag and size; missing_source only
    where both are absent; skipped only for a source of size zero or a
    third HEAD less than five seconds old; failed and deleted never. *)
Lemma copy_once_outcome_sound key src dst w r w' tr :
  run (_ensure_and_copy_once key src dst) w = (r, (w', tr)) ->
  match r with
  | Ok (Blocked reason) =>
      reason = "destination_not_encrypted" /\
      is_encryption_enforced w = true /\ endpoint_is_encrypted dst w = false /\
      tr = [] /\ w' = w
  | Ok Noop =>
      exists h1 h2 dm,
        List.filter is_head tr = [EvHead src key h1; EvHead dst key h2] /\
        probe_result h2 = Ok (Some dm) /\
        (probe_result h1 = Ok None \/
         exists sm, probe_result h1 = Ok (Some sm) /\
                    etag sm = etag dm /\ size sm = size dm)
  | Ok MissingSource =>
      exists h1 h2,
        List.filter is_head tr = [EvHead src key h1; EvHead dst key h2] /\
        probe_result h1 = Ok None /\ probe_result h2 = Ok None
  | Ok (Skipped reason) =>
      (reason = "empty_source" /\
       exists rs h2,
         List.filter is_head tr = [EvHead src key (Ok rs); EvHead dst key h2] /\
         size (meta_of_resp rs) = 0) \/
      (reason = "file_growing" /\
       exists h1 h2 r3 now lm,
         List.filter is_head tr = [h1; h2; EvHead src key (Ok r3)] /\
         List.filter is_now tr = [EvNow now] /\
         LastModified r3 = Some lm /\ now - lm < 5 * 1000000)
  | Ok (Failed _) | Ok Deleted => False
  | Ok (Copied _ _) | Exc _ => True
  end.
Proof.
  intros Hrun. unfold_engine_in Hrun. break_run Hrun.
  all: first
    [ loop_account Hrun;
      destruct Pres as [[? ->] | [? ->]]; exact I
    | simplify_eq ].
  all: try exact I.
  all: cbn [List.filter is_head is_now app].
  all: repeat match goal with
              | E : (_ =? 0) = true |- _ => apply Z.eqb_eq in E
              | E : (_ <? _) = true |- _ => apply Z.ltb_lt in E
              | E : meta_equal _ _ = true |- _ =>
                  apply meta_equal_true in E as (? & ? & ? & ? & ? & ?);
                  simplify_eq
              | E : _ && negb _ = true |- _ =>
                  apply andb_true_iff in E as [? ?%negb_true_iff]
              end.
  all: try (repeat split; done).
  all: try (left; split; [reflexivity|]; eexists _, _; split; [reflexivity|]; done).
  all: try (right; split; [reflexivity|]; eexists _, _, _, _, _;
            split; [reflexivity|]; split; [reflexivity|]; split; [eassumption|];
            done).
  all: try (eexists _, _; split; [reflexivity|]; cbn [probe_result];
            repeat match goal with
                   | E : code_in _ _ = _ |- _ => rewrite E
                   end; done).
  all: eexists _, _, _; split; [reflexivity|]; cbn [probe_result];
    repeat match goal with
           | E : code_in _ _ = _ |- _ => rewrite E
           end.
  all: split; [reflexivity|].
  all: first [left; reflexivity | right; eexists; split; [reflexivity|]; done].
Qed.
End CopyRuns.

(** ** The cleanup engine's one call *)

Section CleanupRuns.
Context {W : Type} {env : Env W} {sr : SettingsReader}.

(** X9.  The cleanup engine makes one storage call, the DELETE of the key on
    the source, and leaves the state that call left; it answers deleted
    when the call succeeds, and noop or the call's own exception when it
    raises. *)
Lemma cleanup_once_one_call key src w r w' tr :
  run (_cleanup_once key src) w = (r, (w', tr)) ->
  exists d,
    delete_object src key w = (d, w') /\
    tr = [EvDelete src key d] /\
    (r = Ok Deleted /\ d = Ok tt \/
     r = Ok Noop /\ (exists e, d = Exc e) \/
     exists e, r = Exc e /\ d = Exc e).
Proof.
  intros Hrun. unfold_engine_in Hrun. break_run Hrun; simplify_eq.
  all: repeat match goal with u : unit |- _ => destruct u end.
  all: eexists; (split; [first [eassumption | reflexivity]|]);
    (split; [reflexivity|]); eauto 6.
Qed.
End CleanupRuns.

(** ** The claim query *)

Lemma first_ready_least (ts : list MigrationTask) :
  forall i0 i t,
    first_ready i0 ts = Some (i, t) ->
    forall k t',
      ts !! k = Some t' -> ready t' = true ->
      t_created_at t <= t_created_at t'.
Proof.
  induction ts as [|t0 ts IH]; intros i0 i t Hf k t' Hk Hr; [done|].
  simpl in Hf.
  destruct k as [|k]; cbn in Hk; [injection Hk as ->|].
  - rewrite Hr in Hf.
    destruct (first_ready (S i0) ts) as [[j b]|] eqn:Hrest.
    + destruct (Z.ltb_spec (t_created_at b) (t_created_at t')); simplify_eq; lia.
    + simplify_eq. lia.
  - destruct (first_ready (S i0) ts) as [[j b]|] eqn:Hrest.
    + pose proof (IH _ _ _ Hrest _ _ Hk Hr) as Hle.
      destruct (ready t0);
        [destruct (Z.ltb_spec (t_created_at b) (t_created_at t0))|];
        simplify_eq; lia.
    + pose proof (first_ready_none _ _ Hrest) as Hnone.
      rewrite Forall_forall in Hnone.
      assert (ready t' = false)
        by (apply Hnone; by eapply list_elem_of_lookup_2).
      congruence.
Qed.

(** X10.  The oldest ready row is claimed.  The claimed row is a row of
    the store that is queued, failed or in cleanup, and no such row has
    an earlier creation time. *)
Lemma first_ready_oldest (ts : list MigrationTask) i t :
  first_ready 0 ts = Some (i, t) ->
  ts !! i = Some t /\ ready t = true /\
  forall k t',
    ts !! k = Some t' -> ready t' = true ->
    t_created_at t <= t_created_at t'.
Proof.
  intros Hf. destruct (first_ready_0 _ _ _ Hf) as [Hi Hr].
  split; [exact Hi|]. split; [exact Hr|].
  intros k t' Hk Hr'. exact (first_ready_least _ _ _ _ Hf _ _ Hk Hr').
Qed.

(** ** Ticks of the queue processor *)

Lemma set_status_running (st : status) (t : MigrationTask) :
  set_status st (set_status StRunning t) = set_status st t.
Proof. reflexivity. Qed.

Lemma sum_list_insert {A} (f : A -> nat) (ts : list A) i t t' :
  ts !! i = Some t ->
  (sum_list (f <$> <[i := t']> ts) + f t = sum_list (f <$> ts) + f t')%nat.
Proof.
  revert i. induction ts as [|a ts IH]; intros [|i] Hi; simplify_eq/=; [lia|].
  specialize (IH _ Hi). lia.
Qed.

Lemma sum_list_delete {A} (f : A -> nat) (ts : list A) i t :
  ts !! i = Some t ->
  (sum_list (f <$> delete i ts) + f t = sum_list (f <$> ts))%nat.
Proof.
  revert i. induction ts as [|a ts IH]; intros [|i] Hi; simplify_eq/=; [lia|].
  specialize (IH _ Hi). lia.
Qed.

Lemma claims_left_insert (ts : list MigrationTask) i t t' :
  ts !! i = Some t ->
  (total_claims_left (<[i := t']> ts) + claims_left t
   = total_claims_left ts + claims_left t')%nat.
Proof. apply sum_list_insert. Qed.

Lemma claims_left_delete (ts : list MigrationTask) i t :
  ts !! i = Some t ->
  (total_claims_left (delete i ts) + claims_left t = total_claims_left ts)%nat.
Proof. apply sum_list_delete. Qed.

Lemma claims_left_pos (t : MigrationTask) :
  ready t = true -> (1 <= claims_left t)%nat.
Proof.
  unfold claims_left. intros ->.
  pose proof (Z.le_max_l 1 (MAX_ATTEMPTS - default 0 (t_attempts t))). lia.
Qed.

Lemma claims_left_none (ts : list MigrationTask) :
  Forall (fun t => ready t = false) ts <-> total_claims_left ts = O.
Proof.
  unfold total_claims_left. induction ts as [|a ts IH].
  - split; [done | constructor].
  - rewrite Forall_cons, IH, fmap_cons. cbn [sum_list sum_list_with].
    destruct (ready a) eqn:Hr.
    + pose proof (claims_left_pos _ Hr). unfold id.
      split; [by intros [? _] | intros ?; exfalso; lia].
    + assert (claims_left a = O) as -> by (unfold claims_left; by rewrite Hr).
      unfold id. split; [by intros [_ ->] | intros ?; split; [done | lia]].
Qed.

Lemma count_status_total (ts : list MigrationTask) :
  count_status StQueued ts + count_status StRunning ts + count_status StDone ts
  + count_status StFailed ts + count_status StCleanup ts
  = Z.of_nat (length ts).
Proof.
  unfold count_status. induction ts as [|t ts IH]; [done|].
  rewrite !filter_cons. cbn [length].
  destruct (t_status t) eqn:Hs;
    repeat (case_decide; try congruence); cbn [length]; lia.
Qed.

Section Ticks.
Context {W : Type} {env : Env W} {sr : SettingsReader}.

(** What a tick does to the rows: nothing when no row is ready;
    otherwise the phase leaves the claimed row done or failed, with an
    error text, and [settle] decides. *)
Lemma tick_rows d m s b d' m' s' :
  process_queue_once d m s = (b, d', m', s') ->
  (first_ready 0 (tasks d) = None /\ b = false /\ d' = d /\ s' = s /\
   m' = _update_queue_metrics (tasks d) m) \/
  exists i t st err rq,
    first_ready 0 (tasks d) = Some (i, t) /\ b = true /\
    (st = StDone \/ st = StFailed) /\
    (rq = StQueued /\ (t_status t = StQueued \/ t_status t = StFailed) \/
     rq = StCleanup /\ t_status t = StCleanup) /\
    tasks d' = settle rq i (set_error err (set_status st t)) (tasks d).
Proof.
  intros Hp.
  destruct (first_ready 0 (tasks d)) as [[i t]|] eqn:Hf.
  - right. destruct (first_ready_0 _ _ _ Hf) as [_ Hr].
    destruct (ready_status _ Hr) as [Hst|[Hst|Hst]].
    1,2: destruct (copy_phase (set_status StRunning t) (file_meta d) m s)
           as [[[t1 fm1] m1] s1] eqn:Hc;
      rewrite (process_copy_tick _ _ _ _ _ _ _ _ _ Hf (ltac:(tauto)) Hc) in Hp;
      simplify_eq;
      destruct (copy_phase_row _ _ _ _ _ _ _ _ Hc) as ((st & err & -> & Hst') & _);
      exists i, t, st, err, StQueued; rewrite set_status_running;
      repeat split; try done; left; tauto.
    destruct (cleanup_phase t m s) as [[t1 m1] s1] eqn:Hc.
    rewrite (process_cleanup_tick _ _ _ _ _ _ _ _ Hf Hst Hc) in Hp.
    simplify_eq.
    destruct (cleanup_phase_row _ _ _ _ _ _ Hc) as ((st & err & -> & Hst') & _).
    exists i, t, st, err, StCleanup. repeat split; try done. right. tauto.
  - left. rewrite (process_idle _ _ _ Hf) in Hp. by simplify_eq.
Qed.

(** The three things [settle] can do with the claimed row. *)
Lemma settle_cases rq i t st err (ts : list MigrationTask) :
  st = StDone \/ st = StFailed ->
  let n := default 0 (t_attempts t) + 1 in
  settle rq i (set_error err (set_status st t)) ts
  = if bool_decide (st = StDone)
    then <[i := Task (t_id t) (t_key t) (t_src t) (t_dst t) StDone
                     (t_attempts t) err (t_created_at t)]> ts
    else if bool_decide (MAX_ATTEMPTS <= n) then delete i ts
    else <[i := Task (t_id t) (t_key t) (t_src t) (t_dst t) rq (Some n) err
                     (t_created_at t)]> ts.
Proof.
  intros [-> | ->] n.
  - rewrite settle_other by done. by rewrite bool_decide_eq_true_2.
  - rewrite settle_failed by done. rewrite bool_decide_eq_false_2 by done.
    cbn [set_error set_status set_attempts t_id t_key t_src t_dst t_status
         t_attempts t_error t_created_at]. fold n.
    destruct (Z.leb_spec MAX_ATTEMPTS n); case_bool_decide; try lia; reflexivity.
Qed.
End Ticks.

Section TickFacts.
Context {W : Type} {env : Env W} {sr : SettingsReader}.

Lemma copy_phase_file_meta t fm m s t1 fm1 m1 s1 :
  copy_phase t fm m s = (t1, fm1, m1, s1) ->
  fm1 = fm \/
  exists sz tok old,
    (_ensure_and_copy_once (t_key t) (t_src t) (t_dst t) s).1 = Ok (Copied sz tok) /\
    fm !! t_key t = Some old /\ fm1 = <[t_key t := tok]> fm.
Proof.
  unfold copy_phase. intros Hc.
  destruct (_ensure_and_copy_once _ _ _ s) as [[r|e] s2]; [|simplify_eq; by left].
  destruct r; simplify_eq; try by left.
  destruct (fm !! t_key t) eqn:Hfm; [right; eauto 6 | by left].
Qed.

(** X11.  Idle ticks.  A tick answers [False] exactly when no row is queued,
    failed or in cleanup; such a tick leaves the rows, the file
    metadata, the storage state and every job counter as they were. *)
Lemma tick_idle_iff d m s b d' m' s' :
  process_queue_once d m s = (b, d', m', s') ->
  (b = false <-> Forall (fun t => ready t = false) (tasks d)) /\
  (b = false ->
   d' = d /\ s' = s /\ alerts m' = alerts (_update_queue_metrics (tasks d) m) /\
   forall label, counter label m' = counter label m).
Proof.
  intros Hp. destruct (tick_rows _ _ _ _ _ _ _ Hp)
    as [(Hf & -> & -> & -> & ->) | (i & t & st & err & rq & Hf & -> & _)].
  - split; [split; [intros _; by eapply first_ready_none | done]|].
    intros _. repeat split; intros label; apply counter_update_queue_metrics.
  - destruct (first_ready_0 _ _ _ Hf) as [Hi Hr].
    split; [|done]. split; [done|]. intros Hall.
    rewrite Forall_lookup in Hall. specialize (Hall _ _ Hi). congruence.
Qed.

(** X12.  A tick touches the claimed row and nothing else.  Either the row
    is deleted, or it is rewritten in place with its id, key, endpoints
    and creation time kept; every other row is as before.  The file
    metadata changes at most under the row's key, and only where an
    entry for that key exists already. *)
Lemma tick_touches_claimed_row_only d m s b d' m' s' i t :
  process_queue_once d m s = (b, d', m', s') ->
  first_ready 0 (tasks d) = Some (i, t) ->
  (tasks d' = delete i (tasks d) \/
   exists t', tasks d' = <[i := t']> (tasks d) /\
     t_id t' = t_id t /\ t_key t' = t_key t /\ t_src t' = t_src t /\
     t_dst t' = t_dst t /\ t_created_at t' = t_created_at t) /\
  (forall k, k <> t_key t -> file_meta d' !! k = file_meta d !! k) /\
  dom (file_meta d') = dom (file_meta d).
Proof.
  intros Hp Hf.
  split.
  - destruct (tick_rows _ _ _ _ _ _ _ Hp)
      as [(Hf' & _) | (i' & t' & st & err & rq & Hf' & -> & Hst & _ & ->)];
      [congruence|].
    rewrite Hf in Hf'. injection Hf' as <- <-.
    rewrite settle_cases by done.
    repeat case_bool_decide; [right | by left | right]; eexists; (split; [done|]); done.
  - destruct (first_ready_0 _ _ _ Hf) as [_ Hr].
    destruct (ready_status _ Hr) as [Hst|[Hst|Hst]].
    1,2: destruct (copy_phase (set_status StRunning t) (file_meta d) m s)
           as [[[t1 fm1] m1] s1] eqn:Hc;
      rewrite (process_copy_tick _ _ _ _ _ _ _ _ _ Hf (ltac:(tauto)) Hc) in Hp;
      simplify_eq; cbn [file_meta];
      destruct (copy_phase_file_meta _ _ _ _ _ _ _ _ Hc)
        as [-> | (sz & tok & old & _ & Hold & ->)]; [done|];
      cbn [set_status t_key] in *;
      (split; [intros k Hk; by rewrite lookup_insert_ne |]);
      apply dom_insert_lookup_L; by eexists.
    destruct (cleanup_phase t m s) as [[t1 m1] s1] eqn:Hc.
    rewrite (process_cleanup_tick _ _ _ _ _ _ _ _ Hf Hst Hc) in Hp.
    by simplify_eq.
Qed.

(** X13.  The stored rows keep the invariant [settled]: no row is left
    running or failed by a tick, and attempts stay within
    [0, MAX_ATTEMPTS). *)
Lemma tick_keeps_settled d m s b d' m' s' :
  Forall settled (tasks d) ->
  process_queue_once d m s = (b, d', m', s') ->
  Forall settled (tasks d').
Proof.
  intros Hall Hp. destruct (tick_rows _ _ _ _ _ _ _ Hp)
    as [(_ & _ & -> & _) | (i & t & st & err & rq & Hf & _ & Hst & Hrq & ->)];
    [done|].
  destruct (first_ready_0 _ _ _ Hf) as [Hi _].
  pose proof (Forall_lookup_1 _ _ _ _ Hall Hi) as [_ Hat].
  rewrite settle_cases by done.
  repeat case_bool_decide.
  - apply Forall_insert; [done|]. split; [|done]. cbn.
    rewrite !elem_of_cons. tauto.
  - by apply Forall_delete.
  - apply Forall_insert; [done|]. split; cbn; [|lia].
    destruct Hrq as [[-> _]|[-> _]]; rewrite !elem_of_cons; tauto.
Qed.

(** A working tick uses up one of the claims the rows have left: a
    row that ends done or deleted gives up all of its claims, a
    requeued row exactly one. *)
Lemma tick_uses_a_claim d m s d' m' s' :
  process_queue_once d m s = (true, d', m', s') ->
  (total_claims_left (tasks d') < total_claims_left (tasks d))%nat.
Proof.
  intros Hp. destruct (tick_rows _ _ _ _ _ _ _ Hp)
    as [(_ & ? & _) | (i & t & st & err & rq & Hf & _ & Hst & Hrq & ->)];
    [done|].
  destruct (first_ready_0 _ _ _ Hf) as [Hi Hr].
  pose proof (claims_left_pos _ Hr) as Hpos.
  rewrite settle_cases by done.
  repeat case_bool_decide.
  - pose proof (claims_left_insert _ _ _
      (Task (t_id t) (t_key t) (t_src t) (t_dst t) StDone (t_attempts t) err
            (t_created_at t)) Hi) as Hsum.
    change (claims_left (Task _ _ _ _ StDone _ _ _)) with O in Hsum. lia.
  - pose proof (claims_left_delete _ _ _ Hi). lia.
  - pose proof (claims_left_insert _ _ _
      (Task (t_id t) (t_key t) (t_src t) (t_dst t) rq
            (Some (default 0 (t_attempts t) + 1)) err (t_created_at t)) Hi) as Hsum.
    assert (claims_left (Task (t_id t) (t_key t) (t_src t) (t_dst t) rq
              (Some (default 0 (t_attempts t) + 1)) err (t_created_at t))
            = Z.to_nat (MAX_ATTEMPTS - default 0 (t_attempts t) - 1)) as Hnew.
    { unfold claims_left.
      replace (ready _) with true
        by (destruct Hrq as [[-> _]|[-> _]]; reflexivity).
      cbn [t_attempts default]. f_equal. unfold MAX_ATTEMPTS, id in *. lia. }
    assert (claims_left t = Z.to_nat (MAX_ATTEMPTS - default 0 (t_attempts t))) as Hold.
    { unfold claims_left. rewrite Hr. f_equal. lia. }
    rewrite Hnew, Hold in Hsum.
    unfold MAX_ATTEMPTS in *. lia.
Qed.
End TickFacts.

Section Drain.
Context {W : Type} {env : Env W} {sr : SettingsReader}.

(** X14.  The queue drains.  Over [n] consecutive ticks the answers are
    [True] for the first [k] ticks and [False] from then on; [k] is at
    most the number of claims the rows had left at the start, whatever
    the storage answers; and once the processor has answered [False],
    or has run for that many ticks, no row is queued, failed or in
    cleanup. *)
Lemma ticks_drain n d m s bs d' m' s' :
  ticks n d m s = (bs, d', m', s') ->
  exists k,
    bs = replicate k true ++ replicate (n - k) false /\ (k <= n)%nat /\
    (k + total_claims_left (tasks d') <= total_claims_left (tasks d))%nat /\
    ((k < n)%nat \/ (total_claims_left (tasks d) <= n)%nat ->
     Forall (fun t => ready t = false) (tasks d')).
Proof.
  revert d m s bs d' m' s'.
  induction n as [|n IH]; intros d m s bs d' m' s' Ht; cbn [ticks] in Ht.
  - simplify_eq. exists O. split; [done|]. split; [lia|]. split; [lia|].
    intros [?|?]; [lia|]. apply claims_left_none. lia.
  - destruct (process_queue_once d m s) as [[[b d1] m1] s1] eqn:Hp.
    destruct (ticks n d1 m1 s1) as [[[bs2 d2] m2] s2] eqn:Ht2.
    injection Ht as <- <- <- <-.
    destruct (IH _ _ _ _ _ _ _ Ht2) as (k & -> & Hk & Hsum & Hdone).
    destruct b.
    + pose proof (tick_uses_a_claim _ _ _ _ _ _ Hp).
      exists (S k). split; [done|]. split; [lia|]. split; [lia|].
      intros [?|?]; apply Hdone; lia.
    + destruct (tick_rows _ _ _ _ _ _ _ Hp)
        as [(Hf & _ & -> & _) | (? & ? & ? & ? & ? & _ & ? & _)]; [|done].
      pose proof (proj1 (claims_left_none _) (first_ready_none _ _ Hf)) as H0.
      assert (k = O) as -> by lia.
      exists O. rewrite Nat.sub_0_r in *.
      split; [done|]. split; [lia|]. split; [lia|].
      intros _. apply claims_left_none. lia.
Qed.

(** X15.  A successful copy tick.  When the copy engine answers copied or
    noop for the claimed row, the row becomes done with an empty error
    and its attempts as they were; the job counter of that answer goes
    up by one and no other; and the version token is written to the
    file metadata of the key only after a copy, and only where an entry
    for the key exists. *)
Lemma tick_copy_success d m s b d' m' s' i t r s1 :
  first_ready 0 (tasks d) = Some (i, t) ->
  t_status t = StQueued \/ t_status t = StFailed ->
  _ensure_and_copy_once (t_key t) (t_src t) (t_dst t) s = (Ok r, s1) ->
  (exists sz tok, r = Copied sz tok) \/ r = Noop ->
  process_queue_once d m s = (b, d', m', s') ->
  b = true /\ s' = s1 /\
  tasks d' = <[i := Task (t_id t) (t_key t) (t_src t) (t_dst t) StDone
                        (t_attempts t) "" (t_created_at t)]> (tasks d) /\
  file_meta d'
  = match r, file_meta d !! t_key t with
    | Copied _ tok, Some _ => <[t_key t := tok]> (file_meta d)
    | _, _ => file_meta d
    end /\
  forall label,
    counter label m'
    = if bool_decide (label = outcome_status r)
      then counter label m + 1 else counter label m.
Proof.
  intros Hf Hst Hrun Hr Hp.
  destruct (copy_phase (set_status StRunning t) (file_meta d) m s)
    as [[[t1 fm1] m1] s2] eqn:Hc.
  rewrite (process_copy_tick _ _ _ _ _ _ _ _ _ Hf Hst Hc) in Hp.
  unfold copy_phase in Hc. cbn [set_status t_key t_src t_dst] in Hc.
  rewrite Hrun in Hc.
  assert (forall ts label lab m0,
    counter label (_update_queue_metrics ts (inc_counter lab m0))
    = if bool_decide (label = lab) then counter label m0 + 1 else counter label m0)
    as Hcount.
  { intros ts label lab m0. rewrite counter_update_queue_metrics, counter_inc.
    repeat case_bool_decide; congruence. }
  destruct Hr as [(sz & tok & ->) | ->]; simplify_eq;
    rewrite settle_other by done; cbn [file_meta tasks];
    (split; [done|]); (split; [done|]); (split; [done|]);
    (split; [|intros label; apply Hcount]).
  - by destruct (file_meta d !! t_key t).
  - by destruct (file_meta d !! t_key t).
Qed.

(** X16.  A cleanup tick whose DELETE does not raise: the row becomes done
    with an empty error, the file metadata is not touched, and the job
    counter [deleted] or, for an object that was gone already, [noop]
    goes up by one. *)
Lemma tick_cleanup_success d m s b d' m' s' i t r s1 :
  first_ready 0 (tasks d) = Some (i, t) ->
  t_status t = StCleanup ->
  _cleanup_once (t_key t) (t_src t) s = (Ok r, s1) ->
  process_queue_once d m s = (b, d', m', s') ->
  b = true /\ s' = s1 /\ (r = Deleted \/ r = Noop) /\
  tasks d' = <[i := Task (t_id t) (t_key t) (t_src t) (t_dst t) StDone
                        (t_attempts t) "" (t_created_at t)]> (tasks d) /\
  file_meta d' = file_meta d /\
  forall label,
    counter label m'
    = if bool_decide (label = outcome_status r)
      then counter label m + 1 else counter label m.
Proof.
  intros Hf Hst Hrun Hp.
  destruct (cleanup_phase t m s) as [[t1 m1] s2] eqn:Hc.
  rewrite (process_cleanup_tick _ _ _ _ _ _ _ _ Hf Hst Hc) in Hp.
  unfold cleanup_phase in Hc. rewrite Hrun in Hc. simplify_eq.
  rewrite settle_other by done. cbn [file_meta tasks].
  repeat split.
  - unfold _cleanup_once in Hrun. unfold_engine_in Hrun.
    repeat break_run Hrun; simplify_eq; tauto.
  - intros label. rewrite counter_update_queue_metrics, counter_inc.
    repeat case_bool_decide; congruence.
Qed.

(** X17.  A skipped copy is a failure that no job counter records.  When
    the copy engine answers skipped, the tick takes the failed path:
    the row goes back to queued with one more attempt and the printed
    outcome dict as its error, or is deleted at [MAX_ATTEMPTS]; the file
    metadata and every job counter stay as they were. *)
Lemma tick_skipped_is_failure d m s b d' m' s' i t reason s1 :
  first_ready 0 (tasks d) = Some (i, t) ->
  t_status t = StQueued \/ t_status t = StFailed ->
  _ensure_and_copy_once (t_key t) (t_src t) (t_dst t) s = (Ok (Skipped reason), s1) ->
  process_queue_once d m s = (b, d', m', s') ->
  let n := default 0 (t_attempts t) + 1 in
  b = true /\ s' = s1 /\
  tasks d'
  = (if bool_decide (MAX_ATTEMPTS <= n) then delete i (tasks d)
     else <[i := Task (t_id t) (t_key t) (t_src t) (t_dst t) StQueued (Some n)
                  (str_outcome (Skipped reason))
                  (t_created_at t)]> (tasks d)) /\
  file_meta d' = file_meta d /\
  forall label, counter label m' = counter label m.
Proof.
  intros Hf Hst Hrun Hp n.
  destruct (copy_phase (set_status StRunning t) (file_meta d) m s)
    as [[[t1 fm1] m1] s2] eqn:Hc.
  rewrite (process_copy_tick _ _ _ _ _ _ _ _ _ Hf Hst Hc) in Hp.
  unfold copy_phase in Hc. cbn [set_status t_key t_src t_dst] in Hc.
  rewrite Hrun in Hc. simplify_eq. cbn [file_meta tasks].
  split; [done|]. split; [done|]. split; [|done].
  change (set_error ?e (set_status StFailed (set_status StRunning t)))
    with (set_error e (set_status StFailed t)).
  rewrite settle_cases by tauto. fold n.
  rewrite bool_decide_eq_false_2 by done.
  by case_bool_decide.
Qed.
End Drain.

(** ** The chaos settings *)

Lemma sorted_singleton (x : string) : sorted {[x]} = [x].
Proof.
  unfold sorted. rewrite elements_singleton.
  apply Permutation_singleton_r. apply merge_sort_Permutation.
Qed.

Lemma list_to_set_sorted (X : gset string) : list_to_set (sorted X) = X.
Proof.
  apply set_eq. intros x. by rewrite elem_of_list_to_set, sorted_elem_of.
Qed.

Lemma list_to_set_same (l1 l2 : list string) :
  (forall x, x ∈ l1 <-> x ∈ l2) ->
  (list_to_set l1 : gset string) = list_to_set l2.
Proof.
  intros H. apply set_eq. intros x. by rewrite !elem_of_list_to_set.
Qed.

Lemma union_singleton_twice (X : gset string) (x : string) :
  X ∪ {[x]} ∪ {[x]} = X ∪ {[x]}.
Proof. by rewrite <- (assoc_L (∪)), (idemp_L (∪)). Qed.

Lemma difference_union_singleton (X : gset string) (x : string) :
  (X ∪ {[x]}) ∖ {[x]} = if bool_decide (x ∈ X) then X ∖ {[x]} else X.
Proof.
  apply set_eq. intros y. case_bool_decide as Hx.
  - rewrite !elem_of_difference, elem_of_union, elem_of_singleton. tauto.
  - rewrite elem_of_difference, elem_of_union, elem_of_singleton.
    split; [tauto|]. intros Hy. split; [tauto|]. by intros ->.
Qed.

Section ChaosMore.
Context {sr : SettingsReader}.

(** X18.  The chaos calls write one key each: the failure calls write
    [chaos_fail_endpoints], [set_latency] writes [chaos_latency_ms],
    and every other setting stays as it was; in particular the failure
    calls leave the stored latency alone and [set_latency] leaves the
    stored failure set alone. *)
Lemma chaos_calls_write_one_key (name : string) (ms : Z)
    (st : gmap string string) (k : string) :
  (k <> chaos.FAIL_KEY ->
   (chaos.fail_endpoint name st).2 !! k = st !! k /\
   (chaos.recover_endpoint name st).2 !! k = st !! k /\
   (chaos.clear_failures st).2 !! k = st !! k) /\
  (k <> chaos.LATENCY_KEY -> (chaos.set_latency ms st).2 !! k = st !! k) /\
  (chaos.fail_endpoint name st).2 !! chaos.LATENCY_KEY = st !! chaos.LATENCY_KEY /\
  (chaos.set_latency ms st).2 !! chaos.FAIL_KEY = st !! chaos.FAIL_KEY.
Proof.
  unfold chaos.fail_endpoint, chaos.recover_endpoint, chaos.clear_failures,
    chaos.set_latency, set_setting. cbn [snd].
  split; [|split; [|split]].
  - intros Hk. by rewrite !lookup_insert_ne.
  - intros Hk. by rewrite lookup_insert_ne.
  - by rewrite lookup_insert_ne.
  - by rewrite lookup_insert_ne.
Qed.

(** X19.  The failure calls see the stored list as a set: two settings
    whose stored lists have the same members, in whatever order and with
    whatever repetitions, get the same answer and the same stored
    string. *)
Lemma chaos_failure_set_canonical (name : string) (st1 st2 : gmap string string) :
  (forall x, x ∈ chaos.get_failed_endpoints st1 <-> x ∈ chaos.get_failed_endpoints st2) ->
  (chaos.fail_endpoint name st1).1 = (chaos.fail_endpoint name st2).1 /\
  (chaos.fail_endpoint name st1).2 !! chaos.FAIL_KEY
  = (chaos.fail_endpoint name st2).2 !! chaos.FAIL_KEY /\
  (chaos.recover_endpoint name st1).1 = (chaos.recover_endpoint name st2).1 /\
  (chaos.recover_endpoint name st1).2 !! chaos.FAIL_KEY
  = (chaos.recover_endpoint name st2).2 !! chaos.FAIL_KEY.
Proof.
  intros H%list_to_set_same.
  unfold chaos.fail_endpoint, chaos.recover_endpoint, set_setting. cbn [fst snd].
  rewrite !lookup_insert_eq, H. done.
Qed.

(** X20.  Failing an endpoint twice is failing it once: where the settings
    read back the members that were stored, the second call answers the
    same list and leaves the settings as the first call left them. *)
Lemma fail_endpoint_idempotent (name : string) (st : gmap string string) :
  let l := (chaos.fail_endpoint name st).1 in
  let st' := (chaos.fail_endpoint name st).2 in
  (forall x, x ∈ chaos.get_failed_endpoints st' <-> x ∈ l) ->
  chaos.fail_endpoint name st' = (l, st').
Proof.
  cbn zeta. intros H%list_to_set_same.
  unfold chaos.fail_endpoint at 1. rewrite H.
  unfold chaos.fail_endpoint, set_setting. cbn [fst snd].
  rewrite list_to_set_sorted.
  by rewrite union_singleton_twice, insert_insert_eq.
Qed.

(** X21.  Recovering undoes failing: where the settings read back the
    members that were stored, recovering an endpoint after failing it
    gives the answer and the settings that recovering alone gives, and
    for an endpoint that was not in the set the answer is the set as it
    was. *)
Lemma recover_undoes_fail (name : string) (st : gmap string string) :
  let st' := (chaos.fail_endpoint name st).2 in
  (forall x, x ∈ chaos.get_failed_endpoints st'
             <-> x ∈ (chaos.fail_endpoint name st).1) ->
  chaos.recover_endpoint name st' = chaos.recover_endpoint name st /\
  (name ∉ chaos.get_failed_endpoints st ->
   (chaos.recover_endpoint name st').1
   = sorted (list_to_set (chaos.get_failed_endpoints st))).
Proof.
  cbn zeta. intros H%list_to_set_same.
  assert (chaos.recover_endpoint name (chaos.fail_endpoint name st).2
          = chaos.recover_endpoint name st) as Heq.
  { unfold chaos.recover_endpoint at 1. rewrite H.
    unfold chaos.fail_endpoint, chaos.recover_endpoint, set_setting. cbn [fst snd].
    rewrite list_to_set_sorted, insert_insert_eq.
    set (X := list_to_set (chaos.get_failed_endpoints st) : gset string).
    rewrite bool_decide_eq_true_2
      by (rewrite elem_of_union, elem_of_singleton; tauto).
    by rewrite difference_union_singleton. }
  split; [exact Heq|].
  intros Hnot. rewrite Heq. unfold chaos.recover_endpoint. cbn [fst].
  rewrite bool_decide_eq_false_2; [done|]. by rewrite elem_of_list_to_set.
Qed.

(** X22.  After [clear_failures], where the settings read the cleared value
    as the empty list, failing an endpoint answers that one name and
    stores it bare. *)
Lemma fail_after_clear (name : string) (st : gmap string string) :
  let st0 := (chaos.clear_failures st).2 in
  chaos.get_failed_endpoints st0 = [] ->
  (chaos.clear_failures st).1 = [] /\
  st0 !! chaos.FAIL_KEY = Some "" /\
  (chaos.fail_endpoint name st0).1 = [name] /\
  (chaos.fail_endpoint name st0).2 !! chaos.FAIL_KEY = Some name.
Proof.
  cbn zeta. intros H.
  split; [done|]. split; [apply lookup_insert_eq|].
  unfold chaos.fail_endpoint. rewrite H. cbn [fst snd list_to_set].
  rewrite (left_id_L ∅ (∪)), sorted_singleton.
  split; [done|]. unfold set_setting. by rewrite lookup_insert_eq.
Qed.

(** X23.  The latency round trip: where the settings read back the integer
    that [set_latency] stored as a string, [get_latency] answers it,
    zero and negative values included. *)
Lemma latency_round_trip (ms : Z) (st : gmap string string) :
  let st' := (chaos.set_latency ms st).2 in
  get_int st' chaos.LATENCY_KEY = Some ms ->
  st' !! chaos.LATENCY_KEY = Some (pretty ms) /\
  chaos.get_latency st' = ms.
Proof.
  cbn zeta. intros H. split; [apply lookup_insert_eq|].
  by apply get_latency_value.
Qed.
End ChaosMore.

(** ** The feature columns of the tier model *)

(** X24.  The column list has as many names as the model has features when
    that number is 5, 6 or 7, and six names otherwise; the names are
    distinct; [size_bytes] is left out only for five features and
    [partial_upload] is there only for seven.  So the second test for
    six features, which would give [partial_upload] without
    [size_bytes], never decides. *)
Lemma choose_cols_shape (n : option Z) :
  length (_choose_cols n)
  = (if bool_decide (n = Some 5) then 5%nat
     else if bool_decide (n = Some 7) then 7%nat else 6%nat) /\
  (Some (Z.of_nat (length (_choose_cols n))) = n <-> n ∈ [Some 5; Some 6; Some 7]) /\
  NoDup (_choose_cols n) /\
  ("size_bytes" ∈ _choose_cols n <-> n <> Some 5) /\
  ("partial_upload" ∈ _choose_cols n <-> n = Some 7).
Proof.
  assert (forall l : list string, bool_decide (NoDup l) = true -> NoDup l) as Hnd
    by (intros l; by rewrite bool_decide_eq_true).
  assert (forall (x : string) (l : list string),
            bool_decide (x ∈ l) = true -> x ∈ l) as Hin
    by (intros x l; by rewrite bool_decide_eq_true).
  assert (forall (x : string) (l : list string),
            bool_decide (x ∈ l) = false -> x ∈ l -> False) as Hout
    by (intros x l; by rewrite bool_decide_eq_false).
  unfold _choose_cols.
  repeat case_bool_decide; subst; try congruence.
  all: split; [reflexivity|].
  all: split;
    [rewrite !elem_of_cons, elem_of_nil; cbn [length Z.of_nat]; split;
       [intros <-; first [by left | by right; left | by right; right; left | congruence]
       | intros [?|[?|[?|[]]]]; first [congruence | reflexivity]]|].
  all: split; [apply Hnd; vm_compute; reflexivity|].
  all: split; (split; intros Hx;
         first [ congruence
               | apply Hin; vm_compute; reflexivity
               | exfalso; congruence
               | exfalso; eapply Hout; [|exact Hx]; vm_compute; reflexivity ]).
Qed.

(** ** The tier model server *)

Section TierServer.
Context {M F : Type}.
Import serve_tiers.

Lemma lazy_load_cases {jl : Joblib M F} (st st' : server (M:=M)) r :
  _lazy_load st = (r, st') ->
  match _model st with
  | Some _ => r = Ok tt /\ st' = st
  | None =>
      (exists p,
         (p = _model_path st /\ path_exists p = true \/
          p = alt /\ path_exists (_model_path st) = false /\ path_exists alt = true) /\
         st' = Server (match joblib_load p with Ok m => Some m | Exc _ => None end)
                      (_model_path st) (loads st ++ [p]) /\
         r = match joblib_load p with Ok _ => Ok tt | Exc e => Exc e end) \/
      (path_exists (_model_path st) = false /\ path_exists alt = false /\
       r = Exc (OtherError (not_found_message (_model_path st))) /\ st' = st)
  end.
Proof.
  unfold _lazy_load, load_into. intros H.
  destruct (_model st) as [m|] eqn:Hm; [by injection H as <- <-|].
  destruct (path_exists (_model_path st)) eqn:He1;
    [|destruct (path_exists alt) eqn:He2].
  - left. exists (_model_path st). split; [by left|].
    destruct (joblib_load (_model_path st)); injection H as <- <-;
      by rewrite ?Hm.
  - left. exists alt. split; [by right|].
    destruct (joblib_load alt); injection H as <- <-; by rewrite ?Hm.
  - right. by injection H as <- <-.
Qed.

(** X25.  A lazy load that succeeds leaves a model set and the model
    path as it was, has called [joblib.load] at most once and then on
    a file that exists, the alternative only when the model path does
    not; and from then on lazy loads do nothing, whatever has become of
    the files. *)
Lemma lazy_load_idempotent {jl : Joblib M F} (st st' : server (M:=M)) :
  _lazy_load st = (Ok tt, st') ->
  is_Some (_model st') /\
  _model_path st' = _model_path st /\
  (loads st' = loads st \/
   exists p m, loads st' = loads st ++ [p] /\ path_exists p = true /\
               joblib_load p = Ok m /\ _model st' = Some m /\
               (p = _model_path st \/
                p = alt /\ path_exists (_model_path st) = false)) /\
  forall jl2 : Joblib M F, _lazy_load (jl:=jl2) st' = (Ok tt, st').
Proof.
  intros H. pose proof (lazy_load_cases _ _ _ H) as Hc.
  assert (is_Some (_model st')) as Hsome.
  { destruct (_model st) as [m|] eqn:Hm.
    - destruct Hc as [_ ->]. by rewrite Hm.
    - destruct Hc as [(p & _ & -> & Hr) | (_ & _ & ? & _)]; [|done].
      destruct (joblib_load p); [by eexists | done]. }
  split; [exact Hsome|].
  split; [|split].
  - destruct (_model st); [by destruct Hc as [_ ->]|].
    by destruct Hc as [(p & _ & -> & _) | (_ & _ & _ & ->)].
  - destruct (_model st); [left; by destruct Hc as [_ ->]|].
    destruct Hc as [(p & Hp & -> & Hr) | (_ & _ & ? & _)]; [|done].
    destruct (joblib_load p) as [m|] eqn:Hl; [|done].
    right. exists p, m. cbn [loads _model]. split; [done|].
    destruct Hp as [[-> ?] | (-> & ? & ?)]; (split; [done|]);
      (split; [done|]); (split; [done|]); [by left | by right].
  - intros jl2. unfold _lazy_load. by destruct Hsome as [m ->].
Qed.

(** X26.  A load that fails leaves the path changed and the model
    not: after [load(p)] has raised on a server that holds a model, the
    model path is [p], the model is the old one, and predictions go on
    with the old model without another load. *)
Lemma failed_load_keeps_model {jl : Joblib M F} (st : server (M:=M))
    (p : string) (e : exn) (m : M) :
  p <> "" -> joblib_load p = Exc e -> _model st = Some m ->
  let st' := (load (Some p) st).2 in
  (load (Some p) st).1 = Exc e /\
  _model_path st' = p /\ _model st' = Some m /\
  loads st' = loads st ++ [p] /\
  forall feat,
    predict_proba feat st'
    = (model_predict_proba m (feature_row feat (_choose_cols (n_features_in_ m))), st').
Proof.
  intros Hp Hl Hm. unfold load. rewrite bool_decide_eq_false_2 by done.
  rewrite Hl. cbn [fst snd _model _model_path loads].
  repeat (split; [done|]).
  intros feat. unfold predict_proba, _lazy_load, choose_cols.
  cbn [_model]. by rewrite Hm.
Qed.

(** X27.  Setting the model path drops the model: the next prediction
    loads the file at the new path, where it exists, and asks the model
    in that file, whatever model was held before. *)
Lemma set_model_path_reloads {jl : Joblib M F} (st : server (M:=M))
    (p : string) (m : M) (feat : gmap string F) :
  path_exists p = true -> joblib_load p = Ok m ->
  predict_proba feat (set_model_path p st)
  = (model_predict_proba m (feature_row feat (_choose_cols (n_features_in_ m))),
     Server (Some m) p (loads st ++ [p])).
Proof.
  intros He Hl.
  unfold predict_proba, _lazy_load, set_model_path, load_into, choose_cols.
  cbn [_model _model_path loads]. rewrite He, Hl. reflexivity.
Qed.

(** X28.  A prediction reads at most seven features.  Two feature
    dicts that agree on the seven column names get the same answer and
    leave the same server state; and a feature that is missing counts
    as [0.0]. *)
Lemma predict_proba_columns {jl : Joblib M F} (st : server (M:=M))
    (feat1 feat2 : gmap string F) :
  (forall c, c ∈ ["access_1h"; "access_24h"; "size_bytes"; "recency_s";
                  "hour_of_day"; "day_of_week"; "partial_upload"] ->
             default zero (feat1 !! c) = default zero (feat2 !! c)) ->
  predict_proba feat1 st = predict_proba feat2 st.
Proof.
  intros Hagree. unfold predict_proba.
  destruct (_lazy_load st) as [[[]|e] st']; [|done].
  destruct (_model st') as [m|]; [|done].
  f_equal. f_equal. unfold feature_row. apply list_fmap_ext.
  intros i c Hc. apply Hagree.
  apply list_elem_of_lookup_2 in Hc. revert Hc.
  unfold choose_cols, _choose_cols.
  repeat case_bool_decide; rewrite !elem_of_cons, !elem_of_nil; tauto.
Qed.
End TierServer.
(** * Runs on the in-memory store *)

(** Every GET throttled: the four GETs, no PUT and no DELETE, all on the
    endpoints and the key of the call. *)
Lemma copy_once_discipline_witness :
  let tr := (run (_ensure_and_copy_once "a/b" "s1" "s2") Mem.throttled_world).2.2 in
  forallb (addressed "s1" "s2" "a/b") tr = true /\
  List.filter is_delete tr = [] /\
  (length (List.filter is_ensure tr) <= 2)%nat /\
  (length (List.filter is_head tr) <= 3)%nat /\
  (length (List.filter is_get tr) <= 4)%nat /\
  (length (List.filter is_put tr) <= length (List.filter is_get tr))%nat.
Proof.
  cbn zeta.
  destruct (run (_ensure_and_copy_once "a/b" "s1" "s2") Mem.throttled_world)
    as [r [w' tr]] eqn:Hrun.
  exact (copy_once_discipline _ _ _ _ _ _ _ Hrun).
Defined.

(** Every GET throttled: four GETs, hence the sleeps of 1, 2 and 4
    seconds. *)
Lemma copy_once_backoff_schedule_witness :
  let tr := (run (_ensure_and_copy_once "a/b" "s1" "s2") Mem.throttled_world).2.2 in
  length (List.filter is_get tr) = 4%nat /\
  List.filter is_backoff tr = [EvSleep (Sec 1); EvSleep (Sec 2); EvSleep (Sec 4)].
Proof.
  cbn zeta.
  destruct (run (_ensure_and_copy_once "a/b" "s1" "s2") Mem.throttled_world)
    as [r [w' tr]] eqn:Hrun.
  cbn [snd].
  assert (length (List.filter is_get tr) = 4%nat) as Hget
    by (vm_compute in Hrun; injection Hrun as _ _ <-; reflexivity).
  split; [exact Hget|].
  rewrite (copy_once_backoff_schedule _ _ _ _ _ _ _ Hrun), Hget. reflexivity.
Defined.

(** Every GET throttled: the exception that comes out is the one the
    fourth GET raised.  A latency beyond the clock: the exception is the
    one of the sleep, and nothing was called. *)
Lemma copy_once_exception_source_witness :
  (exists w' tr ev,
     run (_ensure_and_copy_once "a/b" "s1" "s2") Mem.throttled_world
     = (Exc (Mem.throttled "SlowDown"), (w', tr)) /\
     last tr = Some ev /\ raised ev = Some (Mem.throttled "SlowDown")) /\
  (exists e,
     run (_ensure_and_copy_once "a/b" "s1" "s2") overflow_world
     = (Exc e, (overflow_world, [])) /\
     latency_sleep_error 10000000000000 = Some e).
Proof.
  split.
  - destruct (run (_ensure_and_copy_once "a/b" "s1" "s2") Mem.throttled_world)
      as [r [w' tr]] eqn:Hrun.
    assert (r = Exc (Mem.throttled "SlowDown")) as ->
      by (vm_compute in Hrun; injection Hrun as <- _ _; reflexivity).
    destruct (copy_once_exception_source _ _ _ _ _ _ _ Hrun)
      as [(ev & Hlast & Hev) | (_ & _ & Hpos & _)];
      [|vm_compute in Hpos; discriminate Hpos].
    exists w', tr, ev. exact (conj eq_refl (conj Hlast Hev)).
  - destruct (run (_ensure_and_copy_once "a/b" "s1" "s2") overflow_world)
      as [r [w' tr]] eqn:Hrun.
    assert (exists e, r = Exc e) as [e ->]
      by (vm_compute in Hrun; injection Hrun as <- _ _; eexists; reflexivity).
    assert (chaos.get_latency (settings overflow_world) = 10000000000000) as Hlat
      by (vm_compute; reflexivity).
    destruct (copy_once_exception_source _ _ _ _ _ _ _ Hrun)
      as [(ev & Hlast & _) | (Htr & Hw & _ & He)].
    + exfalso. assert (tr = []) as Htr
        by (vm_compute in Hrun; injection Hrun as _ _ <-; reflexivity).
      rewrite Htr in Hlast. discriminate Hlast.
    + exists e. rewrite Htr, Hw. rewrite Hlat in He. exact (conj eq_refl He).
Defined.

(** A server error on the PUT: the one fatal event of the run. *)
Lemma copy_once_fatal_witness :
  let '(r, (_, tr)) := run (_ensure_and_copy_once "a/b" "s1" "s2") server_error_world in
  List.filter fatal tr = [] \/
  exists ev e, List.filter fatal tr = [ev] /\ last tr = Some ev /\
               raised ev = Some e /\ r = Exc e.
Proof.
  destruct (run (_ensure_and_copy_once "a/b" "s1" "s2") server_error_world)
    as [r [w' tr]] eqn:Hrun.
  exact (copy_once_fatal _ _ _ _ _ _ _ Hrun).
Defined.

(** One throttled GET, then the copy: the five bytes the first HEAD
    reported, and the trace ends with the GET and the PUT. *)
Lemma copy_once_copied_witness :
  exists w' tr rs rest body mid,
    run (_ensure_and_copy_once "a/b" "s1" "s2") hiccup_world
    = (Ok (Copied 5 "token-0"), (w', tr)) /\
    List.filter is_head tr = EvHead "s1" "a/b" (Ok rs) :: rest /\
    5 = size (meta_of_resp rs) /\
    tr = mid ++ [EvGet "s1" "a/b" (Ok body); EvPut "s2" "a/b" body (Ok tt)].
Proof.
  destruct (run (_ensure_and_copy_once "a/b" "s1" "s2") hiccup_world)
    as [r [w' tr]] eqn:Hrun.
  assert (r = Ok (Copied 5 "token-0")) as ->
    by (vm_compute in Hrun; injection Hrun as <- _ _; reflexivity).
  destruct (copy_once_copied _ _ _ _ _ _ _ _ Hrun)
    as (rs & rest & body & mid & Hh & Hsz & _ & Htr).
  exists w', tr, rs, rest, body, mid.
  exact (conj eq_refl (conj Hh (conj Hsz Htr))).
Defined.

(** A latency of 250 ms: the run starts with that sleep, and the bucket
    check of the source follows.  A latency beyond the clock: the sleep
    raises, and the run has ended before any call. *)
Lemma copy_once_latency_witness :
  (let tr := (run (_ensure_and_copy_once "a/b" "s1" "s2") latency_world).2.2 in
   List.filter is_latency_sleep tr = [EvSleep (MilliSec 250)] /\
   exists r0 rest, tr = EvSleep (MilliSec 250) :: EvEnsure "s1" r0 :: rest) /\
  run (_ensure_and_copy_once "a/b" "s1" "s2") overflow_world
  = (Exc (OtherError "timestamp too large to convert to C _PyTime_t"),
     (overflow_world, [])).
Proof.
  split.
  - cbn zeta.
    destruct (run (_ensure_and_copy_once "a/b" "s1" "s2") latency_world)
      as [r [w' tr]] eqn:Hrun.
    cbn [snd].
    assert (chaos.get_latency (settings latency_world) = 250) as Hlat
      by (vm_compute; reflexivity).
    destruct (copy_once_latency _ _ _ _ _ _ _ Hrun eq_refl) as [_ Hpos].
    rewrite Hlat in Hpos. exact (Hpos eq_refl).
  - destruct (run (_ensure_and_copy_once "a/b" "s1" "s2") overflow_world)
      as [r [w' tr]] eqn:Hrun.
    assert (chaos.get_latency (settings overflow_world) = 10000000000000) as Hlat
      by (vm_compute; reflexivity).
    destruct (copy_once_latency _ _ _ _ _ _ _ Hrun eq_refl) as [_ Hpos].
    rewrite Hlat in Hpos. destruct (Hpos eq_refl) as (Hr & Htr & Hw).
    rewrite Hr, Htr, Hw. reflexivity.
Defined.

(** Nothing stored on either side: missing source after the two HEADs. *)
Lemma copy_once_source_absent_witness :
  exists w' tr,
    run (_ensure_and_copy_once "a/b" "s1" "s2") Mem.empty_world
    = (Ok MissingSource, (w', tr)) /\
    List.filter is_head tr
    = [EvHead "s1" "a/b" (Exc Mem.not_found); EvHead "s2" "a/b" (Exc Mem.not_found)] /\
    List.filter is_get tr = [] /\ List.filter is_put tr = [].
Proof.
  destruct (run (_ensure_and_copy_once "a/b" "s1" "s2") Mem.empty_world)
    as [r [w' tr]] eqn:Hrun.
  assert (List.filter is_head tr
          = [EvHead "s1" "a/b" (Exc Mem.not_found);
             EvHead "s2" "a/b" (Exc Mem.not_found)]) as Hheads
    by (vm_compute in Hrun; injection Hrun as _ _ <-; reflexivity).
  destruct (copy_once_source_absent _ _ _ _ _ _ _ _ _ _ None Hrun Hheads
              eq_refl eq_refl) as (Hr & _ & Hget & Hput).
  exists w', tr. rewrite Hr.
  exact (conj eq_refl (conj Hheads (conj Hget Hput))).
Defined.

(** The same object on both sides: the noop comes with its cause. *)
Lemma copy_once_outcome_sound_witness :
  exists w' tr h1 h2 dm,
    run (_ensure_and_copy_once "a/b" "s1" "s2") Mem.both_world = (Ok Noop, (w', tr)) /\
    List.filter is_head tr = [EvHead "s1" "a/b" h1; EvHead "s2" "a/b" h2] /\
    probe_result h2 = Ok (Some dm).
Proof.
  destruct (run (_ensure_and_copy_once "a/b" "s1" "s2") Mem.both_world)
    as [r [w' tr]] eqn:Hrun.
  assert (r = Ok Noop) as ->
    by (vm_compute in Hrun; injection Hrun as <- _ _; reflexivity).
  destruct (copy_once_outcome_sound _ _ _ _ _ _ _ Hrun) as (h1 & h2 & dm & Hh & Hp & _).
  exists w', tr, h1, h2, dm. exact (conj eq_refl (conj Hh Hp)).
Defined.

(** Deleting the stored object: one DELETE, answered without error. *)
Lemma cleanup_once_one_call_witness :
  exists w' tr,
    run (_cleanup_once "a/b" "s1") Mem.hello_world = (Ok Deleted, (w', tr)) /\
    tr = [EvDelete "s1" "a/b" (Ok tt)].
Proof.
  destruct (run (_cleanup_once "a/b" "s1") Mem.hello_world) as [r [w' tr]] eqn:Hrun.
  assert (r = Ok Deleted) as ->
    by (vm_compute in Hrun; injection Hrun as <- _ _; reflexivity).
  destruct (cleanup_once_one_call _ _ _ _ _ _ Hrun)
    as (d & _ & Htr & [[_ Hd] | [[Hr _] | (e & Hr & _)]]);
    [|discriminate Hr..].
  exists w', tr. rewrite Htr, Hd. exact (conj eq_refl eq_refl).
Defined.

(** Two ready rows: the cleanup row, created at 50, is claimed, not the
    queued row created at 100 that is stored before it. *)
Lemma first_ready_oldest_witness :
  [Mem.queued_task; Mem.cleanup_task] !! 1%nat = Some Mem.cleanup_task /\
  ready Mem.cleanup_task = true /\
  forall k t',
    [Mem.queued_task; Mem.cleanup_task] !! k = Some t' -> ready t' = true ->
    50 <= t_created_at t'.
Proof.
  exact (first_ready_oldest [Mem.queued_task; Mem.cleanup_task] 1%nat
           Mem.cleanup_task eq_refl).
Defined.

(** A store with one finished row: the tick is idle. *)
Lemma tick_idle_iff_witness :
  let d := Db [Task 1 "a/b" "s1" "s2" StDone None "" 100] ∅ in
  exists m',
    process_queue_once d Mem.no_metrics (Mem.hello_world, [])
    = (false, d, m', (Mem.hello_world, [])) /\
    Forall (fun t => ready t = false) (tasks d).
Proof.
  cbn zeta.
  destruct (process_queue_once (Db [Task 1 "a/b" "s1" "s2" StDone None "" 100] ∅)
              Mem.no_metrics (Mem.hello_world, [])) as [[[b d'] m'] s'] eqn:Hp.
  assert (b = false) as -> by (vm_compute in Hp; injection Hp as <- _ _ _; reflexivity).
  destruct (tick_idle_iff _ _ _ _ _ _ _ Hp) as [[Hno _] Hsame].
  destruct (Hsame eq_refl) as (Hd & Hs & _).
  exists m'. rewrite Hd, Hs. exact (conj eq_refl (Hno eq_refl)).
Defined.

(** The cleanup row is claimed and rewritten; the queued row and the file
    metadata are as before. *)
Lemma tick_touches_claimed_row_only_witness :
  let d := Db [Mem.queued_task; Mem.cleanup_task] (<["a/b" := "v0"]> ∅) in
  let d' := (process_queue_once d Mem.no_metrics (Mem.hello_world, [])).1.1.2 in
  (tasks d' = delete 1%nat (tasks d) \/
   exists t', tasks d' = <[1%nat := t']> (tasks d) /\ t_id t' = 2 /\ t_key t' = "gone" /\
              t_src t' = "s1" /\ t_dst t' = "s2" /\ t_created_at t' = 50) /\
  (forall k, k <> "gone" -> file_meta d' !! k = file_meta d !! k) /\
  dom (file_meta d') = dom (file_meta d).
Proof.
  cbn zeta.
  destruct (process_queue_once (Db [Mem.queued_task; Mem.cleanup_task] (<["a/b" := "v0"]> ∅))
              Mem.no_metrics (Mem.hello_world, [])) as [[[b d'] m'] s'] eqn:Hp.
  assert (first_ready 0 (tasks (Db [Mem.queued_task; Mem.cleanup_task]
                                   (<["a/b" := "v0"]> ∅)))
          = Some (1%nat, Mem.cleanup_task)) as Hf by reflexivity.
  exact (tick_touches_claimed_row_only _ _ _ _ _ _ _ 1%nat Mem.cleanup_task Hp Hf).
Defined.

(** A queued row whose source is missing: after the tick it is queued
    again with one attempt, and the rows are settled as before. *)
Lemma tick_keeps_settled_witness :
  let d := Db [Mem.queued_task; Mem.cleanup_task] ∅ in
  Forall settled (tasks d) /\
  Forall settled (tasks (process_queue_once d Mem.no_metrics (Mem.empty_world, [])).1.1.2).
Proof.
  cbn zeta.
  assert (Forall settled (tasks (Db [Mem.queued_task; Mem.cleanup_task] ∅))) as Hall.
  { repeat constructor; cbn; rewrite ?elem_of_cons; try tauto;
      unfold MAX_ATTEMPTS; lia. }
  split; [exact Hall|].
  destruct (process_queue_once (Db [Mem.queued_task; Mem.cleanup_task] ∅)
              Mem.no_metrics (Mem.empty_world, [])) as [[[b d'] m'] s'] eqn:Hp.
  exact (tick_keeps_settled _ _ _ _ _ _ _ Hall Hp).
Defined.

(** A queued row whose source is missing has five claims left: seven
    ticks give five times [True], then [False], and the row is gone. *)
Lemma ticks_drain_witness :
  let d := Db [Mem.queued_task] ∅ in
  total_claims_left (tasks d) = 5%nat /\
  exists d' m' s',
    ticks 7 d Mem.no_metrics (Mem.empty_world, [])
    = (replicate 5 true ++ replicate 2 false, d', m', s') /\
    Forall (fun t => ready t = false) (tasks d').
Proof.
  cbn zeta. split; [reflexivity|].
  destruct (ticks 7 (Db [Mem.queued_task] ∅) Mem.no_metrics (Mem.empty_world, []))
    as [[[bs d'] m'] s'] eqn:Ht.
  assert (bs = replicate 5 true ++ replicate 2 false) as Hbs
    by (vm_compute in Ht; injection Ht as <- _ _ _; reflexivity).
  destruct (ticks_drain _ _ _ _ _ _ _ _ Ht) as (k & _ & _ & _ & Hdone).
  exists d', m', s'. rewrite Hbs. split; [reflexivity|].
  apply Hdone. right. vm_compute. lia.
Defined.

(** A copy that goes through: the row is done, the version token
    replaces the stored one, and the counter [copied] is 1. *)
Lemma tick_copy_success_witness :
  let d := Db [Mem.queued_task] (<["a/b" := "v0"]> ∅) in
  exists d' m' s',
    process_queue_once d Mem.no_metrics (Mem.hello_world, []) = (true, d', m', s') /\
    tasks d' = [Task 1 "a/b" "s1" "s2" StDone None "" 100] /\
    file_meta d' = <["a/b" := "token-0"]> (<["a/b" := "v0"]> ∅) /\
    counter "copied" m' = 1.
Proof.
  cbn zeta.
  destruct (_ensure_and_copy_once "a/b" "s1" "s2" (Mem.hello_world, []))
    as [r s1] eqn:Hrun.
  assert (r = Ok (Copied 5 "token-0")) as ->
    by (vm_compute in Hrun; injection Hrun as <- _; reflexivity).
  destruct (process_queue_once (Db [Mem.queued_task] (<["a/b" := "v0"]> ∅))
              Mem.no_metrics (Mem.hello_world, [])) as [[[b d'] m'] s'] eqn:Hp.
  assert (first_ready 0 (tasks (Db [Mem.queued_task] (<["a/b" := "v0"]> ∅)))
          = Some (O, Mem.queued_task)) as Hf by reflexivity.
  destruct (tick_copy_success _ _ _ _ _ _ _ O Mem.queued_task _ _ Hf
              (or_introl eq_refl) Hrun (or_introl (ex_intro _ _ (ex_intro _ _ eq_refl))) Hp)
    as (-> & _ & Hrows & Hfm & Hcount).
  exists d', m', s'. split; [reflexivity|]. split; [exact Hrows|].
  split; [exact Hfm|]. rewrite Hcount. reflexivity.
Defined.

(** The cleanup row of an object that is gone: the DELETE raises
    [NoSuchKey], the row is done and the counter [noop] is 1. *)
Lemma tick_cleanup_success_witness :
  let d := Db [Mem.cleanup_task] ∅ in
  exists d' m' s',
    process_queue_once d Mem.no_metrics (Mem.hello_world, []) = (true, d', m', s') /\
    tasks d' = [Task 2 "gone" "s1" "s2" StDone (Some 3) "" 50] /\
    counter "noop" m' = 1 /\ counter "deleted" m' = 0.
Proof.
  cbn zeta.
  destruct (_cleanup_once "gone" "s1" (Mem.hello_world, [])) as [r s1] eqn:Hrun.
  assert (r = Ok Noop) as ->
    by (vm_compute in Hrun; injection Hrun as <- _; reflexivity).
  destruct (process_queue_once (Db [Mem.cleanup_task] ∅)
              Mem.no_metrics (Mem.hello_world, [])) as [[[b d'] m'] s'] eqn:Hp.
  assert (first_ready 0 (tasks (Db [Mem.cleanup_task] ∅))
          = Some (O, Mem.cleanup_task)) as Hf by reflexivity.
  destruct (tick_cleanup_success _ _ _ _ _ _ _ O Mem.cleanup_task _ _ Hf
              eq_refl Hrun Hp) as (-> & _ & _ & Hrows & _ & Hcount).
  exists d', m', s'. split; [reflexivity|]. split; [exact Hrows|].
  rewrite !Hcount. split; reflexivity.
Defined.

(** A source written a second ago: the copy is skipped as growing, the
    row is queued again with one attempt, and no counter moves. *)
Lemma tick_skipped_is_failure_witness :
  let d := Db [Mem.queued_task] ∅ in
  exists d' m' s',
    process_queue_once d Mem.no_metrics (Mem.fresh_world, []) = (true, d', m', s') /\
    tasks d' = [Task 1 "a/b" "s1" "s2" StQueued (Some 1)
                     "{'status': 'skipped', 'reason': 'file_growing'}" 100] /\
    forall label, counter label m' = 0.
Proof.
  cbn zeta.
  destruct (_ensure_and_copy_once "a/b" "s1" "s2" (Mem.fresh_world, []))
    as [r s1] eqn:Hrun.
  assert (r = Ok (Skipped "file_growing")) as ->
    by (vm_compute in Hrun; injection Hrun as <- _; reflexivity).
  destruct (process_queue_once (Db [Mem.queued_task] ∅)
              Mem.no_metrics (Mem.fresh_world, [])) as [[[b d'] m'] s'] eqn:Hp.
  assert (first_ready 0 (tasks (Db [Mem.queued_task] ∅))
          = Some (O, Mem.queued_task)) as Hf by reflexivity.
  destruct (tick_skipped_is_failure _ _ _ _ _ _ _ O Mem.queued_task _ _ Hf
              (or_introl eq_refl) Hrun Hp) as (-> & _ & Hrows & _ & Hcount).
  exists d', m', s'. split; [reflexivity|]. split; [exact Hrows|].
  intros label. rewrite Hcount. reflexivity.
Defined.

(** With the in-memory settings and the stored list [c,a]: the calls
    leave another key alone. *)
Lemma chaos_calls_write_one_key_witness :
  (chaos.fail_endpoint "b" failed_settings).2 !! chaos.LATENCY_KEY = None /\
  (chaos.set_latency 250 failed_settings).2 !! chaos.FAIL_KEY = Some "c,a".
Proof.
  destruct (chaos_calls_write_one_key "b" 250 failed_settings chaos.LATENCY_KEY)
    as (Hfail & _ & _ & Hlat).
  destruct Hfail as (Hf & _); [done|].
  split; [by rewrite Hf | by rewrite Hlat].
Defined.

(** The stored lists [c,a] and [a,c,a] hold the same names: failing
    [b] answers [a, b, c] for both. *)
Lemma chaos_failure_set_canonical_witness :
  let st2 : gmap string string := <[chaos.FAIL_KEY := "a,c,a"]> ∅ in
  (chaos.fail_endpoint "b" failed_settings).1 = ["a"; "b"; "c"] /\
  (chaos.fail_endpoint "b" st2).1 = ["a"; "b"; "c"].
Proof.
  cbn zeta.
  assert (chaos.get_failed_endpoints failed_settings = ["c"; "a"]) as H1
    by (vm_compute; reflexivity).
  assert (chaos.get_failed_endpoints (<[chaos.FAIL_KEY := "a,c,a"]> ∅) = ["a"; "c"; "a"])
    as H2 by (vm_compute; reflexivity).
  destruct (chaos_failure_set_canonical "b" failed_settings
              (<[chaos.FAIL_KEY := "a,c,a"]> ∅)) as (Heq & _).
  { intros x. rewrite H1, H2, !elem_of_cons, !elem_of_nil. tauto. }
  rewrite <- Heq. split; vm_compute; reflexivity.
Defined.

(** Failing [b] twice on the stored list [c,a]. *)
Lemma fail_endpoint_idempotent_witness :
  let st' := (chaos.fail_endpoint "b" failed_settings).2 in
  chaos.fail_endpoint "b" st' = (["a"; "b"; "c"], st').
Proof.
  cbn zeta.
  assert ((chaos.fail_endpoint "b" failed_settings).1 = ["a"; "b"; "c"]) as Hl
    by (vm_compute; reflexivity).
  rewrite <- Hl. apply fail_endpoint_idempotent.
  assert (chaos.get_failed_endpoints (chaos.fail_endpoint "b" failed_settings).2
          = (chaos.fail_endpoint "b" failed_settings).1) as ->
    by (vm_compute; reflexivity).
  done.
Defined.

(** Failing and then recovering [b] on the stored list [c,a] answers
    [a, c]. *)
Lemma recover_undoes_fail_witness :
  let st' := (chaos.fail_endpoint "b" failed_settings).2 in
  (chaos.recover_endpoint "b" st').1 = ["a"; "c"].
Proof.
  cbn zeta.
  destruct (recover_undoes_fail "b" failed_settings) as [_ Hback].
  - assert (chaos.get_failed_endpoints (chaos.fail_endpoint "b" failed_settings).2
            = (chaos.fail_endpoint "b" failed_settings).1) as ->
      by (vm_compute; reflexivity).
    done.
  - rewrite Hback; [vm_compute; reflexivity|].
    assert (chaos.get_failed_endpoints failed_settings = ["c"; "a"]) as ->
      by (vm_compute; reflexivity).
    rewrite !elem_of_cons, elem_of_nil. intros [?|[?|[]]]; discriminate.
Defined.

(** Clearing the stored list [c,a], then failing [b]. *)
Lemma fail_after_clear_witness :
  let st0 := (chaos.clear_failures failed_settings).2 in
  st0 !! chaos.FAIL_KEY = Some "" /\
  (chaos.fail_endpoint "b" st0).1 = ["b"] /\
  (chaos.fail_endpoint "b" st0).2 !! chaos.FAIL_KEY = Some "b".
Proof.
  cbn zeta.
  destruct (fail_after_clear "b" failed_settings) as (_ & H0 & Hl & Hst).
  - vm_compute. reflexivity.
  - exact (conj H0 (conj Hl Hst)).
Defined.

(** Latencies of 250, 0 and -5 ms come back as they were set. *)
Lemma latency_round_trip_witness :
  chaos.get_latency (chaos.set_latency 250 ∅).2 = 250 /\
  chaos.get_latency (chaos.set_latency 0 ∅).2 = 0 /\
  chaos.get_latency (chaos.set_latency (-5) ∅).2 = -5.
Proof.
  split; [|split].
  - apply (latency_round_trip 250 ∅). vm_compute. reflexivity.
  - apply (latency_round_trip 0 ∅). vm_compute. reflexivity.
  - apply (latency_round_trip (-5) ∅). vm_compute. reflexivity.
Defined.

(** A server without a model whose path names the one file: the lazy
    load reads it, and a second lazy load does nothing, also after the
    file has been removed. *)
Lemma lazy_load_idempotent_witness :
  let st := serve_tiers.Server (M:=option Z) None "/m/seven.bin" [] in
  let st' := serve_tiers.Server (Some (Some 7)) "/m/seven.bin" ["/m/seven.bin"] in
  serve_tiers._lazy_load (jl:=toy_joblib) st = (Ok tt, st') /\
  serve_tiers._lazy_load (jl:=empty_joblib) st' = (Ok tt, st').
Proof.
  cbn zeta. split; [reflexivity|].
  apply (lazy_load_idempotent (jl:=toy_joblib)
           (serve_tiers.Server None "/m/seven.bin" []) _ eq_refl).
Defined.

(** Loading a file that is not there on a server that holds the
    seven-feature model: the path changes, the model stays. *)
Lemma failed_load_keeps_model_witness :
  let st := serve_tiers.Server (M:=option Z) (Some (Some 7)) "/m/seven.bin" [] in
  let st' := (serve_tiers.load (jl:=toy_joblib) (Some "/m/new.bin") st).2 in
  serve_tiers._model_path st' = "/m/new.bin" /\
  serve_tiers._model st' = Some (Some 7) /\
  serve_tiers.predict_proba (jl:=toy_joblib) (<["access_1h" := 3]> ∅) st' = (Ok 3, st').
Proof.
  cbn zeta.
  destruct (failed_load_keeps_model (jl:=toy_joblib)
              (serve_tiers.Server (Some (Some 7)) "/m/seven.bin" [])
              "/m/new.bin" (OtherError "no such file") (Some 7))
    as (_ & Hpath & Hmodel & _ & Hpred); [discriminate | reflexivity | reflexivity |].
  split; [exact Hpath|]. split; [exact Hmodel|].
  rewrite Hpred. reflexivity.
Defined.

(** A server that holds a five-feature model is pointed to the file of
    the seven-feature model: the next prediction loads that file and
    sums the seven features, [partial_upload] among them. *)
Lemma set_model_path_reloads_witness :
  let st := serve_tiers.Server (M:=option Z) (Some (Some 5)) "/m/five.bin" [] in
  serve_tiers.predict_proba (jl:=toy_joblib)
    (<["access_1h" := 3]> (<["partial_upload" := 1]> ∅))
    (serve_tiers.set_model_path "/m/seven.bin" st)
  = (Ok 4, serve_tiers.Server (Some (Some 7)) "/m/seven.bin" ["/m/seven.bin"]).
Proof.
  cbn zeta.
  rewrite (set_model_path_reloads (jl:=toy_joblib) _ "/m/seven.bin" (Some 7) _
             eq_refl eq_refl).
  reflexivity.
Defined.

(** A feature the model does not know, and a zero spelt out, change
    nothing. *)
Lemma predict_proba_columns_witness :
  let st := serve_tiers.Server (M:=option Z) None "/m/seven.bin" [] in
  serve_tiers.predict_proba (jl:=toy_joblib) (<["access_1h" := 3]> ∅) st
  = serve_tiers.predict_proba (jl:=toy_joblib)
      (<["colour" := 9]> (<["size_bytes" := 0]> (<["access_1h" := 3]> ∅))) st.
Proof.
  cbn zeta. apply (predict_proba_columns (jl:=toy_joblib)).
  intros c Hc. rewrite !elem_of_cons, elem_of_nil in Hc.
  destruct Hc as [->|[->|[->|[->|[->|[->|[->|[]]]]]]]]; reflexivity.
Defined.
